(** * Pathway internals: schemas, traces, row transformers, table slices
      and the expression printer

    A shallow embedding of
      - [pathway/internals/schema.py]
      - [pathway/internals/trace.py]
      - [pathway/internals/row_transformer.py] ([ClassArg.__init_subclass__])
      - [pathway/internals/table_slice.py]
      - [pathway/internals/expression_printer.py]
    followed by the properties the specification states about them.

    Python dictionaries keep insertion order and have unique keys; they are
    embedded as association lists ([PyDict]) and related to stdpp's [gmap]
    where only the mapping matters.  Exceptions are values of [Error]
    returned on the left of [result]. *)

From Stdlib Require Import Ascii String.
From stdpp Require Import base strings list gmap pretty.

Local Open Scope string_scope.
Local Open Scope list_scope.

(* ================================================================== *)
(** * Part I: the program                                              *)
(* ================================================================== *)

(** ** Exceptions raised by the embedded code *)

Inductive Error : Type :=
  | ValueError (msg : string)
  | TypeError (msg : string)
  | KeyError (msg : string)
  | AttributeError (msg : string)
  | RuntimeError (msg : string)
  | AssertionError.

Inductive result (A : Type) : Type :=
  | Ok (a : A)
  | Raise (e : Error).
Arguments Ok {A} a.
Arguments Raise {A} e.

Definition rbind {A B} (r : result A) (k : A → result B) : result B :=
  match r with
  | Ok a => k a
  | Raise e => Raise e
  end.

Notation "x ←! r ; k" := (rbind r (λ x, k))
  (at level 20, r at level 100, k at level 200, right associativity,
   format "x  ←!  r ;  '/' k").

(** ** Python [dict]: insertion ordered, one entry per key *)

Module PyDict.
Section dict.
Context {V : Type}.

(** [d.keys()], [d.values()] in iteration order. *)
Definition keys (d : list (string * V)) : list string := d.*1.
Definition values (d : list (string * V)) : list V := d.*2.

(** [d.get(k)] *)
Fixpoint get (d : list (string * V)) (k : string) : option V :=
  match d with
  | [] => None
  | (k', v) :: d' => if decide (k' = k) then Some v else get d' k
  end.

(** [k in d] *)
Definition contains (d : list (string * V)) (k : string) : bool :=
  bool_decide (k ∈ keys d).

(** [d[k] = v]: an existing key keeps its position, a new one goes last. *)
Fixpoint set (d : list (string * V)) (k : string) (v : V)
  : list (string * V) :=
  match d with
  | [] => [(k, v)]
  | (k', v') :: d' =>
      if decide (k' = k) then (k, v) :: d' else (k', v') :: set d' k v
  end.

(** [d.pop(k)] on a key that is present (the callers test [k in d]
    first); the value is dropped. *)
Fixpoint pop (d : list (string * V)) (k : string) : list (string * V) :=
  match d with
  | [] => []
  | (k', v') :: d' => if decide (k' = k) then d' else (k', v') :: pop d' k
  end.

(** [{k: v for k, v in items}]: later items overwrite earlier ones. *)
Definition of_items (items : list (string * V)) : list (string * V) :=
  foldl (λ d kv, set d kv.1 kv.2) [] items.

(** The invariant of a Python dict. *)
Definition wf (d : list (string * V)) : Prop := NoDup (keys d).

(** The mapping a dict denotes, forgetting the order. *)
Definition to_map (d : list (string * V)) : gmap string V := list_to_map d.
End dict.
End PyDict.

Abbreviation pydict V := (list (string * V)).

(** [StableSet(xs)] of [pathway.internals.helpers]: an insertion-ordered
    set; a repeated element keeps its first position.  (The class is not
    among the sources; its use in [_create_column_definitions] only relies
    on ordered, duplicate-free iteration.) *)
Definition StableSet (xs : list string) : list string :=
  foldl (λ acc x, if bool_decide (x ∈ acc) then acc else acc ++ [x]) [] xs.

(** [dict(ChainMap(maps...))]: iteration visits the maps last to first and
    keeps the first position of a key; lookup takes the first map, in
    argument order, that has the key. *)
Fixpoint chain_get {V} (maps : list (pydict V)) (k : string) : option V :=
  match maps with
  | [] => None
  | m :: maps' =>
      match PyDict.get m k with
      | Some v => Some v
      | None => chain_get maps' k
      end
  end.

Definition dict_of_ChainMap {V} (maps : list (pydict V)) : pydict V :=
  omap (λ k, (λ v, (k, v)) <$> chain_get maps k)
       (StableSet (concat (PyDict.keys <$> reverse maps))).

(** ** Dtypes *)

(** Modelled from the spec: [pathway/internals/dtype.py] is not among the
    sources.  The specification describes a dtype as "a semantic type tag
    (primitive, optional, list/array, tuple, duration/timestamp variants,
    or any)".  [DType(t)] is the identity on such a tag.  [Callable_ r]
    stands for [Callable[..., r]] and [Signature_empty] for the missing
    return annotation [inspect.Signature.empty]; both occur in
    [row_transformer.py]. *)
Inductive DType : Type :=
  | Any
  | NoneType
  | int_
  | float_
  | bool_
  | str_
  | DateTimeNaive
  | DateTimeUtc
  | Duration
  | Optional (t : DType)
  | List_ (t : DType)
  | Tuple2 (t1 t2 : DType)
  | Callable_ (ret : DType)
  | Signature_empty.

#[global] Instance DType_eq_dec : EqDecision DType.
Proof. solve_decision. Defined.

(** Modelled from the spec: [dtype_issubclass] lives in the absent
    [dtype.py]; the code below takes it as a parameter, and this
    definition is one instance, used in the examples.  "[a]'s dtype is
    assignable to [b]'s dtype (covariant numeric/optional widening
    allowed; exact match required otherwise)": everything is assignable
    to [Any], [int] widens to [float], [None] and any [t] assignable to
    [u] are assignable to [Optional[u]], and otherwise the two tags must
    be equal. *)
Fixpoint spec_dtype_issubclass (left right : DType) {struct right} : bool :=
  match left, right with
  | _, Any => true
  | int_, float_ => true
  | NoneType, Optional _ => true
  | Optional t, Optional u => spec_dtype_issubclass t u
  | t, Optional u => spec_dtype_issubclass t u
  | _, _ => bool_decide (left = right)
  end.

(** ** Python values used as column defaults *)

(** Plain data, the one instance of the private class [_Undefined], and
    objects of user classes.  An object has an identity, a [repr], and the
    answer [ne] of its class to [o.__ne__(other)] for an [other] of another
    class: [None] stands for [NotImplemented], which is what [object]
    answers unless the class overrides [__ne__], or [__eq__], which
    [object.__ne__] inverts. *)
#[warnings="-register-all"]
Inductive PyValue : Type :=
  | PyNone
  | PyBool (b : bool)
  | PyInt (z : Z)
  | PyStr (s : string)
  | PyUndefined
  | PyObject (id : nat) (repr : string) (ne : option PyValue).

#[global] Instance PyValue_eq_dec : EqDecision PyValue.
Proof.
  unfold EqDecision. fix go 1. intros x y.
  destruct x as [|a|a|a| |i r n], y as [|b|b|b| |j q m];
    try (right; discriminate); try (left; reflexivity).
  - destruct (decide (a = b)); [left|right]; congruence.
  - destruct (decide (a = b)); [left|right]; congruence.
  - destruct (decide (a = b)); [left|right]; congruence.
  - destruct (decide (i = j)); [|right; congruence].
    destruct (decide (r = q)); [|right; congruence].
    destruct n as [v|], m as [w|]; try (right; congruence).
    + destruct (go v w); [left|right]; congruence.
    + left; congruence.
Defined.

(** The number a [bool] or an [int] stands for ([bool] is a subclass of
    [int]). *)
Definition int_value (v : PyValue) : option Z :=
  match v with
  | PyBool b => Some (if b then 1%Z else 0%Z)
  | PyInt z => Some z
  | _ => None
  end.

(** [type(a).__ne__(a, b)], with [None] for [NotImplemented].  [None] and
    the instance of [_Undefined] inherit [object.__ne__], which knows the
    object itself only; numbers and strings compare with their own kind;
    an object of a user class gives the answer of its class. *)
Definition __ne__ (a b : PyValue) : option PyValue :=
  match a, b with
  | PyObject _ _ (Some r), _ => Some r
  | PyObject i _ None, PyObject j _ _ =>
      if decide (i = j) then Some (PyBool false) else None
  | PyNone, PyNone | PyUndefined, PyUndefined => Some (PyBool false)
  | (PyBool _ | PyInt _), (PyBool _ | PyInt _) =>
      Some (PyBool (negb (bool_decide (int_value a = int_value b))))
  | PyStr s, PyStr t => Some (PyBool (negb (bool_decide (s = t))))
  | _, _ => None
  end.

(** [a != b]: the answer of [a], unless it is [NotImplemented]; then the
    answer of [b] to the reflected comparison; and when both decline,
    [a is not b], which is [True] because every value answers for itself. *)
Definition py_ne (a b : PyValue) : PyValue :=
  match __ne__ a b with
  | Some r => r
  | None =>
      match __ne__ b a with
      | Some r => r
      | None => PyBool true
      end
  end.

(** ** [schema.py] *)

(** [_no_default_value_marker = _Undefined()] *)
Definition _no_default_value_marker : PyValue := PyUndefined.

(** [@dataclass class ColumnDefinition] *)
Record ColumnDefinition : Type := mkColumnDefinition {
  primary_key : bool;
  default_value : PyValue;
  dtype : option DType;
  name : option string;
}.

#[global] Instance ColumnDefinition_eq_dec : EqDecision ColumnDefinition.
Proof. solve_decision. Defined.

(** The dataclass defaults: [ColumnDefinition(dtype=d)]. *)
Definition ColumnDefinition_of_dtype (d : DType) : ColumnDefinition :=
  {| primary_key := false;
     default_value := _no_default_value_marker;
     dtype := Some d;
     name := None |}.

(** [ColumnDefinition.has_default_value]: whatever [!=] returns. *)
Definition has_default_value (self : ColumnDefinition) : PyValue :=
  py_ne (default_value self) _no_default_value_marker.

(** [column_definition(primary_key, default_value, dtype, name)].  The
    keyword defaults of the source are [primary_key=False],
    [default_value=_no_default_value_marker], [dtype=None], [name=None];
    a call that omits a keyword passes its default. *)
Definition column_definition
    (primary_key : bool) (default_value : PyValue)
    (dtype : option DType) (name : option string) : ColumnDefinition :=
  {| primary_key := primary_key;
     default_value := default_value;
     dtype := dtype;
     name := name |}.

(** A value bound to a class attribute of a schema: a column definition,
    or anything else ([type_name] is what [type(column)] prints). *)
Inductive FieldValue : Type :=
  | FColumn (column : ColumnDefinition)
  | FOther (type_name : string).

(** [column.name or name]: [None] and the empty string are falsy. *)
Definition name_or (column_name : option string) (attr : string) : string :=
  match column_name with
  | Some s => if decide (s = "") then attr else s
  | None => attr
  end.

(** One iteration of the loop of [_create_column_definitions]: the key
    and the column that [columns[name] = column] stores. *)
Definition column_for (annotations : pydict DType)
    (fields : pydict FieldValue) (attr : string)
  : result (string * ColumnDefinition) :=
  let dt := match PyDict.get annotations attr with
            | Some a => a
            | None => Any
            end in
  match default (FColumn (ColumnDefinition_of_dtype dt))
                (PyDict.get fields attr) with
  | FOther ty =>
      Raise (ValueError
        ("`" +:+ attr +:+ "` should be a column definition, found " +:+ ty))
  | FColumn column =>
      let name' := name_or (name column) attr in
      let column :=
        match dtype column with
        | None => {| primary_key := primary_key column;
                     default_value := default_value column;
                     dtype := Some dt;
                     name := name column |}
        | Some _ => column
        end in
      if bool_decide (dt ≠ Any) && bool_decide (Some dt ≠ dtype column)
      then Raise (TypeError
        ("type annotation of column `" +:+ name' +:+
         "` does not match column definition"))
      else Ok (name', column)
  end.

(** [_create_column_definitions]: the loop over
    the [StableSet] of the annotation keys followed by the field keys. *)
Fixpoint create_columns_loop (annotations : pydict DType)
    (fields : pydict FieldValue) (column_names : list string)
    (columns : pydict ColumnDefinition) : result (pydict ColumnDefinition) :=
  match column_names with
  | [] => Ok columns
  | attr :: rest =>
      kc ←! column_for annotations fields attr;
      create_columns_loop annotations fields rest
        (PyDict.set columns kc.1 kc.2)
  end.

Definition _create_column_definitions (annotations : pydict DType)
    (fields : pydict FieldValue) : result (pydict ColumnDefinition) :=
  create_columns_loop annotations fields
    (StableSet (PyDict.keys annotations ++ PyDict.keys fields)) [].

(** [column.dtype = dtype] in the loop assigns to the very object the
    class attribute holds.  Every attribute is visited once, so after a
    successful construction each field that had [dtype=None] carries the
    dtype of its annotation ([Any] without one). *)
Definition field_after_init (annotations : pydict DType) (attr : string)
    (v : FieldValue) : FieldValue :=
  match v with
  | FColumn column =>
      match dtype column with
      | None =>
          FColumn {| primary_key := primary_key column;
                     default_value := default_value column;
                     dtype := Some (default Any
                                      (PyDict.get annotations attr));
                     name := name column |}
      | Some _ => v
      end
  | FOther _ => v
  end.

Definition fields_after_init (annotations : pydict DType)
    (fields : pydict FieldValue) : pydict FieldValue :=
  (λ kv, (kv.1, field_after_init annotations kv.1 kv.2)) <$> fields.

(** A schema class: what [get_type_hints(schema)] and
    [_cls_fields(schema)] return for it, and its [__columns__]. *)
Record Schema : Type := mkSchema {
  __name__ : string;
  get_type_hints : pydict DType;
  _cls_fields : pydict FieldValue;
  __columns__ : pydict ColumnDefinition;
}.

(** [_schema_builder(_name, _dict)]: [SchemaMetaclass.__init__] runs
    [_create_column_definitions] on the new class.  The decorator
    [trace_user_frame] around [__init__] re-raises a failure with its type
    kept (see [_reraise_with_user_frame] below). *)
Definition _schema_builder (_name : string) (annotations : pydict DType)
    (fields : pydict FieldValue) : result Schema :=
  columns ←! _create_column_definitions annotations fields;
  Ok {| __name__ := _name;
        get_type_hints := annotations;
        _cls_fields := fields_after_init annotations fields;
        __columns__ := columns |}.

(** [schema_from_types(_name, kwargs...)]; the generated default name is
    [schema(<kwargs>)], abbreviated here. *)
Definition schema_from_types (_name : option string)
    (kwargs : pydict DType) : result Schema :=
  _schema_builder (default "schema(...)" _name) kwargs [].

(** [schema_builder(columns, name)] *)
Definition schema_builder (columns : pydict ColumnDefinition)
    (name : option string) : result Schema :=
  _schema_builder (default "custom_schema(...)" name) []
    (prod_map id FColumn <$> columns).

(** The bodies of [SchemaMetaclass.as_dict], [keys] and
    [column_names]. *)
Definition as_dict (self : Schema) : pydict (option DType) :=
  prod_map id dtype <$> __columns__ self.

Definition schema_keys (self : Schema) : list string :=
  PyDict.keys (as_dict self).

Definition column_names (self : Schema) : list string :=
  PyDict.keys (as_dict self).

(** A method call [schema.method()] on a schema class.  The attribute is
    looked up on the class and its bases before the metaclass: a class
    attribute called [method] is what [schema.method] returns, and the
    method of [SchemaMetaclass] is found only when no class attribute has
    that name.  The classes modelled here derive from [Schema] directly,
    as [_schema_builder] makes them, and [Schema] and [object] bind no
    name of a method of the metaclass, so the class attributes that count
    are those of [_cls_fields].  A class attribute of a schema is a
    column definition (anything else made the construction raise), and
    calling one raises [TypeError]. *)
Definition call_method {A} (self : Schema) (method : string)
    (body : result A) : result A :=
  match PyDict.get (_cls_fields self) method with
  | Some (FColumn _) =>
      Raise (TypeError "'ColumnDefinition' object is not callable")
  | Some (FOther type_name) =>
      Raise (TypeError ("'" +:+ type_name +:+ "' object is not callable"))
  | None => body
  end.

(** [self.as_dict()] *)
Definition call_as_dict (self : Schema) : result (pydict (option DType)) :=
  call_method self "as_dict" (Ok (as_dict self)).

(** [schema.keys()], whose body is [self.as_dict().keys()]. *)
Definition call_keys (self : Schema) : result (list string) :=
  call_method self "keys" (d ←! call_as_dict self; Ok (PyDict.keys d)).

(** [schema[name]]: special methods are looked up on the metaclass only,
    so this is [SchemaMetaclass.__getitem__], [self.as_dict()[name]]. *)
Definition schema_getitem (self : Schema) (name : string)
  : result (option DType) :=
  d ←! call_as_dict self;
  match PyDict.get d name with
  | Some x => Ok x
  | None => Raise (KeyError name)
  end.

(** [SchemaMetaclass.primary_key_columns] *)
Definition primary_key_columns (self : Schema) : option (list string) :=
  let pkey_fields :=
    (filter (λ nc, primary_key nc.2 = true) (__columns__ self)).*1 in
  match pkey_fields with
  | [] => None
  | _ :: _ => Some pkey_fields
  end.

(** [schema_add(schemas...)] *)
Definition sum_list_with_len {A} (ls : list (list A)) : nat :=
  foldr (λ l n, length l + n) 0 ls.

Definition schema_add (schemas : list Schema) : result Schema :=
  let annots_list := get_type_hints <$> schemas in
  let annotations := dict_of_ChainMap annots_list in
  if negb (bool_decide (length annotations = sum_list_with_len annots_list))
  then Raise AssertionError
  else
    let fields_list := _cls_fields <$> schemas in
    let fields := dict_of_ChainMap fields_list in
    if negb (bool_decide (length fields = sum_list_with_len fields_list))
    then Raise AssertionError
    else
      _schema_builder (String.concat "_" (__name__ <$> schemas))
        annotations fields.

(** [KeysView.__eq__]: two key views are equal when they hold the same
    keys, in any order. *)
Definition keys_eq (l r : list string) : bool :=
  bool_decide (length l = length r) && forallb (λ k, bool_decide (k ∈ r)) l.

(** [is_subschema(left, right)].  [dtype_issubclass] is the function of
    that name of [dtype.py], which is not among the sources. *)
Fixpoint is_subschema_loop (dtype_issubclass : DType → DType → bool)
    (left right : Schema) (ks : list string) : result bool :=
  match ks with
  | [] => Ok true
  | k :: ks' =>
      l ←! schema_getitem left k;
      r ←! schema_getitem right k;
      (* a column of a built schema always has a dtype *)
      if negb (dtype_issubclass (default Any l) (default Any r))
      then Ok false
      else is_subschema_loop dtype_issubclass left right ks'
  end.

Definition is_subschema (dtype_issubclass : DType → DType → bool)
    (left right : Schema) : result bool :=
  left_keys ←! call_keys left;
  right_keys ←! call_keys right;
  if negb (keys_eq left_keys right_keys)
  then Ok false
  else
    ks ←! call_keys left;
    is_subschema_loop dtype_issubclass left right ks.

(** ** [trace.py] *)

(** The newline character of the f-strings. *)
Definition nl : string := String "010"%char "".

(** [pattern in s] on strings: [pattern] occurs as a substring of [s]. *)
Fixpoint str_contains (pattern s : string) : bool :=
  String.prefix pattern s ||
  match s with
  | EmptyString => false
  | String _ s' => str_contains pattern s'
  end.

(** [str(x)] for an [Optional[int]] and an [Optional[str]]. *)
Definition str_of_opt_int (x : option Z) : string :=
  match x with
  | Some z => pretty z
  | None => "None"
  end.

Definition str_of_opt_str (x : option string) : string := default "None" x.

(** [@dataclass class Frame] *)
Record Frame : Type := mkFrame {
  filename : string;
  line_number : option Z;
  line : option string;
  function : string;
}.

#[global] Instance Frame_eq_dec : EqDecision Frame.
Proof. solve_decision. Defined.

Definition exclude_patterns : list string :=
  [ "pathway/tests"; "pathway/internals"; "pathway/io"; "pathway/stdlib";
    "pathway/debug"; "@beartype" ].

(** [Frame.is_external] *)
Definition is_external (self : Frame) : bool :=
  if str_contains "pathway/tests/test_" (filename self) then true
  else forallb (λ pattern, negb (str_contains pattern (filename self)))
               exclude_patterns.

(** [Frame.is_marker] *)
Definition is_marker (self : Frame) : bool :=
  bool_decide (function self = "_pathway_trace_marker").

(** [@dataclass class Trace] *)
Record Trace : Type := mkTrace {
  frames : list Frame;
  user_frame : option Frame;
}.

(** The [for frame in frames] loop of [Trace.from_traceback], with its
    [break] at the first marker; [user_frame] is the loop variable of the
    same name. *)
Fixpoint scan_frames (frames : list Frame) (user_frame : option Frame)
  : option Frame :=
  match frames with
  | [] => user_frame
  | frame :: rest =>
      if is_marker frame then user_frame
      else if is_external frame then scan_frames rest (Some frame)
      else scan_frames rest user_frame
  end.

(** [Trace.from_traceback()].  [stack] is [traceback.extract_stack()]
    called inside it, oldest call first; [[:-1]] drops the entry of
    [from_traceback] itself. *)
Definition from_traceback (stack : list Frame) : Trace :=
  let frames := removelast stack in
  {| frames := frames; user_frame := scan_frames frames None |}.

(** [_format_frame] (the continuation lines of the triple-quoted f-string
    are indented by four spaces). *)
Definition _format_frame (frame : Frame) : string :=
  "Occurred here:" +:+ nl +:+
  "    Line: " +:+ str_of_opt_str (line frame) +:+ nl +:+
  "    File: " +:+ filename frame +:+ ":" +:+
  str_of_opt_int (line_number frame).

(** Exception classes and exception objects.  A class is either an
    ordinary one, given by its [__name__], [__qualname__], [__module__]
    and base, or the class [Wrapper] that [_reraise_with_user_frame]
    creates, whose body names its base [error_type] and sets
    [__pathway_wrapped__ = e].  The model follows one base per class.
    [new_takes_message] is [None] when the class has no [__new__] of its
    own; otherwise it tells whether the [__new__] the class defines, or
    takes from a base that is not on the chain, accepts a call with one
    positional argument (the one of the built-in exception groups does
    not).  An exception object carries its class, [str(e)], [e.__cause__]
    and [e.__traceback__] (a chain of entries, [None] being the empty
    chain). *)
#[warnings="-register-all"]
Inductive PyClass : Type :=
  | Class (cls_name cls_qualname cls_module : string) (base : option PyClass)
          (new_takes_message : option bool)
  | Wrapper (error_type : PyClass) (wrapped : PyExc)
with PyExc : Type :=
  | Exc (cls : PyClass) (str : string) (cause : option PyExc)
        (tb : list Frame).

Definition type_of (e : PyExc) : PyClass := let (c, _, _, _) := e in c.
Definition str_of (e : PyExc) : string := let (_, s, _, _) := e in s.
Definition __cause__ (e : PyExc) : option PyExc := let (_, _, c, _) := e in c.
Definition __traceback__ (e : PyExc) : list Frame :=
  let (_, _, _, t) := e in t.

(** [cls.__name__]: the name the class statement gives the class.  The
    assignment [__name__ = error_type.__name__] in the body of [Wrapper]
    only adds an entry to the class namespace; [type.__name__] is a
    descriptor of the metaclass and keeps returning the name of the class
    statement. *)
Definition class_name (c : PyClass) : string :=
  match c with
  | Class n _ _ _ _ => n
  | Wrapper _ _ => "Wrapper"
  end.

(** [cls.__qualname__] and [cls.__module__]: both are taken from the
    class namespace when it has them, and the body of [Wrapper] copies
    them from [error_type]. *)
Fixpoint class_qualname (c : PyClass) : string :=
  match c with
  | Class _ q _ _ _ => q
  | Wrapper error_type _ => class_qualname error_type
  end.

Fixpoint class_module (c : PyClass) : string :=
  match c with
  | Class _ _ m _ _ => m
  | Wrapper error_type _ => class_module error_type
  end.

(** The direct base class. *)
Definition class_base (c : PyClass) : option PyClass :=
  match c with
  | Class _ _ _ b _ => b
  | Wrapper error_type _ => Some error_type
  end.

(** [hasattr(e, "__pathway_wrapped__")]: the attribute is found on the
    class of [e] or on one of its bases. *)
Fixpoint class_has_pathway_wrapped (c : PyClass) : bool :=
  match c with
  | Class _ _ _ None _ => false
  | Class _ _ _ (Some b) _ => class_has_pathway_wrapped b
  | Wrapper _ _ => true
  end.

Definition has_pathway_wrapped (e : PyExc) : bool :=
  class_has_pathway_wrapped (type_of e).

(** Whether the call [cls(message)] gets past [__new__].  The first
    [__new__] found on the class and its bases is the one called;
    [BaseException.__new__], found when none of them defines one, accepts
    any arguments.  [Wrapper] defines [__init__] only. *)
Fixpoint new_accepts_message (c : PyClass) : bool :=
  match c with
  | Class _ _ _ _ (Some accepts) => accepts
  | Class _ _ _ (Some b) None => new_accepts_message b
  | Class _ _ _ None None => true
  | Wrapper error_type _ => new_accepts_message error_type
  end.

(** The built-in [BaseException], [Exception] and [TypeError]. *)
Definition BaseException_class : PyClass :=
  Class "BaseException" "BaseException" "builtins" None None.
Definition Exception_class : PyClass :=
  Class "Exception" "Exception" "builtins" (Some BaseException_class) None.
Definition TypeError_class : PyClass :=
  Class "TypeError" "TypeError" "builtins" (Some Exception_class) None.

(** The [TypeError] of a call [cls(message)] that [__new__] declines.
    Its text is the interpreter's and spells out the signature of
    [__new__]; it is kept up to the name of the method.  The error has no
    cause, and the traceback the interpreter gives it is left empty. *)
Definition new_TypeError : PyExc :=
  Exc TypeError_class "__new__()" None [].

(** [_reraise_with_user_frame(e, trace)].  The function never returns:
    the result is the exception object that leaves it.  [stack] is the
    call stack [Trace.from_traceback()] would read when [trace is None].
    The last statement calls [Wrapper(message)], which runs the
    [__new__] that [Wrapper] inherits from [error_type] and then
    [Wrapper.__init__]. *)
Definition _reraise_with_user_frame (stack : list Frame) (e : PyExc)
    (trace : option Trace) : PyExc :=
  if has_pathway_wrapped e then e
  else
    let trace := match trace with
                 | None => from_traceback stack
                 | Some t => t
                 end in
    match user_frame trace with
    | None => e
    | Some user_frame =>
        let error_type := type_of e in
        let message := str_of e +:+ nl +:+ _format_frame user_frame in
        let traceback := tail (__traceback__ e) in
        if new_accepts_message (Wrapper error_type e)
        then Exc (Wrapper error_type e) message (__cause__ e) traceback
        else new_TypeError
    end.

(** [issubclass(c, d)] and [isinstance(e, d)] *)
Fixpoint PyClass_eqb (c d : PyClass) : bool :=
  match c, d with
  | Class n q m b w, Class n' q' m' b' w' =>
      bool_decide (n = n') && bool_decide (q = q') && bool_decide (m = m') &&
      match b, b' with
      | None, None => true
      | Some x, Some y => PyClass_eqb x y
      | _, _ => false
      end && bool_decide (w = w')
  | Wrapper t e, Wrapper t' e' => PyClass_eqb t t' && PyExc_eqb e e'
  | _, _ => false
  end
with PyExc_eqb (e f : PyExc) : bool :=
  match e, f with
  | Exc c s k t, Exc c' s' k' t' =>
      PyClass_eqb c c' && bool_decide (s = s') &&
      match k, k' with
      | None, None => true
      | Some x, Some y => PyExc_eqb x y
      | _, _ => false
      end && bool_decide (t = t')
  end.

Fixpoint issubclass (c d : PyClass) : bool :=
  PyClass_eqb c d ||
  match c with
  | Class _ _ _ None _ => false
  | Class _ _ _ (Some b) _ => issubclass b d
  | Wrapper error_type _ => issubclass error_type d
  end.

Definition isinstance (e : PyExc) (d : PyClass) : bool :=
  issubclass (type_of e) d.

(** [trace_user_frame(func)]: the wrapper [_pathway_trace_marker] runs
    [func] and hands what [except Exception] catches to
    [_reraise_with_user_frame]; anything else propagates. *)
Definition trace_user_frame {A} (stack : list Frame) (func : PyExc + A)
  : PyExc + A :=
  match func with
  | inr v => inr v
  | inl e =>
      if isinstance e Exception_class
      then inl (_reraise_with_user_frame stack e None)
      else inl e
  end.

(** [custom_trace(trace)]: the same around the body of a [with] block,
    with a trace captured earlier. *)
Definition custom_trace {A} (stack : list Frame) (trace : Trace)
    (body : PyExc + A) : PyExc + A :=
  match body with
  | inr v => inr v
  | inl e =>
      if isinstance e Exception_class
      then inl (_reraise_with_user_frame stack e (Some trace))
      else inl e
  end.

(** ** [row_transformer.py]: declaring a [ClassArg] *)

(** The keyword parameters an attribute is created with ([self.params]);
    the code below reads [dtype] and [output_name]. *)
Record AttrParams : Type := mkAttrParams {
  param_dtype : option DType;
  param_output_name : option string;
}.

(** The user function of a computed attribute; the code below reads
    [inspect.signature(func).return_annotation] only. *)
Record PyFunc : Type := mkPyFunc {
  return_annotation : DType;
}.

(** The concrete subclasses of [AbstractAttribute].  [attr_name] is
    [self.name] as [__set_name__] stored it when the class body was
    evaluated. *)
Inductive AbstractAttribute : Type :=
  | InputAttribute (attr_name : string) (params : AttrParams)
  | InputMethod (attr_name : string) (params : AttrParams)
  | Attribute (attr_name : string) (func : PyFunc) (params : AttrParams)
  | OutputAttribute (attr_name : string) (func : PyFunc)
                    (params : AttrParams)
  | Method (attr_name : string) (func : PyFunc) (params : AttrParams).

Definition attr_name_of (a : AbstractAttribute) : string :=
  match a with
  | InputAttribute n _ | InputMethod n _ | Attribute n _ _
  | OutputAttribute n _ _ | Method n _ _ => n
  end.

Definition attr_params (a : AbstractAttribute) : AttrParams :=
  match a with
  | InputAttribute _ p | InputMethod _ p | Attribute _ _ p
  | OutputAttribute _ _ p | Method _ _ p => p
  end.

(** [isinstance(attr, AbstractOutputAttribute)] *)
Definition is_AbstractOutputAttribute (a : AbstractAttribute) : bool :=
  match a with
  | OutputAttribute _ _ _ | Method _ _ _ => true
  | _ => false
  end.

(** [ToBeComputedAttribute.output_name] *)
Definition output_name (a : AbstractAttribute) : string :=
  default (attr_name_of a) (param_output_name (attr_params a)).

(** [ToBeComputedAttribute.dtype], overridden by [Method.dtype];
    [AbstractAttribute.dtype] for the input attributes. *)
Definition to_be_computed_dtype (func : PyFunc) (params : AttrParams)
  : DType :=
  match param_dtype params with
  | Some d => d
  | None => return_annotation func
  end.

Definition attr_dtype (a : AbstractAttribute) : DType :=
  match a with
  | InputAttribute _ _ | InputMethod _ _ => Any
  | Attribute _ func params | OutputAttribute _ func params =>
      to_be_computed_dtype func params
  | Method _ func params => Callable_ (to_be_computed_dtype func params)
  end.

(** [attrs_of_type(cls, AbstractAttribute)].  [members] are the entries
    [(name, getattr(cls, name))] of [dir(cls)] that are attributes, in
    the order of [dir]; every [getattr] of the loop is taken to return. *)
Fixpoint attrs_of_type (members : list (string * AbstractAttribute))
  : result (list AbstractAttribute) :=
  match members with
  | [] => Ok []
  | (name, attr) :: rest =>
      if negb (bool_decide (name = attr_name_of attr))
      then Raise AssertionError
      else attrs ←! attrs_of_type rest; Ok (attr :: attrs)
  end.

(** A declared [ClassArg] subclass. *)
Record ClassArgMeta : Type := mkClassArg {
  _attributes : pydict AbstractAttribute;
  input_schema : option Schema;
  output_schema : Schema;
}.

(** [ClassArgMeta._output_attributes] *)
Definition _output_attributes (attributes : pydict AbstractAttribute)
  : pydict AbstractAttribute :=
  filter (λ na, is_AbstractOutputAttribute na.2 = true) attributes.

(** The dict [{attr.name: attr for attr in attrs}] and the keyword
    arguments [{attr.output_name: attr.dtype for attr in
    cls._output_attributes.values()}]. *)
Definition attributes_dict (attrs : list AbstractAttribute)
  : pydict AbstractAttribute :=
  PyDict.of_items ((λ attr, (attr_name_of attr, attr)) <$> attrs).

Definition output_schema_kwargs (attributes : pydict AbstractAttribute)
  : pydict DType :=
  PyDict.of_items
    ((λ attr, (output_name attr, attr_dtype attr)) <$>
     PyDict.values (_output_attributes attributes)).

(** A call of [schema_from_types] with the keywords unpacked from a
    dict, as [__init_subclass__] makes it.  A keyword [_name] is bound to
    the first parameter of [schema_from_types] and is no column.  Its
    value here is a dtype, the parameter is declared [Optional[str]], and
    the decorator [runtime_type_check] rejects the call with a
    [TypeError] (the repository's test of the decorator expects that
    class; the text is abbreviated). *)
Definition schema_from_types_kwargs (kwargs : pydict DType)
  : result Schema :=
  if PyDict.contains kwargs "_name"
  then Raise (TypeError
         "parameter _name violates type hint typing.Optional[str]")
  else schema_from_types None kwargs.

(** [ClassArg.__init_subclass__(cls, input=Any, output=Any)]; [None]
    stands for the default [Any] of [input] and [output].  The text of the
    [RuntimeError] is cut after its fixed prefix; the f-string that builds
    it calls [output.as_dict()] and [cls.output_schema.as_dict()]. *)
Definition __init_subclass__ (dtype_issubclass : DType → DType → bool)
    (members : list (string * AbstractAttribute))
    (input output : option Schema) : result ClassArgMeta :=
  attrs ←! attrs_of_type members;
  let _attributes := attributes_dict attrs in
  out ←! schema_from_types_kwargs (output_schema_kwargs _attributes);
  match output with
  | None =>
      Ok {| _attributes := _attributes; input_schema := input;
            output_schema := out |}
  | Some expected =>
      sub ←! is_subschema dtype_issubclass out expected;
      if negb sub
      then received ←! call_as_dict expected;
           derived ←! call_as_dict out;
           Raise (RuntimeError "output schema validation error")
      else Ok {| _attributes := _attributes; input_schema := input;
                 output_schema := out |}
  end.

(** ** Tables and column references *)

(** The identity of a table object: a concrete [Table], or one of the
    placeholder classes [this], [left], [right] (the instances of
    [ThisMetaclass]). *)
Module thisclass.
Inductive TableRef : Type :=
  | Table (id : nat)
  | this
  | left
  | right.

#[global] Instance TableRef_eq_dec : EqDecision TableRef.
Proof. solve_decision. Defined.

(** [isinstance(table, ThisMetaclass)] *)
Definition is_ThisMetaclass (t : TableRef) : bool :=
  match t with
  | Table _ => false
  | _ => true
  end.
End thisclass.
Export thisclass(TableRef, TableRef_eq_dec).

(** [expression.ColumnReference]: the fields behind [.table] / [._table]
    and [.name] / [._name]. *)
Record ColumnReference : Type := mkColumnReference {
  _table : TableRef;
  _name : string;
}.

#[global] Instance ColumnReference_eq_dec : EqDecision ColumnReference.
Proof. solve_decision. Defined.

(** ** [table_slice.py] *)

(** Dicts and slices are mutable objects: they live in a heap and are
    passed by reference.  A reference is an index into the heap and a new
    object is allocated at its end. *)
Abbreviation loc := nat.

Inductive Obj : Type :=
  | ODict (d : pydict ColumnReference)
  | OSlice (_mapping : loc) (_table : TableRef).

Abbreviation heap := (list Obj).

(** Computations that read and write the heap and may raise. *)
Definition M (A : Type) : Type := heap → result A * heap.

#[global] Instance M_ret : MRet M := λ A a h, (Ok a, h).
#[global] Instance M_bind : MBind M := λ A B f m h,
  match m h with
  | (Ok a, h') => f a h'
  | (Raise e, h') => (Raise e, h')
  end.

Definition raise {A} (e : Error) : M A := λ h, (Raise e, h).

Definition lift {A} (r : result A) : M A := λ h, (r, h).

Definition alloc (o : Obj) : M loc := λ h, (Ok (length h), h ++ [o]).

(** Dereferencing; a reference handed out by [alloc] is never dangling,
    the [Raise] branches are there for totality only. *)
Definition read_dict (l : loc) : M (pydict ColumnReference) := λ h,
  match h !! l with
  | Some (ODict d) => (Ok d, h)
  | _ => (Raise (TypeError "not a dict"), h)
  end.

Definition read_slice (l : loc) : M (loc * TableRef) := λ h,
  match h !! l with
  | Some (OSlice m t) => (Ok (m, t), h)
  | _ => (Raise (TypeError "not a TableSlice"), h)
  end.

Definition write_dict (l : loc) (d : pydict ColumnReference) : M unit :=
  λ h, (Ok (), <[l := ODict d]> h).

(** [d.copy()] *)
Definition dict_copy (l : loc) : M loc :=
  d ← read_dict l; alloc (ODict d).

(** [TableSlice(mapping, table)] *)
Definition TableSlice (mapping : loc) (table : TableRef) : M loc :=
  alloc (OSlice mapping table).

(** An argument of the slice methods: [Union[str, ColumnReference]]. *)
Inductive Arg : Type :=
  | ArgStr (s : string)
  | ArgRef (c : ColumnReference).

(** [TableSlice._normalize] *)
Definition _normalize (self_table : TableRef) (arg : Arg) : result string :=
  match arg with
  | ArgRef c =>
      if thisclass.is_ThisMetaclass (_table c) then
        if bool_decide (_table c ≠ thisclass.this)
        then Raise (ValueError
          ("TableSlice expects '" +:+ _name c +:+ "' or this." +:+ _name c
           +:+ " argument as column reference."))
        else Ok (_name c)
      else
        if bool_decide (_table c ≠ self_table)
        then Raise (ValueError
          "TableSlice method arguments should refer to table of which the slice was created.")
        else Ok (_name c)
  | ArgStr s => Ok s
  end.

(** The messages of [KeyError] and [AttributeError] end with the [repr]
    of the slice; the embedding keeps them up to the column name. *)
Definition not_found (colname : string) : string :=
  "Column name '" +:+ colname +:+ "' not found".

(** [TableSlice.without(cols...)]: the loop over [cols], acting on the
    copy [mapping]. *)
Fixpoint without_loop (self_table : TableRef) (mapping : loc)
    (cols : list Arg) : M unit :=
  match cols with
  | [] => mret ()
  | col :: rest =>
      colname ← lift (_normalize self_table col);
      d ← read_dict mapping;
      if negb (PyDict.contains d colname)
      then raise (KeyError (not_found colname))
      else write_dict mapping (PyDict.pop d colname);;
           without_loop self_table mapping rest
  end.

Definition without (self : loc) (cols : list Arg) : M loc :=
  mt ← read_slice self;
  mapping ← dict_copy mt.1;
  without_loop mt.2 mapping cols;;
  TableSlice mapping mt.2.

(** [TableSlice.rename(rename_dict)].  [rename_dict] is given by its
    items; the comprehension evaluates key then value for each item and
    builds a dict. *)
Fixpoint normalize_items (self_table : TableRef) (items : list (Arg * Arg))
  : result (list (string * string)) :=
  match items with
  | [] => Ok []
  | (old, new) :: rest =>
      o ←! _normalize self_table old;
      n ←! _normalize self_table new;
      r ←! normalize_items self_table rest;
      Ok ((o, n) :: r)
  end.

Fixpoint rename_pop_loop (mapping : loc) (olds : list string) : M unit :=
  match olds with
  | [] => mret ()
  | old :: rest =>
      d ← read_dict mapping;
      if negb (PyDict.contains d old)
      then raise (KeyError (not_found old))
      else write_dict mapping (PyDict.pop d old);;
           rename_pop_loop mapping rest
  end.

Fixpoint rename_set_loop (self_mapping mapping : loc)
    (items : list (string * string)) : M unit :=
  match items with
  | [] => mret ()
  | (old, new) :: rest =>
      sd ← read_dict self_mapping;
      match PyDict.get sd old with
      | None => raise (KeyError old)
      | Some c =>
          d ← read_dict mapping;
          write_dict mapping (PyDict.set d new c);;
          rename_set_loop self_mapping mapping rest
      end
  end.

Definition rename (self : loc) (rename_dict : list (Arg * Arg)) : M loc :=
  mt ← read_slice self;
  items ← lift (normalize_items mt.2 rename_dict);
  let rename_dict_normalized := PyDict.of_items items in
  mapping ← dict_copy mt.1;
  rename_pop_loop mapping (PyDict.keys rename_dict_normalized);;
  rename_set_loop mt.1 mapping rename_dict_normalized;;
  TableSlice mapping mt.2.

(** [TableSlice.keys] *)
Definition slice_keys (self : loc) : M (list string) :=
  mt ← read_slice self;
  d ← read_dict mt.1;
  mret (PyDict.keys d).

(** [TableSlice.with_prefix], [TableSlice.with_suffix] *)
Definition with_prefix (self : loc) (prefix : string) : M loc :=
  ks ← slice_keys self;
  rename self ((λ name, (ArgStr name, ArgStr (prefix +:+ name))) <$> ks).

Definition with_suffix (self : loc) (suffix : string) : M loc :=
  ks ← slice_keys self;
  rename self ((λ name, (ArgStr name, ArgStr (name +:+ suffix))) <$> ks).

(** [TableSlice.__getattr__(name)].  The class [Table] is not among the
    sources: [hasattr_Table name] stands for [hasattr(Table, name)]. *)
Definition __getattr__ (hasattr_Table : string → bool) (self : loc)
    (name : string) : M ColumnReference :=
  if hasattr_Table name && bool_decide (name ≠ "id")
  then raise (ValueError
    ("'" +:+ name +:+ "' is a method name. It is discouraged to use it as a column"
     +:+ " name. If you really want to use it, use ['" +:+ name +:+ "']."))
  else
    mt ← read_slice self;
    d ← read_dict mt.1;
    if negb (PyDict.contains d name)
    then raise (AttributeError (not_found name))
    else match PyDict.get d name with
         | Some c => mret c
         | None => raise (KeyError name)
         end.

(** The names [TableSlice] binds itself: the two instance fields set by
    [__init__] and the members of the class body. *)
Definition TableSlice_fields : list string := [ "_mapping"; "_table" ].

Definition TableSlice_members : list string :=
  [ "__init__"; "__iter__"; "__repr__"; "keys"; "__getitem__";
    "__getattr__"; "without"; "rename"; "with_prefix"; "with_suffix";
    "slice"; "_normalize" ].

(** What [slice.name] evaluates to. *)
Inductive AttrValue : Type :=
  | OwnAttribute (name : string)
  | Column (c : ColumnReference).

(** Attribute access [slice.name].  Python calls [__getattr__] only
    after the regular lookup has failed: a field of the instance or a
    member of the class is returned without it.  [inherited name] tells
    whether [object] provides [name]. *)
Definition getattr (hasattr_Table inherited : string → bool) (self : loc)
    (name : string) : M AttrValue :=
  if bool_decide (name ∈ TableSlice_fields ++ TableSlice_members)
     || inherited name
  then mret (OwnAttribute name)
  else c ← __getattr__ hasattr_Table self name; mret (Column c).

(** ** [expression_printer.py] *)

(** An operator function: its optional [_symbol] attribute and its
    [__name__]. *)
Record Operator : Type := mkOperator {
  _symbol : option string;
  op_name : string;
}.

(** [getattr(expression._operator, "_symbol", expression._operator.__name__)] *)
Definition operator_symbol (op : Operator) : string :=
  default (op_name op) (_symbol op).

(** A [_return_type]: a string or a type with a [__name__]. *)
Inductive ReturnType : Type :=
  | RtStr (s : string)
  | RtType (type_name : string).

(** The expression nodes the formatter visits, each with the fields its
    [eval_...] method reads.  [MethodCallExpression] keeps [_args[0]]
    apart from [_args[1:]]. *)
#[warnings="-register-all"]
Inductive ColumnExpression : Type :=
  | ColumnReferenceExpr (c : ColumnReference)
  | ColumnUnaryOpExpression (_operator : Operator) (_expr : ColumnExpression)
  | ColumnBinaryOpExpression (_operator : Operator)
      (_left _right : ColumnExpression)
  | ColumnConstExpression (_val : PyValue)
  | ReducerExpression (_reducer : string) (_args : list ColumnExpression)
  | ReducerIxExpression (_reducer : string) (_args : list ColumnExpression)
  | ApplyExpression (_fun : string) (_args : list ColumnExpression)
      (_kwargs : list (string * ColumnExpression))
  | AsyncApplyExpression (_fun : string) (_args : list ColumnExpression)
      (_kwargs : list (string * ColumnExpression))
  | NumbaApplyExpression (_fun : string) (_args : list ColumnExpression)
      (_kwargs : list (string * ColumnExpression))
  | PointerExpression (_table : TableRef) (_args : list ColumnExpression)
      (_optional : bool)
  | ColumnIxExpression (_column_expression : ColumnReference)
      (_keys_expression : ColumnExpression) (_optional : bool)
  | ColumnCallExpression (_col_expr : ColumnExpression)
      (_args : list ColumnExpression)
  | CastExpression (_return_type : ReturnType) (_expr : ColumnExpression)
  | DeclareTypeExpression (_return_type : ReturnType)
      (_expr : ColumnExpression)
  | CoalesceExpression (_args : list ColumnExpression)
  | RequireExpression (_val : ColumnExpression)
      (_args : list ColumnExpression)
  | IfElseExpression (_if _then _else : ColumnExpression)
  | MethodCallExpression (_name : string) (_args_0 : ColumnExpression)
      (_args_1 : list ColumnExpression)
  | MakeTupleExpression (_args : list ColumnExpression)
  | SequenceGetExpression (_object _index _default : ColumnExpression)
      (_check_if_exists : bool).

(** [repr] of a constant (for a string: one without quotes or escapes). *)
Definition py_repr (v : PyValue) : string :=
  match v with
  | PyNone => "None"
  | PyBool true => "True"
  | PyBool false => "False"
  | PyInt z => pretty z
  | PyStr s => "'" +:+ s +:+ "'"
  | PyUndefined => "undefined"
  | PyObject _ repr _ => repr
  end.

(** [_type_name] *)
Definition _type_name (return_type : ReturnType) : string :=
  match return_type with
  | RtStr s => py_repr (PyStr s)
  | RtType n => n
  end.

(** [s.lstrip("_")] *)
Fixpoint lstrip_underscore (s : string) : string :=
  match s with
  | String c s' => if decide (c = "_"%char) then lstrip_underscore s' else s
  | EmptyString => s
  end.

(** [", ".join(parts)] *)
Definition join_comma (parts : list string) : string :=
  String.concat ", " parts.

(** The state of an [ExpressionFormatter]: the next value of
    [itertools.count(start=1)] and the [defaultdict] of table numbers. *)
Record ExpressionFormatter : Type := mkFormatter {
  table_counter : nat;
  table_numbers : list (TableRef * nat);
}.

(** [ExpressionFormatter()] *)
Definition ExpressionFormatter_init : ExpressionFormatter :=
  {| table_counter := 1; table_numbers := [] |}.

Fixpoint numbers_get (d : list (TableRef * nat)) (t : TableRef)
  : option nat :=
  match d with
  | [] => None
  | (t', n) :: d' => if decide (t' = t) then Some n else numbers_get d' t
  end.

(** Methods of the formatter read and update its state. *)
Definition F (A : Type) : Type :=
  ExpressionFormatter → A * ExpressionFormatter.

#[global] Instance F_ret : MRet F := λ A a self, (a, self).
#[global] Instance F_bind : MBind F := λ A B f m self,
  let '(a, self') := m self in f a self'.

(** [self.table_numbers[table]]: a missing key is given
    [next(self.table_counter)] and stored. *)
Definition table_number (table : TableRef) : F nat := λ self,
  match numbers_get (table_numbers self) table with
  | Some n => (n, self)
  | None =>
      let n := table_counter self in
      (n, {| table_counter := S n;
             table_numbers := table_numbers self ++ [(table, n)] |})
  end.

Definition table_label (n : nat) : string := "<table" +:+ pretty n +:+ ">".

(** [eval_const] *)
Definition eval_const (_val : PyValue) : F string := mret (py_repr _val).

(** [eval_expression] with the [eval_...] methods it dispatches to, and
    [_eval_args_kwargs].  The class [ExpressionVisitor] is not among the
    sources; [eval_expression] calls the method named after the class of
    the node.  Evaluation order is that of the source: children left to
    right, and in [eval_pointer], [eval_ix] and [eval_call] the arguments
    before the table, respectively the callee, of the node itself. *)
Fixpoint eval_expression (expression : ColumnExpression)
    {struct expression} : F string :=
  let eval_args :=
    fix eval_args (args : list ColumnExpression) : F (list string) :=
      match args with
      | [] => mret []
      | arg :: rest =>
          s ← eval_expression arg;
          ss ← eval_args rest;
          mret (s :: ss)
      end in
  let eval_kwargs :=
    fix eval_kwargs (kwargs : list (string * ColumnExpression))
      : F (list string) :=
      match kwargs with
      | [] => mret []
      | (key, value) :: rest =>
          s ← eval_expression value;
          ss ← eval_kwargs rest;
          mret ((key +:+ "=" +:+ s) :: ss)
      end in
  let _eval_args_kwargs args kwargs : F string :=
    a ← eval_args args;
    k ← eval_kwargs kwargs;
    mret (join_comma (a ++ k)) in
  match expression with
  | ColumnReferenceExpr c =>
      n ← table_number (_table c);
      mret (table_label n +:+ "." +:+ _name c)
  | ColumnUnaryOpExpression op e =>
      let symbol := operator_symbol op in
      uexpr ← eval_expression e;
      mret ("(" +:+ symbol +:+ uexpr +:+ ")")
  | ColumnBinaryOpExpression op l r =>
      let symbol := operator_symbol op in
      lexpr ← eval_expression l;
      rexpr ← eval_expression r;
      mret ("(" +:+ lexpr +:+ " " +:+ symbol +:+ " " +:+ rexpr +:+ ")")
  | ColumnConstExpression v => eval_const v
  | ReducerExpression reducer args
  | ReducerIxExpression reducer args =>
      args ← _eval_args_kwargs args [];
      mret ("pathway.reducers." +:+ lstrip_underscore reducer +:+
            "(" +:+ args +:+ ")")
  | ApplyExpression f args kwargs =>
      args ← _eval_args_kwargs args kwargs;
      mret ("pathway.apply(" +:+ f +:+ ", " +:+ args +:+ ")")
  | AsyncApplyExpression f args kwargs =>
      args ← _eval_args_kwargs args kwargs;
      mret ("pathway.apply_async(" +:+ f +:+ ", " +:+ args +:+ ")")
  | NumbaApplyExpression f args kwargs =>
      args ← _eval_args_kwargs args kwargs;
      mret ("pathway.numba_apply(" +:+ f +:+ ", " +:+ args +:+ ")")
  | PointerExpression table args optional =>
      (* kwargs["optional"] = ColumnConstExpression(True), rendered by
         eval_const *)
      a ← eval_args args;
      k ← (if optional
           then s ← eval_const (PyBool true); mret ["optional=" +:+ s]
           else mret []);
      let args := join_comma (a ++ k) in
      n ← table_number table;
      mret (table_label n +:+ ".pointer_from(" +:+ args +:+ ")")
  | ColumnIxExpression column keys optional =>
      key ← eval_expression keys;
      let args := if optional then [key; "optional=True"] else [key] in
      let args_joined := join_comma args in
      let name := _name column in
      n ← table_number (_table column);
      mret (table_label n +:+ ".ix(" +:+ args_joined +:+ ")." +:+ name)
  | ColumnCallExpression col args =>
      args ← _eval_args_kwargs args [];
      c ← eval_expression col;
      mret (c +:+ "(" +:+ args +:+ ")")
  | CastExpression rt e =>
      uexpr ← eval_expression e;
      mret ("pathway.cast(" +:+ _type_name rt +:+ ", " +:+ uexpr +:+ ")")
  | DeclareTypeExpression rt e =>
      uexpr ← eval_expression e;
      mret ("pathway.declare_type(" +:+ _type_name rt +:+ ", " +:+
            uexpr +:+ ")")
  | CoalesceExpression args =>
      args ← _eval_args_kwargs args [];
      mret ("pathway.coalesce(" +:+ args +:+ ")")
  | RequireExpression val args =>
      args ← _eval_args_kwargs (val :: args) [];
      mret ("pathway.require(" +:+ args +:+ ")")
  | IfElseExpression i t e =>
      args ← _eval_args_kwargs [i; t; e] [];
      mret ("pathway.if_else(" +:+ args +:+ ")")
  | MethodCallExpression name obj args =>
      object_ ← eval_expression obj;
      args ← _eval_args_kwargs args [];
      mret ("(" +:+ object_ +:+ ")." +:+ name +:+ "(" +:+ args +:+ ")")
  | MakeTupleExpression args =>
      args ← _eval_args_kwargs args [];
      mret ("pathway.make_tuple(" +:+ args +:+ ")")
  | SequenceGetExpression obj index dflt check_if_exists =>
      object ← eval_expression obj;
      if check_if_exists
      then args_formatted ← _eval_args_kwargs [index; dflt] [];
           mret ("(" +:+ object +:+ ").get(" +:+ args_formatted +:+ ")")
      else args_formatted ← _eval_args_kwargs [index] [];
           mret ("(" +:+ object +:+ ")[" +:+ args_formatted +:+ "]")
  end.

(** [ExpressionFormatter.table_infos] and [print_table_infos].
    [table_trace tab] stands for [tab._source.operator.trace].  Reading
    [frame.filename] of a missing user frame raises [AttributeError]. *)
Definition table_infos (table_trace : TableRef → Trace)
    (self : ExpressionFormatter) : list (string * option Frame) :=
  (λ tc, (table_label tc.2, user_frame (table_trace tc.1))) <$>
    table_numbers self.

Fixpoint table_info_lines (infos : list (string * option Frame))
  : result (list string) :=
  match infos with
  | [] => Ok []
  | (name, None) :: _ =>
      Raise (AttributeError "'NoneType' object has no attribute 'filename'")
  | (name, Some frame) :: rest =>
      lines ←! table_info_lines rest;
      Ok ((name +:+ " created in " +:+ filename frame +:+ ":" +:+
           str_of_opt_int (line_number frame)) :: lines)
  end.

Definition print_table_infos (table_trace : TableRef → Trace)
    (self : ExpressionFormatter) : result string :=
  lines ←! table_info_lines (table_infos table_trace self);
  Ok (String.concat nl lines).

(** [get_expression_info(expression)]; [expression_trace] is
    [expression._trace]. *)
Definition get_expression_info (table_trace : TableRef → Trace)
    (expression_trace : Trace) (expression : ColumnExpression)
  : result string :=
  let printer := ExpressionFormatter_init in
  let '(text, printer) := eval_expression expression printer in
  let expression_str := text +:+ "," +:+ nl in
  let expression_info :=
    match user_frame expression_trace with
    | Some frame =>
        "called in " +:+ filename frame +:+ ":" +:+
        str_of_opt_int (line_number frame) +:+ nl
    | None => ""
    end in
  tabnames ←! print_table_infos table_trace printer;
  let tabnames :=
    if decide (tabnames ≠ "")
    then "with tables:" +:+ nl +:+ tabnames +:+ nl
    else tabnames in
  Ok (expression_str +:+ expression_info +:+ tabnames).

(* ================================================================== *)
(** * Part II: properties                                              *)
(* ================================================================== *)

(** ** Column definitions and their default *)

(** Only the marker answers for the marker: the reflected comparison of
    [v != _no_default_value_marker] is [NotImplemented] for every other
    [v]. *)
Lemma marker_ne_reflected (v : PyValue) :
  v ≠ _no_default_value_marker → __ne__ _no_default_value_marker v = None.
Proof. by destruct v. Qed.

Lemma has_default_value_answer (pk : bool) (v : PyValue)
    (dt : option DType) (nm : option string) :
  v ≠ _no_default_value_marker →
  has_default_value (column_definition pk v dt nm) =
  default (PyBool true) (__ne__ v _no_default_value_marker).
Proof.
  intros Hv. unfold has_default_value, py_ne, column_definition.
  cbn [default_value].
  destruct (__ne__ v _no_default_value_marker) as [r|]; [done|].
  by rewrite marker_ne_reflected.
Qed.

(** An object whose class answers every [!=] with [False], as an
    always-equal object or [unittest.mock.ANY] does. *)
Definition always_equal : PyValue :=
  PyObject 0 "<ANY>" (Some (PyBool false)).

(** C8, as stated, fails: an explicitly supplied default whose class
    overrides the comparison is reported as no default at all. *)
Lemma has_default_value_overridden_comparison :
  always_equal ≠ _no_default_value_marker ∧
  has_default_value (column_definition false always_equal None None)
    = PyBool false.
Proof. split; [discriminate|reflexivity]. Qed.

(** C8, amended.  [column_definition()] called without [default_value]
    gives a column for which [has_default_value()] is [False].  For every
    supplied value [v] whose class leaves the comparison [v != marker] to
    the default ([__ne__] answers [NotImplemented]) it is [True]: that is
    the case of [None], of every [bool], [int] and [str], so of [False],
    [0] and the empty string, and of every object that does not override
    [__ne__] or [__eq__].  The absence of a default is the private marker
    object and is told apart from a default that is [None].  The marker is
    compared with [!=], not by identity: for an object whose class
    overrides the comparison, [has_default_value()] is the answer [r] of
    that class. *)
Theorem has_default_value_sentinel :
  (∀ pk dt nm,
     has_default_value
       (column_definition pk _no_default_value_marker dt nm) = PyBool false) ∧
  (∀ pk v dt nm,
     __ne__ v _no_default_value_marker = None →
     has_default_value (column_definition pk v dt nm) = PyBool true) ∧
  (∀ pk dt nm,
     has_default_value (column_definition pk PyNone dt nm) = PyBool true ∧
     (∀ b, has_default_value (column_definition pk (PyBool b) dt nm)
           = PyBool true) ∧
     (∀ z, has_default_value (column_definition pk (PyInt z) dt nm)
           = PyBool true) ∧
     (∀ s, has_default_value (column_definition pk (PyStr s) dt nm)
           = PyBool true) ∧
     (∀ id repr,
        has_default_value (column_definition pk (PyObject id repr None) dt nm)
        = PyBool true)) ∧
  (∀ pk dt nm,
     default_value (column_definition pk PyNone dt nm) ≠
     default_value (column_definition pk _no_default_value_marker dt nm)) ∧
  (∀ pk id repr r dt nm,
     has_default_value
       (column_definition pk (PyObject id repr (Some r)) dt nm) = r).
Proof.
  split; [done|]. split.
  { intros pk v dt nm Hv.
    assert (v ≠ _no_default_value_marker) as Hm by (by intros ->).
    by rewrite has_default_value_answer, Hv. }
  repeat split; done.
Qed.

Lemma has_default_value_sentinel_witness :
  has_default_value (column_definition false (PyObject 3 "<obj>" None)
                       None None) = PyBool true.
Proof.
  apply (proj1 (proj2 has_default_value_sentinel)). reflexivity.
Defined.

(** ** Primary keys *)

Definition pkey_names (sc : Schema) : list string :=
  (filter (λ nc, primary_key nc.2 = true) (__columns__ sc)).*1.

Lemma filter_nil_Forall {A} (P : A → Prop) `{∀ x, Decision (P x)}
    (l : list A) :
  Forall (λ x, ¬ P x) l → filter P l = [].
Proof.
  induction 1 as [|x l Hx _ IH]; [done|].
  rewrite filter_cons. by destruct (decide (P x)).
Qed.

(** C1.  A schema in which no column declares [primary_key=True] has
    [primary_key_columns()] equal to [None].  The empty list is never
    returned: the code has no way to configure a schema with "zero key
    columns", so [None] and the empty list cannot be confused; any list
    that is returned is the non-empty list of the key columns. *)
Theorem primary_key_columns_none_not_empty (sc : Schema) :
  (Forall (λ nc, primary_key nc.2 = false) (__columns__ sc) →
   primary_key_columns sc = None) ∧
  primary_key_columns sc ≠ Some [] ∧
  (∀ l, primary_key_columns sc = Some l → l = pkey_names sc ∧ l ≠ []) ∧
  (primary_key_columns sc = None →
   Forall (λ nc, primary_key nc.2 = false) (__columns__ sc)).
Proof.
  unfold primary_key_columns. fold (pkey_names sc).
  split; [|split; [|split]].
  - intros Hno. unfold pkey_names. rewrite filter_nil_Forall; [done|].
    eapply Forall_impl; [exact Hno|]. intros [n c] Hc. simpl in *.
    by rewrite Hc.
  - by destruct (pkey_names sc).
  - intros l. destruct (pkey_names sc) eqn:E; [done|].
    intros [= <-]. done.
  - unfold pkey_names. intros Hnone.
    apply Forall_forall. intros [n c] Hin. simpl.
    destruct (primary_key c) eqn:Hc; [|done].
    assert (Hf : (n, c) ∈ filter (λ nc, primary_key nc.2 = true)
                              (__columns__ sc))
      by (apply list_elem_of_filter; done).
    destruct (filter _ _) as [|x l']; [by apply elem_of_nil in Hf|done].
Qed.

(** [schema_from_types(foo=int, bar=str)] declares no key. *)
Definition schema_foo_bar : result Schema :=
  schema_from_types None [("foo", int_); ("bar", str_)].

(** [class S(Schema): key: int = column_definition(primary_key=True);
    data: str] *)
Definition schema_key_data : result Schema :=
  _schema_builder "S" [("key", int_); ("data", str_)]
    [("key", FColumn (column_definition true _no_default_value_marker
                        None None))].

Example primary_key_columns_key :
  (primary_key_columns <$> match schema_key_data with
                           | Ok sc => Some sc
                           | Raise _ => None
                           end) = Some (Some ["key"]).
Proof. reflexivity. Qed.

Lemma primary_key_columns_none_not_empty_witness :
  ∃ sc, schema_foo_bar = Ok sc ∧ primary_key_columns sc = None.
Proof.
  eexists. split; [reflexivity|].
  apply primary_key_columns_none_not_empty.
  repeat constructor.
Defined.

(** ** The user frame of a trace *)

(** The frames scanned before the first marker frame. *)
Fixpoint before_first_marker (frames : list Frame) : list Frame :=
  match frames with
  | [] => []
  | frame :: rest =>
      if is_marker frame then [] else frame :: before_first_marker rest
  end.

(** In the words of the specification: the last external frame seen
    before the first trace marker, if any. *)
Definition last_external_before_marker (frames : list Frame)
  : option Frame :=
  last (filter (λ f, is_external f = true) (before_first_marker frames)).

Lemma scan_frames_spec (frames : list Frame) (acc : option Frame) :
  scan_frames frames acc =
  match last_external_before_marker frames with
  | Some f => Some f
  | None => acc
  end.
Proof.
  unfold last_external_before_marker.
  revert acc. induction frames as [|frame rest IH]; intros acc; [done|].
  simpl. destruct (is_marker frame); [done|].
  rewrite filter_cons.
  destruct (decide (is_external frame = true)) as [He|He].
  - rewrite He, IH, last_cons. by destruct (last _).
  - apply not_true_is_false in He. by rewrite He, IH.
Qed.

Lemma before_first_marker_app (pre post : list Frame) :
  Forall (λ f, is_marker f = false) pre →
  before_first_marker (pre ++ post) = pre ++ before_first_marker post.
Proof.
  induction 1 as [|f pre Hf _ IH]; [done|].
  simpl. by rewrite Hf, IH.
Qed.

(** The same, by position: [f] is the user frame exactly when the frame
    list splits around [f] with no marker up to and including [f], [f]
    external, and no external frame between [f] and the first marker. *)
Lemma scan_frames_Some_iff (frames : list Frame) (f : Frame) :
  scan_frames frames None = Some f ↔
  ∃ pre post,
    frames = pre ++ f :: post ∧
    Forall (λ g, is_marker g = false) (pre ++ [f]) ∧
    is_external f = true ∧
    Forall (λ g, is_external g = false) (before_first_marker post).
Proof.
  rewrite scan_frames_spec. unfold last_external_before_marker. split.
  - revert f. induction frames as [|g rest IH]; intros f; [done|].
    simpl. destruct (is_marker g) eqn:Hm; [done|].
    rewrite filter_cons.
    destruct (last (filter (λ f, is_external f = true)
                      (before_first_marker rest))) as [f'|] eqn:Hl.
    + intros Hf.
      assert (f' = f) as ->.
      { destruct (decide (is_external g = true));
          [rewrite last_cons, Hl in Hf|rewrite Hl in Hf]; congruence. }
      destruct (IH f eq_refl) as (pre & post & -> & Hpre & Hext & Hpost).
      exists (g :: pre), post. split; [done|]. split; [|done].
      simpl. by constructor.
    + destruct (decide (is_external g = true)) as [He|He].
      * rewrite last_cons, Hl. intros [= <-].
        exists [], rest. split; [done|]. split; [by repeat constructor|].
        split; [done|].
        apply last_None in Hl.
        apply Forall_forall. intros h Hh.
        destruct (is_external h) eqn:Eh; [|done].
        assert (h ∈ filter (λ f, is_external f = true)
                          (before_first_marker rest))
          by (by apply list_elem_of_filter).
        rewrite Hl in *. by apply elem_of_nil in H.
      * by rewrite Hl.
  - intros (pre & post & -> & Hpre & Hext & Hpost).
    apply Forall_app in Hpre as [Hpre Hf].
    apply Forall_inv in Hf. simpl in Hf.
    rewrite before_first_marker_app by done. simpl. rewrite Hf.
    rewrite filter_app, filter_cons, decide_True by done.
    rewrite (filter_nil_Forall _ (before_first_marker post)).
    + by rewrite last_snoc.
    + eapply Forall_impl; [exact Hpost|]. intros g Hg. by rewrite Hg.
Qed.

(** [pattern] occurs in [s] as a substring. *)
Definition occurs (pattern s : string) : Prop :=
  ∃ pre post, s = pre +:+ pattern +:+ post.

Lemma prefix_spec (p s : string) :
  String.prefix p s = true ↔ ∃ post, s = p +:+ post.
Proof.
  revert s. induction p as [|a p IH]; intros s.
  - split; [|by destruct s]. intros _. by exists s.
  - destruct s as [|b s]; cbn [String.prefix].
    + split; [done|]. by intros [post Hpost].
    + split.
      * destruct (ascii_dec a b) as [->|]; [|done].
        intros [post ->]%IH. by exists post.
      * intros [post Hpost].
        change (String b s = String a (p +:+ post)) in Hpost.
        injection Hpost as -> ->.
        destruct (ascii_dec a a); [|done]. apply IH. by exists post.
Qed.

Lemma str_contains_spec (p s : string) :
  str_contains p s = true ↔ occurs p s.
Proof.
  unfold occurs. induction s as [|c s IH]; cbn [str_contains].
  - rewrite orb_false_r, prefix_spec. split.
    + intros [post ->]. by exists "", post.
    + intros ([|x pre] & post & Hs); [by exists post|done].
  - rewrite orb_true_iff, prefix_spec, IH. split.
    + intros [[post ->]|(pre & post & ->)].
      * by exists "", post.
      * by exists (String c pre), post.
    + intros ([|x pre] & post & Hs).
      * left. by exists post.
      * right. change (String c s = String x (pre +:+ p +:+ post)) in Hs.
        injection Hs as -> ->. by exists pre, post.
Qed.

(** [is_marker] and [is_external], spelled out. *)
Lemma is_marker_spec (f : Frame) :
  is_marker f = true ↔ function f = "_pathway_trace_marker".
Proof. apply bool_decide_eq_true. Qed.

Lemma is_external_spec (f : Frame) :
  is_external f = true ↔
  occurs "pathway/tests/test_" (filename f) ∨
  ∀ pattern,
    pattern ∈ ["pathway/tests"; "pathway/internals"; "pathway/io";
               "pathway/stdlib"; "pathway/debug"; "@beartype"] →
    ¬ occurs pattern (filename f).
Proof.
  unfold is_external.
  destruct (str_contains "pathway/tests/test_" (filename f)) eqn:Htest.
  - split; [|done]. intros _. left. by apply str_contains_spec.
  - rewrite forallb_forall. split.
    + intros Hall. right. intros pattern Hin Hocc.
      apply list_elem_of_In, Hall, negb_true_iff in Hin.
      apply str_contains_spec in Hocc. congruence.
    + intros [Hocc|Hnone].
      * apply str_contains_spec in Hocc. congruence.
      * intros pattern Hin%list_elem_of_In. apply negb_true_iff.
        destruct (str_contains pattern (filename f)) eqn:Hp; [|done].
        exfalso. by apply (Hnone pattern Hin), str_contains_spec.
Qed.

(** What the scan leaves unread: nothing, or the first marker and all
    that follows it. *)
Definition unscanned (rest : list Frame) : Prop :=
  rest = [] ∨ ∃ m rest', rest = m :: rest' ∧ is_marker m = true.

Lemma before_first_marker_split (frames : list Frame) :
  ∃ rest,
    frames = before_first_marker frames ++ rest ∧
    Forall (λ g, is_marker g = false) (before_first_marker frames) ∧
    unscanned rest.
Proof.
  induction frames as [|g frames (rest & Hsplit & Hno & Hrest)].
  - exists []. repeat split; [constructor|by left].
  - simpl. destruct (is_marker g) eqn:Hg.
    + exists (g :: frames). repeat split; [constructor|].
      right. by exists g, frames.
    + exists rest. simpl. rewrite <- Hsplit. repeat split; [|done].
      by constructor.
Qed.

Lemma before_first_marker_scanned (mid rest : list Frame) :
  Forall (λ g, is_marker g = false) mid → unscanned rest →
  before_first_marker (mid ++ rest) = mid.
Proof.
  intros Hmid Hrest. rewrite before_first_marker_app by done.
  destruct Hrest as [->|(m & rest' & -> & Hm)]; simpl.
  - by rewrite app_nil_r.
  - by rewrite Hm, app_nil_r.
Qed.

Lemma Forall_and_split {A} (P Q : A → Prop) (l : list A) :
  Forall (λ x, P x ∧ Q x) l ↔ Forall P l ∧ Forall Q l.
Proof.
  rewrite !Forall_forall. split.
  - intros H. split; intros x Hx; by apply H.
  - intros [HP HQ] x Hx. split; auto.
Qed.

Lemma scan_frames_None_iff (frames : list Frame) :
  scan_frames frames None = None ↔
  ∃ mid rest,
    frames = mid ++ rest ∧
    Forall (λ g, is_marker g = false ∧ is_external g = false) mid ∧
    unscanned rest.
Proof.
  rewrite scan_frames_spec. unfold last_external_before_marker. split.
  - intros Hl.
    assert (Hnone : last (filter (λ f, is_external f = true)
                            (before_first_marker frames)) = None)
      by (by destruct (last _)).
    apply last_None in Hnone.
    destruct (before_first_marker_split frames) as (rest & Hs & Hno & Hrest).
    exists (before_first_marker frames), rest. split; [done|].
    split; [|done]. apply Forall_and_split. split; [done|].
    apply Forall_forall. intros h Hh.
    destruct (is_external h) eqn:Eh; [|done].
    assert (h ∈ filter (λ f, is_external f = true)
                      (before_first_marker frames))
      by (by apply list_elem_of_filter).
    rewrite Hnone in *. by apply elem_of_nil in H.
  - intros (mid & rest & -> & Hmid & Hrest).
    apply Forall_and_split in Hmid as [Hm He].
    rewrite before_first_marker_scanned by done.
    rewrite (filter_nil_Forall _ mid); [done|].
    eapply Forall_impl; [exact He|]. intros g Hg. by rewrite Hg.
Qed.

(** C5.  Of a captured stack, [from_traceback] scans every frame but its
    own, oldest call first.  The user frame is the last external frame
    among the frames scanned before the first trace marker: the scanned
    frames split into frames without a marker, the user frame, frames that
    are neither markers nor external, and a rest that is empty or starts
    with the first marker.  A marker is a frame of the function
    [_pathway_trace_marker]; a frame is external when its file is a test
    of the package or lies outside the package and outside [beartype].
    When there is no such frame the trace has no user frame, and
    [_reraise_with_user_frame] re-raises the original exception
    unchanged. *)
Theorem from_traceback_user_frame (callers : list Frame) (own : Frame) :
  let trace := from_traceback (callers ++ [own]) in
  (∀ f, is_marker f = true ↔ function f = "_pathway_trace_marker") ∧
  (∀ f, is_external f = true ↔
     occurs "pathway/tests/test_" (filename f) ∨
     ∀ pattern,
       pattern ∈ ["pathway/tests"; "pathway/internals"; "pathway/io";
                  "pathway/stdlib"; "pathway/debug"; "@beartype"] →
       ¬ occurs pattern (filename f)) ∧
  frames trace = callers ∧
  user_frame trace = last_external_before_marker callers ∧
  (∀ f, user_frame trace = Some f ↔
     ∃ pre mid rest,
       callers = pre ++ f :: mid ++ rest ∧
       Forall (λ g, is_marker g = false) pre ∧
       is_marker f = false ∧ is_external f = true ∧
       Forall (λ g, is_marker g = false ∧ is_external g = false) mid ∧
       unscanned rest) ∧
  (user_frame trace = None ↔
     ∃ mid rest,
       callers = mid ++ rest ∧
       Forall (λ g, is_marker g = false ∧ is_external g = false) mid ∧
       unscanned rest) ∧
  (∀ e, user_frame trace = None →
     _reraise_with_user_frame (callers ++ [own]) e None = e) ∧
  (∀ e given other_stack,
     user_frame given = None →
     _reraise_with_user_frame other_stack e (Some given) = e).
Proof.
  intros trace.
  assert (Hf : frames trace = callers) by apply removelast_last.
  assert (Hu : user_frame trace = scan_frames callers None).
  { subst trace. unfold from_traceback. cbn [user_frame].
    by rewrite removelast_last. }
  split; [apply is_marker_spec|]. split; [apply is_external_spec|].
  split; [done|]. split; [|split; [|split; [|split]]].
  - rewrite Hu, scan_frames_spec. by destruct (last_external_before_marker _).
  - intros f. rewrite Hu, scan_frames_Some_iff. split.
    + intros (pre & post & -> & Hpre & Hext & Hpost).
      apply Forall_app in Hpre as [Hpre Hm]. apply Forall_inv in Hm.
      destruct (before_first_marker_split post) as (rest & Hs & Hno & Hrest).
      exists pre, (before_first_marker post), rest.
      rewrite <- Hs. repeat split; try done.
      by apply Forall_and_split.
    + intros (pre & mid & rest & -> & Hpre & Hm & Hext & Hmid & Hrest).
      apply Forall_and_split in Hmid as [Hmm Hme].
      exists pre, (mid ++ rest). split; [done|]. split.
      { apply Forall_app. split; [done|]. by constructor. }
      split; [done|]. by rewrite before_first_marker_scanned.
  - rewrite Hu. apply scan_frames_None_iff.
  - intros e Hnone. unfold _reraise_with_user_frame.
    destruct (has_pathway_wrapped e); [done|].
    fold trace. by rewrite Hnone.
  - intros e given other Hnone. unfold _reraise_with_user_frame.
    destruct (has_pathway_wrapped e); [done|]. by rewrite Hnone.
Qed.

(** A stack as the decorator sees it: user code calls a decorated
    operation, whose wrapper calls [_reraise_with_user_frame], which
    calls [from_traceback]. *)
Definition user_script : Frame :=
  {| filename := "/home/user/script.py"; line_number := Some 12%Z;
     line := Some "t.select(x=1)"; function := "<module>" |}.

Definition internal_table : Frame :=
  {| filename := "/site-packages/pathway/internals/table.py";
     line_number := Some 80%Z; line := Some "return func(self)";
     function := "select" |}.

Definition marker_frame : Frame :=
  {| filename := "/site-packages/pathway/internals/trace.py";
     line_number := Some 128%Z; line := Some "return func(*args, **kwargs)";
     function := "_pathway_trace_marker" |}.

Definition reraise_frame : Frame :=
  {| filename := "/site-packages/pathway/internals/trace.py";
     line_number := Some 94%Z; line := Some "trace = Trace.from_traceback()";
     function := "_reraise_with_user_frame" |}.

Definition from_traceback_frame : Frame :=
  {| filename := "/site-packages/pathway/internals/trace.py";
     line_number := Some 53%Z; line := None; function := "from_traceback" |}.

Definition sample_stack : list Frame :=
  [user_script; internal_table; marker_frame; reraise_frame;
   from_traceback_frame].

Example from_traceback_sample :
  from_traceback sample_stack =
  {| frames := [user_script; internal_table; marker_frame; reraise_frame];
     user_frame := Some user_script |}.
Proof. reflexivity. Qed.

(** External code below the marker is not looked at. *)
Example from_traceback_no_user_frame :
  user_frame (from_traceback [internal_table; marker_frame; user_script;
                              from_traceback_frame]) = None.
Proof. reflexivity. Qed.

(** The frame of a test of the package is external. *)
Example from_traceback_test_frame :
  let test_frame :=
    {| filename := "/src/python/pathway/tests/test_error_messages.py";
       line_number := Some 224%Z;
       line := Some "table1.concat(table2)  # cause";
       function := "test_traceback_static" |} in
  user_frame (from_traceback [test_frame; marker_frame; reraise_frame;
                              from_traceback_frame]) = Some test_frame.
Proof. reflexivity. Qed.

(** ** Attribution wrapping *)

Fixpoint PyClass_eqb_refl (c : PyClass) : PyClass_eqb c c = true
with PyExc_eqb_refl (e : PyExc) : PyExc_eqb e e = true.
Proof.
  - destruct c as [n q m [b|] w|t e]; simpl.
    + rewrite !bool_decide_eq_true_2 by done.
      by rewrite PyClass_eqb_refl.
    + by rewrite !bool_decide_eq_true_2 by done.
    + by rewrite PyClass_eqb_refl, PyExc_eqb_refl.
  - destruct e as [c s [k|] t]; simpl.
    + rewrite PyClass_eqb_refl, PyExc_eqb_refl.
      by rewrite !bool_decide_eq_true_2 by done.
    + rewrite PyClass_eqb_refl. by rewrite !bool_decide_eq_true_2 by done.
Qed.

Lemma issubclass_refl (c : PyClass) : issubclass c c = true.
Proof.
  destruct c as [n q m [b|] w|t e]; cbn [issubclass];
    by rewrite PyClass_eqb_refl.
Qed.

Lemma issubclass_Wrapper (t d : PyClass) (e : PyExc) :
  issubclass t d = true → issubclass (Wrapper t e) d = true.
Proof. intros H. cbn [issubclass]. rewrite H. by rewrite orb_true_r. Qed.

(** The trace [_reraise_with_user_frame] works with. *)
Definition effective_trace (stack : list Frame) (trace : option Trace)
  : Trace :=
  match trace with
  | None => from_traceback stack
  | Some t => t
  end.

(** The location text, written out. *)
Definition occurred_here (frame : Frame) : string :=
  "
Occurred here:
    Line: " +:+ default "None" (line frame) +:+ "
    File: " +:+ filename frame +:+ ":" +:+
  from_option pretty "None" (line_number frame).

Lemma reraise_unfold (stack : list Frame) (e : PyExc)
    (trace : option Trace) :
  _reraise_with_user_frame stack e trace =
  if has_pathway_wrapped e then e
  else match user_frame (effective_trace stack trace) with
       | None => e
       | Some frame =>
           if new_accepts_message (type_of e)
           then Exc (Wrapper (type_of e) e)
                    (str_of e +:+ occurred_here frame)
                    (__cause__ e) (tail (__traceback__ e))
           else new_TypeError
       end.
Proof.
  unfold _reraise_with_user_frame, effective_trace.
  destruct (has_pathway_wrapped e); [done|].
  destruct (user_frame _) as [frame|]; [|done].
  cbn [new_accepts_message]. by destruct (new_accepts_message _).
Qed.

(** C4.  Every [Exception] raised in a decorated operation, or in the
    body of [custom_trace], is handed to [_reraise_with_user_frame];
    anything else passes.  An exception that was already wrapped is
    re-raised as it is.  Otherwise, when the trace has a user frame and
    the class of the exception can be instantiated from a message, the
    exception raised is an instance of a subclass of the original class,
    hence is caught wherever the original would be; the subclass has the
    qualified name and the module of the original class, but its
    [__name__] is [Wrapper]; the message is the original one followed by
    the "Occurred here" location, cause and traceback (less its first
    entry) are those of the original, and a wrapped exception is never
    wrapped again.  When the class cannot be instantiated from a message
    alone, a [TypeError] is raised in place of the exception. *)
Theorem reraise_with_user_frame_wrapping
    (stack : list Frame) (e : PyExc) (trace : option Trace) :
  let r := _reraise_with_user_frame stack e trace in
  (∀ A : Type,
     if isinstance e Exception_class
     then trace_user_frame (A:=A) stack (inl e)
            = inl (_reraise_with_user_frame stack e None) ∧
          ∀ t, custom_trace (A:=A) stack t (inl e)
                 = inl (_reraise_with_user_frame stack e (Some t))
     else trace_user_frame (A:=A) stack (inl e) = inl e ∧
          ∀ t, custom_trace (A:=A) stack t (inl e) = inl e) ∧
  (has_pathway_wrapped e = true → r = e) ∧
  (has_pathway_wrapped e = false →
   ∀ frame, user_frame (effective_trace stack trace) = Some frame →
     new_accepts_message (type_of e) = true →
     type_of r = Wrapper (type_of e) e ∧
     class_base (type_of r) = Some (type_of e) ∧
     class_name (type_of r) = "Wrapper" ∧
     class_qualname (type_of r) = class_qualname (type_of e) ∧
     class_module (type_of r) = class_module (type_of e) ∧
     isinstance r (type_of e) = true ∧
     (∀ d, isinstance e d = true → isinstance r d = true) ∧
     str_of r = str_of e +:+ "
Occurred here:
    Line: " +:+ default "None" (line frame) +:+ "
    File: " +:+ filename frame +:+ ":" +:+
       from_option pretty "None" (line_number frame) ∧
     __cause__ r = __cause__ e ∧
     __traceback__ r = tail (__traceback__ e) ∧
     has_pathway_wrapped r = true) ∧
  (has_pathway_wrapped e = false →
   ∀ frame, user_frame (effective_trace stack trace) = Some frame →
     new_accepts_message (type_of e) = false →
     r = new_TypeError ∧ type_of r = TypeError_class) ∧
  (∀ stack' trace', has_pathway_wrapped r = true →
     _reraise_with_user_frame stack' r trace' = r).
Proof.
  intros r.
  assert (Hpass : ∀ stack' trace' x, has_pathway_wrapped x = true →
                    _reraise_with_user_frame stack' x trace' = x).
  { intros stack' trace' x Hx. by rewrite reraise_unfold, Hx. }
  split; [|split; [|split; [|split]]].
  - intros A. unfold trace_user_frame, custom_trace.
    by destruct (isinstance e Exception_class).
  - apply Hpass.
  - intros Hw frame Hu Hnew. subst r. rewrite reraise_unfold, Hw, Hu, Hnew.
    repeat split; try done.
    + unfold isinstance. cbn [type_of issubclass].
      by rewrite issubclass_refl, orb_true_r.
    + intros d. unfold isinstance. cbn [type_of]. apply issubclass_Wrapper.
  - intros Hw frame Hu Hnew. subst r.
    by rewrite reraise_unfold, Hw, Hu, Hnew.
  - intros stack' trace'. apply Hpass.
Qed.

Definition ValueError_class : PyClass :=
  Class "ValueError" "ValueError" "builtins" (Some Exception_class) None.

Definition sample_error : PyExc :=
  Exc ValueError_class "bad column" None [marker_frame; internal_table].

Example reraise_sample_message :
  str_of (_reraise_with_user_frame sample_stack sample_error None) =
  "bad column
Occurred here:
    Line: t.select(x=1)
    File: /home/user/script.py:12".
Proof. reflexivity. Qed.

(** A [ValueError] raised in a decorated operation called from user code
    comes out with a class whose [__name__] is not [ValueError]. *)
Lemma reraise_with_user_frame_wrapping_witness :
  class_name (type_of sample_error) = "ValueError" ∧
  class_name
    (type_of (_reraise_with_user_frame sample_stack sample_error None))
    = "Wrapper" ∧
  class_qualname
    (type_of (_reraise_with_user_frame sample_stack sample_error None))
    = "ValueError" ∧
  isinstance (_reraise_with_user_frame sample_stack sample_error None)
             ValueError_class = true.
Proof.
  destruct (proj1 (proj2 (proj2 (reraise_with_user_frame_wrapping
             sample_stack sample_error None)))
             eq_refl user_script eq_refl eq_refl)
    as (_ & _ & Hn & Hq & _ & Hi & _).
  split; [reflexivity|]. split; [exact Hn|]. split; [exact Hq|exact Hi].
Defined.

(** An exception class whose [__new__] wants two arguments, as that of
    the built-in exception groups does: wrapping raises [TypeError], and
    the handler of the original class no longer catches the error. *)
Definition PairError_class : PyClass :=
  Class "PairError" "PairError" "__main__" (Some Exception_class)
        (Some false).

Example reraise_declined_by_new :
  let e := Exc PairError_class "two things" None [marker_frame] in
  let r := _reraise_with_user_frame sample_stack e None in
  r = new_TypeError ∧ isinstance r PairError_class = false ∧
  isinstance e PairError_class = true.
Proof. by vm_compute. Qed.

Lemma from_traceback_user_frame_witness :
  user_frame (from_traceback sample_stack) = Some user_script ∧
  _reraise_with_user_frame
    [internal_table; marker_frame; reraise_frame; from_traceback_frame]
    sample_error None = sample_error.
Proof.
  split.
  - apply (proj1 (proj2 (proj2 (proj2 (proj2 (from_traceback_user_frame
             [user_script; internal_table; marker_frame; reraise_frame]
             from_traceback_frame))))) user_script).
    exists [], [internal_table], [marker_frame; reraise_frame].
    repeat split; try done.
    + by repeat constructor.
    + right. by eexists _, _.
  - apply (proj1 (proj2 (proj2 (proj2 (proj2 (proj2 (proj2
             (from_traceback_user_frame
                [internal_table; marker_frame; reraise_frame]
                from_traceback_frame)))))))).
    reflexivity.
Defined.

(** ** Python dicts as association lists *)

Section pydict_facts.
Context {V : Type}.
Implicit Types (d : pydict V) (k : string) (v : V).

Lemma get_None d k : PyDict.get d k = None ↔ k ∉ PyDict.keys d.
Proof.
  unfold PyDict.keys. induction d as [|[k' v'] d IH]; csimpl.
  - split; [intros _; apply not_elem_of_nil|done].
  - rewrite not_elem_of_cons. destruct (decide (k' = k)) as [->|Hne].
    + split; [done|]. by intros [? _].
    + rewrite IH. split; [done|]. by intros [_ ?].
Qed.

Lemma get_is_Some d k : is_Some (PyDict.get d k) ↔ k ∈ PyDict.keys d.
Proof.
  rewrite <-not_eq_None_Some, get_None.
  destruct (decide (k ∈ PyDict.keys d)); naive_solver.
Qed.

Lemma get_to_map d k : PyDict.to_map d !! k = PyDict.get d k.
Proof.
  unfold PyDict.to_map.
  induction d as [|[k' v'] d IH]; simpl; [done|].
  destruct (decide (k' = k)) as [->|Hne].
  - by rewrite lookup_insert_eq.
  - by rewrite lookup_insert_ne.
Qed.

Lemma get_set_eq d k v : PyDict.get (PyDict.set d k v) k = Some v.
Proof.
  induction d as [|[k' v'] d IH]; simpl.
  - by rewrite decide_True.
  - destruct (decide (k' = k)) as [->|Hne]; simpl.
    + by rewrite decide_True.
    + by rewrite decide_False.
Qed.

Lemma get_set_ne d k k' v :
  k ≠ k' → PyDict.get (PyDict.set d k v) k' = PyDict.get d k'.
Proof.
  intros Hne. induction d as [|[k0 v0] d IH]; simpl.
  - by rewrite decide_False.
  - destruct (decide (k0 = k)) as [->|Hne0]; simpl.
    + by rewrite !decide_False.
    + by rewrite IH.
Qed.

Lemma to_map_set d k v :
  PyDict.to_map (PyDict.set d k v) = <[k := v]> (PyDict.to_map d).
Proof.
  apply map_eq. intros k'. rewrite get_to_map.
  destruct (decide (k = k')) as [->|Hne].
  - by rewrite get_set_eq, lookup_insert_eq.
  - by rewrite get_set_ne, lookup_insert_ne, get_to_map.
Qed.

Lemma keys_set d k v :
  PyDict.keys (PyDict.set d k v) =
  if bool_decide (k ∈ PyDict.keys d) then PyDict.keys d
  else PyDict.keys d ++ [k].
Proof.
  unfold PyDict.keys.
  induction d as [|[k' v'] d IH]; csimpl; [done|].
  destruct (decide (k' = k)) as [->|Hne]; csimpl.
  - rewrite bool_decide_eq_true_2; [done|]. apply elem_of_cons; by left.
  - rewrite IH. case_bool_decide as H1; case_bool_decide as H2; try done.
    + exfalso. apply H2. apply elem_of_cons. by right.
    + exfalso. apply elem_of_cons in H2 as [->|H2]; done.
Qed.

Lemma wf_set d k v : PyDict.wf d → PyDict.wf (PyDict.set d k v).
Proof.
  unfold PyDict.wf. intros Hd. rewrite keys_set.
  case_bool_decide as Hk; [done|].
  apply NoDup_app. split; [done|]. split; [|apply NoDup_singleton].
  intros x Hx ->%list_elem_of_singleton. done.
Qed.

Lemma wf_foldl_set (kvs : list (string * V)) d :
  PyDict.wf d → PyDict.wf (foldl (λ d kv, PyDict.set d kv.1 kv.2) d kvs).
Proof.
  revert d. induction kvs as [|kv kvs IH]; intros d Hd; simpl; [done|].
  apply IH. by apply wf_set.
Qed.

Lemma length_to_map d : PyDict.wf d → size (PyDict.to_map d) = length d.
Proof.
  unfold PyDict.wf, PyDict.to_map, PyDict.keys. intros Hd.
  rewrite <-(length_fmap fst d).
  rewrite <-size_dom, dom_list_to_map_L.
  by rewrite size_list_to_set.
Qed.
End pydict_facts.

Lemma get_fmap {V W} (f : V → W) (d : pydict V) (k : string) :
  PyDict.get (prod_map id f <$> d) k = f <$> PyDict.get d k.
Proof.
  induction d as [|[k' v'] d IH]; simpl; [done|].
  by destruct (decide (k' = k)).
Qed.

Lemma keys_fmap {V W} (f : V → W) (d : pydict V) :
  PyDict.keys (prod_map id f <$> d) = PyDict.keys d.
Proof.
  unfold PyDict.keys. rewrite <-list_fmap_compose.
  apply list_fmap_ext. by intros _ [k v] _.
Qed.

(** ** Building a schema *)

(** A schema class that exists: its annotations and its class
    attributes are dicts, and the metaclass initialiser succeeded. *)
Definition built (sc : Schema) : Prop :=
  ∃ _name annotations fields,
    PyDict.wf annotations ∧ PyDict.wf fields ∧
    _schema_builder _name annotations fields = Ok sc.

(** The loop, unrolled: the columns it stores, in order. *)
Lemma create_columns_loop_Ok annotations fields column_names columns res :
  create_columns_loop annotations fields column_names columns = Ok res ↔
  ∃ kcs,
    Forall2 (λ attr kc, column_for annotations fields attr = Ok kc)
            column_names kcs ∧
    res = foldl (λ d kc, PyDict.set d kc.1 kc.2) columns kcs.
Proof.
  revert columns.
  induction column_names as [|attr rest IH]; intros columns; simpl.
  - split.
    + intros [= <-]. exists []. by split; [constructor|].
    + intros (kcs & Hk & ->). by apply Forall2_nil_inv_l in Hk as ->.
  - destruct (column_for annotations fields attr) as [kc|e] eqn:Hc; simpl.
    + rewrite IH. split.
      * intros (kcs & Hk & ->). exists (kc :: kcs).
        split; [by constructor|done].
      * intros (kcs & Hk & ->).
        apply Forall2_cons_inv_l in Hk as (kc' & kcs' & Hkc & Hk & ->).
        rewrite Hc in Hkc. injection Hkc as <-. by exists kcs'.
    + split; [done|]. intros (kcs & Hk & _).
      apply Forall2_cons_inv_l in Hk as (kc' & kcs' & Hkc & _).
      by rewrite Hc in Hkc.
Qed.

Lemma column_for_has_dtype annotations fields attr kc :
  column_for annotations fields attr = Ok kc → is_Some (dtype kc.2).
Proof.
  unfold column_for.
  destruct (default _ (PyDict.get fields attr)) as [column|ty]; [|done].
  destruct (dtype column) as [d|] eqn:Hd; simpl;
    case_match; try done; intros [= <-]; simpl; eauto.
Qed.

Lemma Forall_set {V} (P : string * V → Prop) (d : pydict V) k v :
  Forall P d → P (k, v) → Forall P (PyDict.set d k v).
Proof.
  intros Hd Hkv. induction Hd as [|[k' v'] d Hx Hd IH]; simpl.
  - by repeat constructor.
  - destruct (decide (k' = k)) as [->|]; by constructor.
Qed.

Lemma Forall_foldl_set {V} (P : string * V → Prop)
    (kvs : list (string * V)) (d : pydict V) :
  Forall P d → Forall P kvs →
  Forall P (foldl (λ d kv, PyDict.set d kv.1 kv.2) d kvs).
Proof.
  intros Hd Hk. revert d Hd.
  induction Hk as [|[k v] kvs Hkv _ IH]; intros d Hd; simpl; [done|].
  apply IH. by apply Forall_set.
Qed.

Lemma built_columns (sc : Schema) :
  built sc →
  PyDict.wf (__columns__ sc) ∧
  Forall (λ nc, is_Some (dtype nc.2)) (__columns__ sc).
Proof.
  intros (n & a & f & _ & _ & Hb). unfold _schema_builder in Hb.
  destruct (_create_column_definitions a f) as [cols|e] eqn:Hc; [|done].
  simpl in Hb. injection Hb as <-. simpl.
  apply create_columns_loop_Ok in Hc as (kcs & Hk & ->). split.
  - apply wf_foldl_set. apply NoDup_nil_2.
  - apply Forall_foldl_set; [constructor|].
    clear -Hk. induction Hk as [|attr kc names kcs Hkc _ IH]; [constructor|].
    constructor; [|done]. by eapply column_for_has_dtype.
Qed.

(** ** Schemas without class attributes *)

Lemma column_for_no_field annotations attr :
  column_for annotations [] attr =
  Ok (attr, ColumnDefinition_of_dtype
              (default Any (PyDict.get annotations attr))).
Proof.
  unfold column_for. simpl.
  destruct (PyDict.get annotations attr) as [d|]; simpl; [|done].
  rewrite (bool_decide_eq_false_2 (Some d ≠ Some d)) by (intros H; by apply H).
  by rewrite andb_false_r.
Qed.

Lemma create_columns_loop_no_field annotations column_names columns :
  ∃ res, create_columns_loop annotations [] column_names columns = Ok res.
Proof.
  revert columns.
  induction column_names as [|attr rest IH]; intros columns; simpl; [eauto|].
  rewrite column_for_no_field. simpl. apply IH.
Qed.

(** [schema_from_types] cannot fail: without class attributes every
    column takes the dtype of its annotation. *)
Lemma schema_from_types_Ok _name kwargs :
  ∃ sc, schema_from_types _name kwargs = Ok sc ∧ _cls_fields sc = [].
Proof.
  unfold schema_from_types, _schema_builder, _create_column_definitions.
  destruct (create_columns_loop_no_field kwargs
              (StableSet (PyDict.keys kwargs ++
                          PyDict.keys (V:=FieldValue) [])) [])
    as [res ->].
  simpl. eauto.
Qed.

(** [schema_from_types(x=d)] *)
Definition single_column_schema (x : string) (d : DType) : Schema :=
  {| __name__ := "schema(...)"; get_type_hints := [(x, d)];
     _cls_fields := [];
     __columns__ := [(x, ColumnDefinition_of_dtype d)] |}.

Lemma schema_from_types_single (x : string) (d : DType) :
  schema_from_types None [(x, d)] = Ok (single_column_schema x d).
Proof.
  unfold schema_from_types, _schema_builder, _create_column_definitions.
  cbn [PyDict.keys fmap list_fmap fst app StableSet foldl].
  rewrite bool_decide_eq_false_2 by apply not_elem_of_nil.
  cbn [app create_columns_loop]. rewrite column_for_no_field.
  cbn [rbind PyDict.get]. rewrite decide_True by done. done.
Qed.

Lemma single_column_schema_built (x : string) (d : DType) :
  built (single_column_schema x d).
Proof.
  exists "schema(...)", [(x, d)], [].
  split; [apply NoDup_singleton|]. split; [apply NoDup_nil_2|].
  apply schema_from_types_single.
Qed.

(** ** Subschemas *)

(** The dtype [sc[name]] of a column. *)
Definition dtype_of (sc : Schema) (name : string) : option DType :=
  PyDict.get (__columns__ sc) name ≫= dtype.

Definition same_column_names (A B : Schema) : Prop :=
  ∀ n, n ∈ column_names A ↔ n ∈ column_names B.

(** The schema binds a class attribute to the name of one of the methods
    that [is_subschema] calls on it. *)
Definition shadows_method (sc : Schema) : bool :=
  PyDict.contains (_cls_fields sc) "keys" ||
  PyDict.contains (_cls_fields sc) "as_dict".

Lemma schema_keys_columns (sc : Schema) :
  schema_keys sc = PyDict.keys (__columns__ sc).
Proof. unfold schema_keys, as_dict. apply keys_fmap. Qed.

Lemma call_method_found {A} (sc : Schema) (method : string)
    (body : result A) :
  PyDict.contains (_cls_fields sc) method = true →
  ∃ msg, call_method sc method body = Raise (TypeError msg).
Proof.
  intros [v Hv]%bool_decide_eq_true%get_is_Some.
  unfold call_method. rewrite Hv. destruct v; eauto.
Qed.

Lemma call_method_missing {A} (sc : Schema) (method : string)
    (body : result A) :
  PyDict.contains (_cls_fields sc) method = false →
  call_method sc method body = body.
Proof.
  intros Hv%bool_decide_eq_false%get_None.
  unfold call_method. by rewrite Hv.
Qed.

Lemma call_keys_Ok (sc : Schema) :
  shadows_method sc = false →
  call_as_dict sc = Ok (as_dict sc) ∧ call_keys sc = Ok (schema_keys sc).
Proof.
  intros [Hk Hd]%orb_false_iff. unfold call_keys, call_as_dict.
  by rewrite !call_method_missing.
Qed.

Lemma call_keys_Raise (sc : Schema) :
  shadows_method sc = true → ∃ msg, call_keys sc = Raise (TypeError msg).
Proof.
  unfold shadows_method, call_keys.
  destruct (PyDict.contains (_cls_fields sc) "keys") eqn:Hk; simpl.
  - intros _. by apply call_method_found.
  - intros Hd. rewrite call_method_missing by done.
    destruct (call_method_found sc "as_dict" (Ok (as_dict sc)) Hd)
      as [msg Hmsg].
    unfold call_as_dict. rewrite Hmsg. eauto.
Qed.

Lemma schema_getitem_Ok (sc : Schema) (k : string) :
  shadows_method sc = false →
  k ∈ schema_keys sc →
  ∃ c, PyDict.get (__columns__ sc) k = Some c ∧
       schema_getitem sc k = Ok (dtype c).
Proof.
  intros [Hd _]%call_keys_Ok.
  rewrite schema_keys_columns. intros [c Hc]%get_is_Some.
  exists c. split; [done|].
  unfold schema_getitem. rewrite Hd. simpl.
  unfold as_dict. by rewrite get_fmap, Hc.
Qed.

Lemma keys_eq_true (l r : list string) :
  keys_eq l r = true ↔ length l = length r ∧ ∀ k, k ∈ l → k ∈ r.
Proof.
  unfold keys_eq. rewrite andb_true_iff, bool_decide_eq_true.
  rewrite forallb_forall. split; intros [Hlen H]; (split; [done|]).
  - intros k Hk. apply list_elem_of_In in Hk.
    specialize (H k Hk). by apply bool_decide_eq_true in H.
  - intros k Hk. apply bool_decide_eq_true, H. by apply list_elem_of_In.
Qed.

Lemma keys_eq_same_set (l r : list string) :
  NoDup l → NoDup r →
  (keys_eq l r = true ↔ ∀ k, k ∈ l ↔ k ∈ r).
Proof.
  intros Hl Hr. rewrite keys_eq_true. split.
  - intros [Hlen Hsub].
    assert (l ≡ₚ r) as Hp.
    { apply submseteq_length_Permutation; [by apply NoDup_submseteq|lia]. }
    intros k. by rewrite Hp.
  - intros Hs. split; [|by intros k; apply Hs].
    apply Permutation_length. by apply NoDup_Permutation.
Qed.

Section subschema.
Variable dtype_issubclass : DType → DType → bool.

(** The loop of [is_subschema] never fails on keys both schemas have. *)
Lemma is_subschema_loop_Ok (A B : Schema) (ks : list string) :
  shadows_method A = false → shadows_method B = false →
  (∀ k, k ∈ ks → k ∈ schema_keys A ∧ k ∈ schema_keys B) →
  is_subschema_loop dtype_issubclass A B ks =
  Ok (forallb (λ k, dtype_issubclass (default Any (dtype_of A k))
                                     (default Any (dtype_of B k))) ks).
Proof.
  intros HsA HsB.
  induction ks as [|k ks IH]; intros Hks; simpl; [done|].
  destruct (Hks k) as [HA HB]; [apply elem_of_cons; by left|].
  destruct (schema_getitem_Ok A k HsA HA) as (ca & Hca & ->).
  destruct (schema_getitem_Ok B k HsB HB) as (cb & Hcb & ->).
  simpl. unfold dtype_of at 1 2. rewrite Hca, Hcb. simpl.
  destruct (dtype_issubclass _ _); simpl; [|done].
  apply IH. intros k' Hk'. apply Hks, elem_of_cons. by right.
Qed.

Lemma is_subschema_closed_form (A B : Schema) :
  shadows_method A = false → shadows_method B = false →
  is_subschema dtype_issubclass A B =
  Ok (keys_eq (schema_keys A) (schema_keys B) &&
      forallb (λ k, dtype_issubclass (default Any (dtype_of A k))
                                     (default Any (dtype_of B k)))
              (schema_keys A)).
Proof.
  intros HsA HsB. unfold is_subschema.
  rewrite (proj2 (call_keys_Ok A HsA)), (proj2 (call_keys_Ok B HsB)).
  cbn [rbind].
  destruct (keys_eq (schema_keys A) (schema_keys B)) eqn:Hk; simpl; [|done].
  apply is_subschema_loop_Ok; [done..|]. intros k Hk'. split; [done|].
  apply keys_eq_true in Hk as [_ Hsub]. by apply Hsub.
Qed.

Lemma is_subschema_shadowed (A B : Schema) :
  shadows_method A = true ∨ shadows_method B = true →
  ∃ msg, is_subschema dtype_issubclass A B = Raise (TypeError msg).
Proof.
  intros Hs. unfold is_subschema.
  destruct (shadows_method A) eqn:HsA.
  - destruct (call_keys_Raise A HsA) as [msg ->]. eauto.
  - rewrite (proj2 (call_keys_Ok A HsA)). cbn [rbind].
    destruct Hs as [?|HsB]; [done|].
    destruct (call_keys_Raise B HsB) as [msg ->]. eauto.
Qed.

Lemma is_subschema_single (x : string) (a b : DType) :
  is_subschema dtype_issubclass
    (single_column_schema x a) (single_column_schema x b)
  = Ok (dtype_issubclass a b).
Proof.
  rewrite is_subschema_closed_form by done.
  unfold schema_keys, as_dict, keys_eq, dtype_of. simpl.
  rewrite !decide_True by done. simpl.
  rewrite bool_decide_eq_true_2 by (apply elem_of_cons; by left).
  by destruct (dtype_issubclass a b).
Qed.
End subschema.

(** A schema that calls a column [keys]:
    [schema_builder({"keys": column_definition(dtype=int)})]. *)
Definition keys_column : ColumnDefinition :=
  column_definition false _no_default_value_marker (Some int_) None.

Definition keys_schema : Schema :=
  {| __name__ := "custom_schema(...)"; get_type_hints := [];
     _cls_fields := [("keys", FColumn keys_column)];
     __columns__ := [("keys", keys_column)] |}.

(** C3, as stated, fails: for a schema with a column held by a class
    attribute called [keys], [is_subschema(A, A)] raises [TypeError]
    instead of returning [True], whatever [dtype_issubclass] is. *)
Lemma is_subschema_raises_on_keys_column :
  schema_builder [("keys", keys_column)] None = Ok keys_schema ∧
  column_names keys_schema = ["keys"] ∧
  ∀ dtype_issubclass,
    is_subschema dtype_issubclass keys_schema keys_schema =
    Raise (TypeError "'ColumnDefinition' object is not callable").
Proof. done. Qed.

(** C3, amended.  For schemas [A] and [B] that bind no class attribute
    called [keys] or [as_dict], [is_subschema(A, B)] returns a boolean,
    which is [True] exactly when both declare the same set of column names
    and, for every name, [dtype_issubclass] holds of the dtype of [A] and
    the dtype of [B]; so [is_subschema(A, A)] is [True] as soon as
    [dtype_issubclass] is reflexive.  If one of the two schemas binds such
    an attribute, [is_subschema] raises [TypeError].  Whenever
    [dtype_issubclass] holds of two dtypes in one direction only, as it
    does for a dtype and its optional widening, there are schemas with
    the same column names for which [is_subschema] holds in one direction
    only. *)
Theorem is_subschema_spec (dtype_issubclass : DType → DType → bool)
    (A B : Schema) :
  built A → built B →
  (shadows_method A = false → shadows_method B = false →
   (∃ b, is_subschema dtype_issubclass A B = Ok b) ∧
   (is_subschema dtype_issubclass A B = Ok true ↔
      same_column_names A B ∧
      ∀ n a b, dtype_of A n = Some a → dtype_of B n = Some b →
               dtype_issubclass a b = true) ∧
   ((∀ d, dtype_issubclass d d = true) →
    is_subschema dtype_issubclass A A = Ok true)) ∧
  (shadows_method A = true ∨ shadows_method B = true →
   ∃ msg, is_subschema dtype_issubclass A B = Raise (TypeError msg)) ∧
  (∀ x a b,
     dtype_issubclass a b = true → dtype_issubclass b a = false →
     schema_from_types None [(x, a)] = Ok (single_column_schema x a) ∧
     schema_from_types None [(x, b)] = Ok (single_column_schema x b) ∧
     column_names (single_column_schema x a)
       = column_names (single_column_schema x b) ∧
     is_subschema dtype_issubclass
       (single_column_schema x a) (single_column_schema x b) = Ok true ∧
     is_subschema dtype_issubclass
       (single_column_schema x b) (single_column_schema x a) = Ok false).
Proof.
  intros [HwA HdA]%built_columns [HwB HdB]%built_columns.
  assert (Hsome : ∀ sc, Forall (λ nc, is_Some (dtype nc.2)) (__columns__ sc) →
            ∀ k, k ∈ schema_keys sc → is_Some (dtype_of sc k)).
  { intros sc Hd k Hk. rewrite schema_keys_columns in Hk.
    apply get_is_Some in Hk as [c Hc]. unfold dtype_of. rewrite Hc. simpl.
    rewrite Forall_forall in Hd. apply (Hd (k, c)).
    clear -Hc. induction (__columns__ sc) as [|[k' v'] d IH]; [done|].
    simpl in Hc. destruct (decide (k' = k)) as [->|].
    - injection Hc as ->. apply elem_of_cons. by left.
    - apply elem_of_cons. right. by apply IH. }
  assert (HnA : NoDup (schema_keys A)) by by rewrite schema_keys_columns.
  assert (HnB : NoDup (schema_keys B)) by by rewrite schema_keys_columns.
  split; [|split].
  - intros HsA HsB. split; [|split].
    + rewrite is_subschema_closed_form by done. eauto.
    + rewrite is_subschema_closed_form by done.
      unfold same_column_names, column_names.
      fold (schema_keys A) (schema_keys B).
      split.
      * intros [= [Hk Hall]%andb_true_iff].
        split; [exact (proj1 (keys_eq_same_set _ _ HnA HnB) Hk)|].
        intros n a b Ha Hb.
        rewrite forallb_forall in Hall.
        assert (Hn : n ∈ schema_keys A).
        { rewrite schema_keys_columns. apply get_is_Some.
          unfold dtype_of in Ha. destruct (PyDict.get _ n); [eauto|done]. }
        specialize (Hall n (proj1 (list_elem_of_In _ _) Hn)).
        by rewrite Ha, Hb in Hall.
      * intros [Hs Hall]. f_equal. apply andb_true_iff. split.
        -- exact (proj2 (keys_eq_same_set _ _ HnA HnB) Hs).
        -- apply forallb_forall. intros k Hk%list_elem_of_In.
           destruct (Hsome A HdA k Hk) as [a Ha].
           destruct (Hsome B HdB k (proj1 (Hs k) Hk)) as [b Hb].
           rewrite Ha, Hb. simpl. by eapply Hall.
    + intros Hrefl. rewrite is_subschema_closed_form by done.
      f_equal. apply andb_true_iff. split.
      * apply keys_eq_true. done.
      * apply forallb_forall. intros k _. apply Hrefl.
  - apply is_subschema_shadowed.
  - intros x a b Hab Hba.
    rewrite !schema_from_types_single, !is_subschema_single, Hab, Hba.
    done.
Qed.

Lemma spec_dtype_issubclass_refl (d : DType) :
  spec_dtype_issubclass d d = true.
Proof. induction d; simpl; try done; by apply bool_decide_eq_true_2. Qed.

(** [int] against [Optional[int]]: assignable one way only. *)
Definition schema_x_int : result Schema :=
  schema_from_types None [("x", int_)].
Definition schema_x_optional_int : result Schema :=
  schema_from_types None [("x", Optional int_)].

Definition schema_x_int_class : Schema :=
  {| __name__ := "schema(...)"; get_type_hints := [("x", int_)];
     _cls_fields := [];
     __columns__ := [("x", ColumnDefinition_of_dtype int_)] |}.

Definition schema_x_optional_int_class : Schema :=
  {| __name__ := "schema(...)"; get_type_hints := [("x", Optional int_)];
     _cls_fields := [];
     __columns__ := [("x", ColumnDefinition_of_dtype (Optional int_))] |}.

Lemma is_subschema_spec_witness :
  schema_x_int = Ok schema_x_int_class ∧
  schema_x_optional_int = Ok schema_x_optional_int_class ∧
  is_subschema spec_dtype_issubclass
    schema_x_int_class schema_x_optional_int_class = Ok true ∧
  is_subschema spec_dtype_issubclass
    schema_x_optional_int_class schema_x_int_class = Ok false ∧
  is_subschema spec_dtype_issubclass
    schema_x_int_class schema_x_int_class = Ok true.
Proof.
  split; [reflexivity|]. split; [reflexivity|].
  destruct (is_subschema_spec spec_dtype_issubclass
              schema_x_int_class schema_x_optional_int_class)
    as (Hplain & _ & Hone_way).
  - exists "schema(...)", [("x", int_)], [].
    split; [apply NoDup_singleton|]. split; [apply NoDup_nil_2|reflexivity].
  - exists "schema(...)", [("x", Optional int_)], [].
    split; [apply NoDup_singleton|]. split; [apply NoDup_nil_2|reflexivity].
  - destruct (Hplain eq_refl eq_refl) as (_ & Hiff & Hrefl).
    split; [|split].
    + apply Hiff. split; [done|].
      intros n a b. unfold dtype_of. simpl.
      destruct (decide ("x" = n)); [|done].
      by intros [= <-] [= <-].
    + apply (Hone_way "x" int_ (Optional int_)); reflexivity.
    + apply Hrefl, spec_dtype_issubclass_refl.
Defined.

(** ** Declaring a [ClassArg] with an expected output schema *)

Section class_arg.
Variable dtype_issubclass : DType → DType → bool.

Lemma init_subclass_without_name
    (members : list (string * AbstractAttribute))
    (attrs : list AbstractAttribute) (input output : option Schema)
    (out : Schema) :
  attrs_of_type members = Ok attrs →
  PyDict.contains (output_schema_kwargs (attributes_dict attrs)) "_name"
    = false →
  schema_from_types None (output_schema_kwargs (attributes_dict attrs))
    = Ok out →
  __init_subclass__ dtype_issubclass members input output =
  let cls := {| _attributes := attributes_dict attrs;
                input_schema := input; output_schema := out |} in
  match output with
  | None => Ok cls
  | Some expected =>
      sub ←! is_subschema dtype_issubclass out expected;
      if negb sub
      then received ←! call_as_dict expected;
           derived ←! call_as_dict out;
           Raise (RuntimeError "output schema validation error")
      else Ok cls
  end.
Proof.
  intros Hattrs Hname Hout. unfold __init_subclass__.
  rewrite Hattrs. cbn [rbind]. unfold schema_from_types_kwargs.
  rewrite Hname, Hout. done.
Qed.
End class_arg.

(** [class table(pw.ClassArg): arg = pw.input_attribute();
    @pw.output_attribute def ret(self) -> int] *)
Definition no_params : AttrParams :=
  {| param_dtype := None; param_output_name := None |}.

Definition simple_transformer_table : list (string * AbstractAttribute) :=
  [ ("arg", InputAttribute "arg" no_params);
    ("ret", OutputAttribute "ret" {| return_annotation := int_ |}
                            no_params) ].

(** [class table(pw.ClassArg): @pw.output_attribute def _name(self) -> str] *)
Definition name_transformer_table : list (string * AbstractAttribute) :=
  [ ("_name", OutputAttribute "_name" {| return_annotation := str_ |}
                              no_params) ].

(** C6, as stated, fails: a class with an output attribute called
    [_name] cannot be declared, with or without an expected output
    schema; the failure is no verdict of [is_subschema]. *)
Lemma init_subclass_output_named_name :
  attrs_of_type name_transformer_table = Ok (name_transformer_table.*2) ∧
  ∀ dtype_issubclass input output,
    __init_subclass__ dtype_issubclass name_transformer_table input output =
    Raise (TypeError
             "parameter _name violates type hint typing.Optional[str]").
Proof. done. Qed.

(** C6, amended.  For a [ClassArg] subclass whose attributes carry the
    names they are bound to and none of whose output attributes has the
    output name [_name]: without an expected output schema the
    declaration succeeds, with the schema derived from the output
    attributes, and no validation takes place; with an expected schema
    that binds no class attribute called [keys] or [as_dict], the
    declaration raises (a [RuntimeError]) exactly when the derived schema
    is not a subschema of the expected one, and otherwise yields the
    class.  An output attribute with the output name [_name] makes the
    declaration raise [TypeError] in either case: the keyword is taken
    for the parameter [_name] of [schema_from_types].  An expected schema
    that binds [keys] or [as_dict] makes it raise [TypeError] too. *)
Theorem init_subclass_output_validation
    (dtype_issubclass : DType → DType → bool)
    (members : list (string * AbstractAttribute))
    (attrs : list AbstractAttribute) (input : option Schema) :
  attrs_of_type members = Ok attrs →
  let kwargs := output_schema_kwargs (attributes_dict attrs) in
  (PyDict.contains kwargs "_name" = true →
   ∀ output, ∃ msg,
     __init_subclass__ dtype_issubclass members input output
       = Raise (TypeError msg)) ∧
  (PyDict.contains kwargs "_name" = false →
   ∃ out,
     schema_from_types None kwargs = Ok out ∧
     let cls := {| _attributes := attributes_dict attrs;
                   input_schema := input; output_schema := out |} in
     __init_subclass__ dtype_issubclass members input None = Ok cls ∧
     ∀ expected,
       (shadows_method expected = true →
        ∃ msg,
          __init_subclass__ dtype_issubclass members input (Some expected)
            = Raise (TypeError msg)) ∧
       (shadows_method expected = false →
        (∃ b, is_subschema dtype_issubclass out expected = Ok b) ∧
        ((∃ e, __init_subclass__ dtype_issubclass members input
                 (Some expected) = Raise e) ↔
         is_subschema dtype_issubclass out expected = Ok false) ∧
        (is_subschema dtype_issubclass out expected = Ok false →
         __init_subclass__ dtype_issubclass members input (Some expected) =
           Raise (RuntimeError "output schema validation error")) ∧
        (is_subschema dtype_issubclass out expected = Ok true →
         __init_subclass__ dtype_issubclass members input (Some expected)
           = Ok cls))).
Proof.
  intros Hattrs kwargs. split.
  - intros Hname output. unfold __init_subclass__.
    rewrite Hattrs. cbn [rbind]. unfold schema_from_types_kwargs.
    fold kwargs. rewrite Hname. eauto.
  - intros Hname.
    destruct (schema_from_types_Ok None kwargs) as (out & Hout & Hfields).
    exists out. split; [done|]. intros cls.
    assert (Hs : shadows_method out = false)
      by (unfold shadows_method; by rewrite Hfields).
    split; [by rewrite (init_subclass_without_name _ _ attrs _ _ out)|].
    intros expected.
    rewrite (init_subclass_without_name _ _ attrs _ _ out) by done.
    cbn zeta. fold cls. split.
    + intros Hse.
      destruct (is_subschema_shadowed dtype_issubclass out expected)
        as [msg ->]; [by right|]. eauto.
    + intros Hse.
      rewrite is_subschema_closed_form by done. cbn [rbind].
      rewrite (proj1 (call_keys_Ok expected Hse)),
              (proj1 (call_keys_Ok out Hs)). cbn [rbind].
      destruct (keys_eq _ _ && forallb _ _); simpl.
      * split; [eauto|]. split; [|done]. split; [by intros [e ?]|done].
      * split; [eauto|]. split; [|done]. split; [done|eauto].
Qed.

Definition schema_ret (d : DType) : Schema :=
  {| __name__ := "schema(...)"; get_type_hints := [("ret", d)];
     _cls_fields := [];
     __columns__ := [("ret", ColumnDefinition_of_dtype d)] |}.

Example init_subclass_accepts :
  output_schema <$>
    match __init_subclass__ spec_dtype_issubclass simple_transformer_table
            None (Some (schema_ret float_)) with
    | Ok c => Some c
    | Raise _ => None
    end = Some (schema_ret int_).
Proof. reflexivity. Qed.

Example init_subclass_rejects :
  __init_subclass__ spec_dtype_issubclass simple_transformer_table None
    (Some (schema_ret str_)) =
  Raise (RuntimeError "output schema validation error").
Proof. reflexivity. Qed.

(** An expected schema with a column held by a class attribute [keys]. *)
Example init_subclass_expected_shadows :
  __init_subclass__ spec_dtype_issubclass simple_transformer_table None
    (Some keys_schema) =
  Raise (TypeError "'ColumnDefinition' object is not callable").
Proof. reflexivity. Qed.

Lemma init_subclass_output_validation_witness :
  __init_subclass__ spec_dtype_issubclass simple_transformer_table None None
    = Ok {| _attributes := attributes_dict (simple_transformer_table.*2);
            input_schema := None; output_schema := schema_ret int_ |} ∧
  __init_subclass__ spec_dtype_issubclass simple_transformer_table None
    (Some (schema_ret str_))
    = Raise (RuntimeError "output schema validation error").
Proof.
  destruct (init_subclass_output_validation spec_dtype_issubclass
              simple_transformer_table
              (simple_transformer_table.*2) None eq_refl) as [_ H].
  destruct H as (out & Hout & Hnone & Hexp); [reflexivity|].
  injection Hout as <-. split; [exact Hnone|].
  apply (Hexp (schema_ret str_)); reflexivity.
Defined.

(** ** Table slices *)

(** The slice object at [self] has mapping [d] and table [t]. *)
Definition slice_at (h : heap) (self : loc) (d : pydict ColumnReference)
    (t : TableRef) : Prop :=
  ∃ m, h !! self = Some (OSlice m t) ∧ h !! m = Some (ODict d).

(** Every object of [h] is still there, and the same, in [h']. *)
Definition unchanged (h h' : heap) : Prop :=
  ∀ l o, h !! l = Some o → h' !! l = Some o.

(** [s] is a slice object of [h'] that did not exist in [h], with a
    mapping dict [d'] that did not exist in [h] either; the objects of
    [h] are untouched. *)
Definition new_slice (h h' : heap) (s : loc) (d' : pydict ColumnReference)
    (t : TableRef) : Prop :=
  ∃ m', h !! s = None ∧ h !! m' = None ∧
        h' !! s = Some (OSlice m' t) ∧ h' !! m' = Some (ODict d') ∧
        unchanged h h'.

Lemma bind_Ok {A B} (m : M A) (f : A → M B) h a h' :
  m h = (Ok a, h') → (m ≫= f) h = f a h'.
Proof. intros H. unfold mbind, M_bind. by rewrite H. Qed.

Lemma bind_Raise {A B} (m : M A) (f : A → M B) h e h' :
  m h = (Raise e, h') → (m ≫= f) h = (Raise e, h').
Proof. intros H. unfold mbind, M_bind. by rewrite H. Qed.

Lemma read_dict_Ok h l d : h !! l = Some (ODict d) → read_dict l h = (Ok d, h).
Proof. intros H. unfold read_dict. by rewrite H. Qed.

Lemma read_slice_Ok h l m t :
  h !! l = Some (OSlice m t) → read_slice l h = (Ok (m, t), h).
Proof. intros H. unfold read_slice. by rewrite H. Qed.

Lemma dict_copy_Ok h l d :
  h !! l = Some (ODict d) →
  dict_copy l h = (Ok (length h), h ++ [ODict d]).
Proof.
  intros H. unfold dict_copy. by rewrite (bind_Ok _ _ _ _ _ (read_dict_Ok _ _ _ H)).
Qed.

Lemma lookup_snoc (h : heap) (o : Obj) : (h ++ [o]) !! length h = Some o.
Proof. by rewrite lookup_app_r, Nat.sub_diag. Qed.

Lemma insert_snoc (h : heap) (o o' : Obj) :
  <[length h := o']> (h ++ [o]) = h ++ [o'].
Proof. by rewrite insert_app_r_alt, Nat.sub_diag. Qed.

Lemma unchanged_app (h k : heap) : unchanged h (h ++ k).
Proof. intros l o Hl. by apply lookup_app_l_Some. Qed.

(** The loops act on the dict at [mapping] and on nothing else. *)
Fixpoint without_dict (t : TableRef) (cols : list Arg)
    (d : pydict ColumnReference) : result unit * pydict ColumnReference :=
  match cols with
  | [] => (Ok (), d)
  | col :: rest =>
      match _normalize t col with
      | Raise e => (Raise e, d)
      | Ok colname =>
          if negb (PyDict.contains d colname)
          then (Raise (KeyError (not_found colname)), d)
          else without_dict t rest (PyDict.pop d colname)
      end
  end.

Lemma without_loop_spec t mapping cols (h : heap) d :
  h !! mapping = Some (ODict d) →
  without_loop t mapping cols h =
  ((without_dict t cols d).1, <[mapping := ODict (without_dict t cols d).2]> h).
Proof.
  revert h d. induction cols as [|col rest IH]; intros h d Hm; simpl.
  - unfold mret, M_ret. by rewrite list_insert_id.
  - destruct (_normalize t col) as [colname|e] eqn:Hn.
    + rewrite (bind_Ok _ _ h colname h) by done.
      rewrite (bind_Ok _ _ _ _ _ (read_dict_Ok _ _ _ Hm)).
      destruct (PyDict.contains d colname); simpl.
      * unfold write_dict at 1. unfold mbind at 1, M_bind at 1.
        rewrite (IH _ (PyDict.pop d colname)).
        -- by rewrite list_insert_insert_eq.
        -- apply list_lookup_insert_eq. by eapply lookup_lt_Some.
      * unfold raise. by rewrite list_insert_id.
    + rewrite (bind_Raise _ _ h e h) by done. simpl.
      by rewrite list_insert_id.
Qed.

Fixpoint pop_dict (olds : list string) (d : pydict ColumnReference)
  : result unit * pydict ColumnReference :=
  match olds with
  | [] => (Ok (), d)
  | old :: rest =>
      if negb (PyDict.contains d old)
      then (Raise (KeyError (not_found old)), d)
      else pop_dict rest (PyDict.pop d old)
  end.

Lemma rename_pop_loop_spec mapping olds (h : heap) d :
  h !! mapping = Some (ODict d) →
  rename_pop_loop mapping olds h =
  ((pop_dict olds d).1, <[mapping := ODict (pop_dict olds d).2]> h).
Proof.
  revert h d. induction olds as [|old rest IH]; intros h d Hm; simpl.
  - unfold mret, M_ret. by rewrite list_insert_id.
  - rewrite (bind_Ok _ _ _ _ _ (read_dict_Ok _ _ _ Hm)).
    destruct (PyDict.contains d old); simpl.
    + unfold write_dict at 1. unfold mbind at 1, M_bind at 1.
      rewrite (IH _ (PyDict.pop d old)).
      * by rewrite list_insert_insert_eq.
      * apply list_lookup_insert_eq. by eapply lookup_lt_Some.
    + unfold raise. by rewrite list_insert_id.
Qed.

Fixpoint set_dict (sd : pydict ColumnReference)
    (items : list (string * string)) (d : pydict ColumnReference)
  : result unit * pydict ColumnReference :=
  match items with
  | [] => (Ok (), d)
  | (old, new) :: rest =>
      match PyDict.get sd old with
      | None => (Raise (KeyError old), d)
      | Some c => set_dict sd rest (PyDict.set d new c)
      end
  end.

Lemma rename_set_loop_spec self_mapping mapping items (h : heap) sd d :
  self_mapping ≠ mapping →
  h !! self_mapping = Some (ODict sd) →
  h !! mapping = Some (ODict d) →
  rename_set_loop self_mapping mapping items h =
  ((set_dict sd items d).1, <[mapping := ODict (set_dict sd items d).2]> h).
Proof.
  intros Hne. revert h d.
  induction items as [|[old new] rest IH]; intros h d Hs Hm; simpl.
  - unfold mret, M_ret. by rewrite list_insert_id.
  - rewrite (bind_Ok _ _ _ _ _ (read_dict_Ok _ _ _ Hs)).
    destruct (PyDict.get sd old) as [c|]; simpl.
    + rewrite (bind_Ok _ _ _ _ _ (read_dict_Ok _ _ _ Hm)).
      unfold write_dict at 1. unfold mbind at 1, M_bind at 1.
      rewrite (IH _ (PyDict.set d new c)).
      * by rewrite list_insert_insert_eq.
      * by rewrite list_lookup_insert_ne.
      * apply list_lookup_insert_eq. by eapply lookup_lt_Some.
    + unfold raise. by rewrite list_insert_id.
Qed.

Lemma without_spec (h : heap) self m t d cols :
  h !! self = Some (OSlice m t) → h !! m = Some (ODict d) →
  without self cols h =
  match without_dict t cols d with
  | (Ok _, d') => (Ok (S (length h)), h ++ [ODict d'; OSlice (length h) t])
  | (Raise e, d') => (Raise e, h ++ [ODict d'])
  end.
Proof.
  intros Hs Hm. unfold without.
  rewrite (bind_Ok _ _ _ _ _ (read_slice_Ok _ _ _ _ Hs)). simpl.
  rewrite (bind_Ok _ _ _ _ _ (dict_copy_Ok _ _ _ Hm)).
  unfold mbind at 1, M_bind at 1.
  rewrite (without_loop_spec t (length h) cols (h ++ [ODict d]) d)
    by apply lookup_snoc.
  rewrite insert_snoc.
  destruct (without_dict t cols d) as [[[]|e] d']; simpl; [|done].
  unfold TableSlice, alloc. rewrite length_app, <-app_assoc. simpl.
  by rewrite Nat.add_1_r.
Qed.

Lemma rename_spec (h : heap) self m t d rename_dict :
  h !! self = Some (OSlice m t) → h !! m = Some (ODict d) →
  rename self rename_dict h =
  match normalize_items t rename_dict with
  | Raise e => (Raise e, h)
  | Ok items =>
      let normalized := PyDict.of_items items in
      match pop_dict (PyDict.keys normalized) d with
      | (Raise e, d') => (Raise e, h ++ [ODict d'])
      | (Ok _, d1) =>
          match set_dict d normalized d1 with
          | (Raise e, d') => (Raise e, h ++ [ODict d'])
          | (Ok _, d2) =>
              (Ok (S (length h)), h ++ [ODict d2; OSlice (length h) t])
          end
      end
  end.
Proof.
  intros Hs Hm. unfold rename.
  rewrite (bind_Ok _ _ _ _ _ (read_slice_Ok _ _ _ _ Hs)). simpl.
  destruct (normalize_items t rename_dict) as [items|e].
  2: { by rewrite (bind_Raise _ _ h e h). }
  rewrite (bind_Ok _ _ h items h) by done.
  rewrite (bind_Ok _ _ _ _ _ (dict_copy_Ok _ _ _ Hm)).
  assert (Hlt : m < length h) by by eapply lookup_lt_Some.
  unfold mbind at 1, M_bind at 1.
  rewrite (rename_pop_loop_spec (length h) _ (h ++ [ODict d]) d)
    by apply lookup_snoc.
  rewrite insert_snoc.
  destruct (pop_dict _ d) as [[[]|e] d1]; simpl; [|done].
  unfold mbind at 1, M_bind at 1.
  rewrite (rename_set_loop_spec m (length h) _ (h ++ [ODict d1]) d d1).
  - rewrite insert_snoc.
    destruct (set_dict d _ d1) as [[[]|e] d2]; simpl; [|done].
    unfold TableSlice, alloc. rewrite length_app, <-app_assoc. simpl.
    by rewrite Nat.add_1_r.
  - lia.
  - by apply lookup_app_l_Some.
  - apply lookup_snoc.
Qed.

Lemma new_slice_intro (h : heap) d' t :
  new_slice h (h ++ [ODict d'; OSlice (length h) t]) (S (length h)) d' t.
Proof.
  exists (length h). split; [apply lookup_ge_None; simpl; lia|].
  split; [by apply lookup_ge_None|].
  split.
  - rewrite lookup_app_r by lia.
    by replace (S (length h) - length h) with 1 by lia.
  - split; [|apply unchanged_app].
    by rewrite lookup_app_r, Nat.sub_diag.
Qed.

Lemma contains_true {V} (d : pydict V) k :
  PyDict.contains d k = true ↔ k ∈ PyDict.keys d.
Proof. apply bool_decide_eq_true. Qed.

Lemma contains_false {V} (d : pydict V) k :
  PyDict.contains d k = false ↔ k ∉ PyDict.keys d.
Proof. apply bool_decide_eq_false. Qed.

Lemma pop_dict_keys (d : pydict ColumnReference) :
  pop_dict (PyDict.keys d) d = (Ok (), []).
Proof.
  induction d as [|[k v] d IH]; [done|].
  cbn [PyDict.keys fmap list_fmap fst pop_dict].
  rewrite (proj2 (contains_true ((k, v) :: d) k))
    by (apply elem_of_cons; by left).
  cbn [negb PyDict.pop]. rewrite decide_True by done. exact IH.
Qed.

Lemma of_items_NoDup {V} (items : list (string * V)) :
  NoDup items.*1 → PyDict.of_items items = items.
Proof.
  unfold PyDict.of_items.
  enough (∀ acc, NoDup (acc ++ items).*1 →
            foldl (λ d kv, PyDict.set d kv.1 kv.2) acc items = acc ++ items)
    as H by (intros Hn; by apply (H [])).
  induction items as [|[k v] items IH]; intros acc Hn; simpl.
  - by rewrite app_nil_r.
  - replace (acc ++ (k, v) :: items) with ((acc ++ [(k, v)]) ++ items) in *
      by by rewrite <-app_assoc.
    rewrite <-IH by done. f_equal.
    rewrite !fmap_app in Hn. apply NoDup_app in Hn as [Hn _].
    apply NoDup_app in Hn as (_ & Hn & _).
    clear -Hn. induction acc as [|[k' v'] acc IHa]; [done|].
    simpl. rewrite decide_False.
    + f_equal. apply IHa. intros x Hx. apply Hn. csimpl.
      apply elem_of_cons. by right.
    + intros ->. apply (Hn k); [|apply list_elem_of_singleton; done].
      csimpl. apply elem_of_cons. by left.
Qed.

Lemma get_elem_of_wf {V} (d : pydict V) k v :
  PyDict.wf d → (k, v) ∈ d → PyDict.get d k = Some v.
Proof.
  unfold PyDict.wf, PyDict.keys.
  induction d as [|[k' v'] d IH]; csimpl; intros Hn Hin.
  - by apply elem_of_nil in Hin.
  - apply NoDup_cons in Hn as [Hk Hn].
    apply elem_of_cons in Hin as [[= <- <-]|Hin].
    + by rewrite decide_True.
    + rewrite decide_False; [by apply IH|].
      intros ->. apply Hk. apply list_elem_of_fmap. by exists (k, v).
Qed.

(** The mapping of [with_prefix] and [with_suffix]: every key renamed by
    [f], values kept. *)
Definition renamed (f : string → string) (d : pydict ColumnReference)
  : pydict ColumnReference :=
  foldl (λ acc kv, PyDict.set acc (f kv.1) kv.2) [] d.

Lemma set_dict_renaming (f : string → string) sd d' acc :
  (∀ k v, (k, v) ∈ d' → PyDict.get sd k = Some v) →
  set_dict sd ((λ kv, (kv.1, f kv.1)) <$> d') acc =
  (Ok (), foldl (λ acc kv, PyDict.set acc (f kv.1) kv.2) acc d').
Proof.
  revert acc. induction d' as [|[k v] d' IH]; intros acc Hget; [done|].
  csimpl. rewrite (Hget k v) by (apply elem_of_cons; by left).
  apply IH. intros k' v' Hin. apply Hget. apply elem_of_cons. by right.
Qed.

Lemma normalize_items_str t (f : string → string) (ks : list string) :
  normalize_items t ((λ name, (ArgStr name, ArgStr (f name))) <$> ks) =
  Ok ((λ name, (name, f name)) <$> ks).
Proof. induction ks as [|k ks IH]; [done|]. csimpl. by rewrite IH. Qed.

Lemma rename_items_keys {V} (f : string → string) (d : pydict V) :
  (λ name, (name, f name)) <$> PyDict.keys d =
  (λ kv : string * V, (kv.1, f kv.1)) <$> d.
Proof. induction d as [|[k v] d IH]; [done|]. csimpl. by f_equal. Qed.

Lemma rename_items_fst (f : string → string) (ks : list string) :
  ((λ name, (name, f name)) <$> ks).*1 = ks.
Proof. induction ks as [|k ks IH]; [done|]. csimpl. by f_equal. Qed.

Lemma rename_all_spec (h : heap) self t d (f : string → string) :
  slice_at h self d t → PyDict.wf d →
  rename self ((λ name, (ArgStr name, ArgStr (f name))) <$> PyDict.keys d) h
  = (Ok (S (length h)), h ++ [ODict (renamed f d); OSlice (length h) t]).
Proof.
  intros (m & Hs & Hm) Hwf.
  rewrite (rename_spec h self m t d) by done.
  rewrite normalize_items_str. cbn zeta.
  rewrite of_items_NoDup by by rewrite rename_items_fst.
  unfold PyDict.keys at 1. rewrite rename_items_fst.
  fold (PyDict.keys d).
  rewrite pop_dict_keys, rename_items_keys, set_dict_renaming; [done|].
  intros k v. by apply get_elem_of_wf.
Qed.

Lemma slice_keys_spec (h : heap) self t d :
  slice_at h self d t → slice_keys self h = (Ok (PyDict.keys d), h).
Proof.
  intros (m & Hs & Hm). unfold slice_keys.
  rewrite (bind_Ok _ _ _ _ _ (read_slice_Ok _ _ _ _ Hs)). simpl.
  by rewrite (bind_Ok _ _ _ _ _ (read_dict_Ok _ _ _ Hm)).
Qed.

(** C7.  Let [self] be a slice with mapping [d].  For a column name [c]
    that is not a key of [d], [self.without(c)] and
    [self.rename({c: new})] raise [KeyError].  For a key [c] of [d] both
    return a slice object that did not exist before, over a dict that did
    not exist before ([d] without [c], respectively with the column under
    [new] instead); [with_prefix] and [with_suffix] do the same for every
    key.  In all cases every object that existed before the call, the
    original slice and its mapping among them, is left as it was. *)
Theorem table_slice_without_rename
    (h : heap) (self : loc) (d : pydict ColumnReference) (t : TableRef)
    (col new_col : Arg) (c new : string) :
  slice_at h self d t →
  _normalize t col = Ok c →
  _normalize t new_col = Ok new →
  (c ∉ PyDict.keys d →
     (∃ h', without self [col] h = (Raise (KeyError (not_found c)), h') ∧
            unchanged h h') ∧
     (∃ h', rename self [(col, new_col)] h
              = (Raise (KeyError (not_found c)), h') ∧
            unchanged h h')) ∧
  (∀ v, PyDict.get d c = Some v →
     (∃ s h', without self [col] h = (Ok s, h') ∧
              new_slice h h' s (PyDict.pop d c) t) ∧
     (∃ s h', rename self [(col, new_col)] h = (Ok s, h') ∧
              new_slice h h' s (PyDict.set (PyDict.pop d c) new v) t)) ∧
  (PyDict.wf d → ∀ affix,
     (∃ s h', with_prefix self affix h = (Ok s, h') ∧
              new_slice h h' s (renamed (λ name, affix +:+ name) d) t) ∧
     (∃ s h', with_suffix self affix h = (Ok s, h') ∧
              new_slice h h' s (renamed (λ name, name +:+ affix) d) t)).
Proof.
  intros Hat Hc Hnew. pose proof Hat as (m & Hs & Hm).
  split; [|split].
  - intros Habs%contains_false. split.
    + rewrite (without_spec h self m t d) by done.
      cbn [without_dict]. rewrite Hc, Habs. cbn [negb].
      eexists. split; [done|apply unchanged_app].
    + rewrite (rename_spec h self m t d) by done.
      cbn [normalize_items]. rewrite Hc, Hnew. cbn [rbind].
      cbn [PyDict.of_items foldl PyDict.set fst snd PyDict.keys fmap
           list_fmap pop_dict].
      rewrite Habs. cbn [negb].
      eexists. split; [done|apply unchanged_app].
  - intros v Hv.
    assert (Hin : PyDict.contains d c = true).
    { apply contains_true, get_is_Some. eauto. }
    split.
    + rewrite (without_spec h self m t d) by done.
      cbn [without_dict]. rewrite Hc, Hin. cbn [negb].
      do 2 eexists. split; [done|apply new_slice_intro].
    + rewrite (rename_spec h self m t d) by done.
      cbn [normalize_items]. rewrite Hc, Hnew. cbn [rbind].
      cbn [PyDict.of_items foldl PyDict.set fst snd PyDict.keys fmap
           list_fmap pop_dict].
      rewrite Hin. cbn [negb set_dict]. rewrite Hv. cbn [set_dict].
      do 2 eexists. split; [done|apply new_slice_intro].
  - intros Hwf affix. split.
    + unfold with_prefix.
      rewrite (bind_Ok _ _ _ _ _ (slice_keys_spec _ _ _ _ Hat)).
      rewrite (rename_all_spec h self t d (λ name, affix +:+ name)) by done.
      do 2 eexists. split; [done|apply new_slice_intro].
    + unfold with_suffix.
      rewrite (bind_Ok _ _ _ _ _ (slice_keys_spec _ _ _ _ Hat)).
      rewrite (rename_all_spec h self t d (λ name, name +:+ affix)) by done.
      do 2 eexists. split; [done|apply new_slice_intro].
Qed.

(** The slice of the table of the error-message tests: columns [col]
    and [on]. *)
Definition tab : TableRef := thisclass.Table 1.

Definition tab_mapping : pydict ColumnReference :=
  [ ("col", {| _table := tab; _name := "col" |});
    ("on", {| _table := tab; _name := "on" |}) ].

Definition tab_heap : heap := [ODict tab_mapping; OSlice 0 tab].

Example without_foo :
  (without 1 [ArgStr "foo"] tab_heap).1 =
  Raise (KeyError "Column name 'foo' not found").
Proof. reflexivity. Qed.

Example rename_foo :
  (rename 1 [(ArgStr "foo", ArgStr "bar")] tab_heap).1 =
  Raise (KeyError "Column name 'foo' not found").
Proof. reflexivity. Qed.

Example without_with_suffix :
  (s ← without 1 [ArgStr "col"]; with_suffix s "_col") tab_heap =
  (Ok 5,
   tab_heap ++
   [ ODict [("on", {| _table := tab; _name := "on" |})]; OSlice 2 tab;
     ODict [("on_col", {| _table := tab; _name := "on" |})]; OSlice 4 tab ]).
Proof. reflexivity. Qed.

Lemma table_slice_without_rename_witness :
  (∃ h', without 1 [ArgStr "foo"] tab_heap
           = (Raise (KeyError (not_found "foo")), h') ∧
         unchanged tab_heap h') ∧
  (∃ s h', without 1 [ArgStr "col"] tab_heap = (Ok s, h') ∧
           new_slice tab_heap h' s (PyDict.pop tab_mapping "col") tab).
Proof.
  assert (Hat : slice_at tab_heap 1 tab_mapping tab)
    by (exists 0; split; reflexivity).
  split.
  - apply (proj1 (table_slice_without_rename tab_heap 1 tab_mapping tab
             (ArgStr "foo") (ArgStr "bar") "foo" "bar"
             Hat eq_refl eq_refl)).
    unfold PyDict.keys. simpl. intros H.
    apply elem_of_cons in H as [H|H]; [discriminate|].
    apply elem_of_cons in H as [H|H]; [discriminate|].
    by apply elem_of_nil in H.
  - apply (proj1 (proj2 (table_slice_without_rename tab_heap 1 tab_mapping
             tab (ArgStr "col") (ArgStr "bar") "col" "bar"
             Hat eq_refl eq_refl)) {| _table := tab; _name := "col" |}).
    reflexivity.
Defined.

(** ** Attribute access on a slice *)

Definition method_name_error (name : string) : string :=
  "'" +:+ name +:+
  "' is a method name. It is discouraged to use it as a column" +:+
  " name. If you really want to use it, use ['" +:+ name +:+ "'].".

(** [__getattr__] itself, whenever it is called. *)
Lemma getattr_hook_spec (hasattr_Table : string → bool)
    (h : heap) self d t name :
  slice_at h self d t →
  __getattr__ hasattr_Table self name h =
  if hasattr_Table name && bool_decide (name ≠ "id")
  then (Raise (ValueError (method_name_error name)), h)
  else match PyDict.get d name with
       | Some c => (Ok c, h)
       | None => (Raise (AttributeError (not_found name)), h)
       end.
Proof.
  intros (m & Hs & Hm). unfold __getattr__.
  destruct (hasattr_Table name && bool_decide (name ≠ "id")); [done|].
  rewrite (bind_Ok _ _ _ _ _ (read_slice_Ok _ _ _ _ Hs)). simpl.
  rewrite (bind_Ok _ _ _ _ _ (read_dict_Ok _ _ _ Hm)).
  destruct (PyDict.get d name) as [c|] eqn:Hg.
  - rewrite (proj2 (contains_true d name)); [done|].
    apply get_is_Some. eauto.
  - rewrite (proj2 (contains_false d name)); [done|]. by apply get_None.
Qed.

(** The regular lookup finds [name] on the slice or its class. *)
Definition resolved_by_TableSlice (inherited : string → bool)
    (name : string) : bool :=
  bool_decide (name ∈ TableSlice_fields ++ TableSlice_members)
  || inherited name.

(** C10, amended.  Let [name] be a name that the regular attribute
    lookup does not find on the slice (it is neither [_mapping] nor
    [_table], nor a member of the class such as [without], [rename],
    [keys] or [slice], nor inherited from [object]).  If [name] is an
    attribute of [Table] other than [id], [slice.name] raises the
    method-name [ValueError], also when the mapping has a column [name].
    Otherwise ([name] is [id] or no attribute of [Table]) [slice.name] is
    the column [name] of the mapping, and [AttributeError] when there is
    none.  A name the regular lookup does find never reaches the check. *)
Theorem table_slice_getattr
    (hasattr_Table inherited : string → bool)
    (h : heap) (self : loc) (d : pydict ColumnReference) (t : TableRef)
    (name : string) :
  slice_at h self d t →
  (resolved_by_TableSlice inherited name = false →
     (hasattr_Table name = true → name ≠ "id" →
        getattr hasattr_Table inherited self name h
          = (Raise (ValueError (method_name_error name)), h)) ∧
     (hasattr_Table name = false ∨ name = "id" →
        (∀ c, PyDict.get d name = Some c →
           getattr hasattr_Table inherited self name h = (Ok (Column c), h)) ∧
        (name ∉ PyDict.keys d →
           getattr hasattr_Table inherited self name h
             = (Raise (AttributeError (not_found name)), h)))) ∧
  (resolved_by_TableSlice inherited name = true →
     getattr hasattr_Table inherited self name h
       = (Ok (OwnAttribute name), h)).
Proof.
  intros Hat. unfold getattr. fold (resolved_by_TableSlice inherited name).
  split; intros ->; [|done].
  unfold mbind, M_bind. rewrite (getattr_hook_spec _ h self d t name Hat).
  split.
  - intros -> Hid. by rewrite bool_decide_eq_true_2.
  - intros Hno.
    assert (hasattr_Table name && bool_decide (name ≠ "id") = false) as ->.
    { destruct Hno as [->| ->]; [done|].
      rewrite bool_decide_eq_false_2; [apply andb_false_r|]. by intros H. }
    split.
    + by intros c ->.
    + intros Hn%get_None. by rewrite Hn.
Qed.

(** Attributes of [Table] that the sources show: [slice] (the docstring
    of [TableSlice] calls [t1.slice] on a table), [select] and [join]
    (rejected as method names in [test_error_messages.py]), [without] and
    [rename] (called on tables in [test_common.py]), and [id]. *)
Definition Table_attributes : list string :=
  [ "slice"; "select"; "join"; "without"; "rename"; "id" ].

Definition hasattr_Table_shown (name : string) : bool :=
  bool_decide (name ∈ Table_attributes).

Definition nothing_inherited (name : string) : bool := false.

Example getattr_select :
  (getattr hasattr_Table_shown nothing_inherited 1 "select" tab_heap).1 =
  Raise (ValueError
    "'select' is a method name. It is discouraged to use it as a column name. If you really want to use it, use ['select'].").
Proof. reflexivity. Qed.

Example getattr_on :
  (getattr hasattr_Table_shown nothing_inherited 1 "on" tab_heap).1 =
  Ok (Column {| _table := tab; _name := "on" |}).
Proof. reflexivity. Qed.

(** C10 as stated fails: [slice] is an attribute of [Table] and is not
    [id], a slice may even hold a column of that name, and yet
    [some_slice.slice] is the property of [TableSlice], not an error. *)
Lemma getattr_slice_not_rejected :
  ¬ (∀ (h : heap) self d t name,
       slice_at h self d t →
       hasattr_Table_shown name = true → name ≠ "id" →
       ∃ msg, (getattr hasattr_Table_shown nothing_inherited self name h).1
              = Raise (ValueError msg)).
Proof.
  intros H.
  destruct (H [ODict [("slice", {| _table := tab; _name := "slice" |})];
               OSlice 0 tab] 1
              [("slice", {| _table := tab; _name := "slice" |})] tab "slice")
    as [msg Hmsg].
  - exists 0. split; reflexivity.
  - reflexivity.
  - discriminate.
  - discriminate Hmsg.
Qed.

Lemma table_slice_getattr_witness :
  getattr hasattr_Table_shown nothing_inherited 1 "select" tab_heap
  = (Raise (ValueError (method_name_error "select")), tab_heap).
Proof.
  apply (proj1 (proj1 (table_slice_getattr hasattr_Table_shown
           nothing_inherited tab_heap 1 tab_mapping tab "select"
           (ex_intro _ 0 (conj eq_refl eq_refl))) eq_refl)).
  - reflexivity.
  - discriminate.
Defined.

(** ** The expression formatter *)

(** The local loops of [eval_expression], stand-alone. *)
Fixpoint eval_args (args : list ColumnExpression) : F (list string) :=
  match args with
  | [] => mret []
  | arg :: rest =>
      s ← eval_expression arg;
      ss ← eval_args rest;
      mret (s :: ss)
  end.

Fixpoint eval_kwargs (kwargs : list (string * ColumnExpression))
  : F (list string) :=
  match kwargs with
  | [] => mret []
  | (key, value) :: rest =>
      s ← eval_expression value;
      ss ← eval_kwargs rest;
      mret ((key +:+ "=" +:+ s) :: ss)
  end.

Definition _eval_args_kwargs (args : list ColumnExpression)
    (kwargs : list (string * ColumnExpression)) : F string :=
  a ← eval_args args;
  k ← eval_kwargs kwargs;
  mret (join_comma (a ++ k)).

(** Structural induction on expressions, with the hypothesis available
    for every element of an argument list. *)
Section ColumnExpression_induction.
Variable P : ColumnExpression → Prop.
Let Pargs (args : list ColumnExpression) : Prop := Forall P args.
Let Pkwargs (kwargs : list (string * ColumnExpression)) : Prop :=
  Forall (λ kv, P kv.2) kwargs.

Hypothesis H_ref : ∀ c, P (ColumnReferenceExpr c).
Hypothesis H_unary : ∀ op e, P e → P (ColumnUnaryOpExpression op e).
Hypothesis H_binary :
  ∀ op l r, P l → P r → P (ColumnBinaryOpExpression op l r).
Hypothesis H_const : ∀ v, P (ColumnConstExpression v).
Hypothesis H_reducer : ∀ r args, Pargs args → P (ReducerExpression r args).
Hypothesis H_reducer_ix :
  ∀ r args, Pargs args → P (ReducerIxExpression r args).
Hypothesis H_apply :
  ∀ f args kwargs, Pargs args → Pkwargs kwargs →
                   P (ApplyExpression f args kwargs).
Hypothesis H_async_apply :
  ∀ f args kwargs, Pargs args → Pkwargs kwargs →
                   P (AsyncApplyExpression f args kwargs).
Hypothesis H_numba_apply :
  ∀ f args kwargs, Pargs args → Pkwargs kwargs →
                   P (NumbaApplyExpression f args kwargs).
Hypothesis H_pointer :
  ∀ t args o, Pargs args → P (PointerExpression t args o).
Hypothesis H_ix : ∀ c keys o, P keys → P (ColumnIxExpression c keys o).
Hypothesis H_call :
  ∀ col args, P col → Pargs args → P (ColumnCallExpression col args).
Hypothesis H_cast : ∀ rt e, P e → P (CastExpression rt e).
Hypothesis H_declare : ∀ rt e, P e → P (DeclareTypeExpression rt e).
Hypothesis H_coalesce : ∀ args, Pargs args → P (CoalesceExpression args).
Hypothesis H_require :
  ∀ v args, P v → Pargs args → P (RequireExpression v args).
Hypothesis H_ifelse :
  ∀ i t e, P i → P t → P e → P (IfElseExpression i t e).
Hypothesis H_method :
  ∀ n obj args, P obj → Pargs args → P (MethodCallExpression n obj args).
Hypothesis H_tuple : ∀ args, Pargs args → P (MakeTupleExpression args).
Hypothesis H_get :
  ∀ obj i d chk, P obj → P i → P d → P (SequenceGetExpression obj i d chk).

Fixpoint ColumnExpression_ind' (e : ColumnExpression) : P e :=
  let all_args :=
    fix all_args (args : list ColumnExpression) : Forall P args :=
      match args with
      | [] => Forall_nil_2 P
      | a :: rest =>
          Forall_cons_2 P a rest (ColumnExpression_ind' a) (all_args rest)
      end in
  let all_kwargs :=
    fix all_kwargs (kwargs : list (string * ColumnExpression))
      : Forall (λ kv, P kv.2) kwargs :=
      match kwargs with
      | [] => Forall_nil_2 _
      | (k, v) :: rest =>
          Forall_cons_2 (λ kv, P kv.2) (k, v) rest
            (ColumnExpression_ind' v) (all_kwargs rest)
      end in
  match e with
  | ColumnReferenceExpr c => H_ref c
  | ColumnUnaryOpExpression op e => H_unary op e (ColumnExpression_ind' e)
  | ColumnBinaryOpExpression op l r =>
      H_binary op l r (ColumnExpression_ind' l) (ColumnExpression_ind' r)
  | ColumnConstExpression v => H_const v
  | ReducerExpression r args => H_reducer r args (all_args args)
  | ReducerIxExpression r args => H_reducer_ix r args (all_args args)
  | ApplyExpression f args kwargs =>
      H_apply f args kwargs (all_args args) (all_kwargs kwargs)
  | AsyncApplyExpression f args kwargs =>
      H_async_apply f args kwargs (all_args args) (all_kwargs kwargs)
  | NumbaApplyExpression f args kwargs =>
      H_numba_apply f args kwargs (all_args args) (all_kwargs kwargs)
  | PointerExpression t args o => H_pointer t args o (all_args args)
  | ColumnIxExpression c keys o => H_ix c keys o (ColumnExpression_ind' keys)
  | ColumnCallExpression col args =>
      H_call col args (ColumnExpression_ind' col) (all_args args)
  | CastExpression rt e => H_cast rt e (ColumnExpression_ind' e)
  | DeclareTypeExpression rt e => H_declare rt e (ColumnExpression_ind' e)
  | CoalesceExpression args => H_coalesce args (all_args args)
  | RequireExpression v args =>
      H_require v args (ColumnExpression_ind' v) (all_args args)
  | IfElseExpression i t e =>
      H_ifelse i t e (ColumnExpression_ind' i) (ColumnExpression_ind' t)
        (ColumnExpression_ind' e)
  | MethodCallExpression n obj args =>
      H_method n obj args (ColumnExpression_ind' obj) (all_args args)
  | MakeTupleExpression args => H_tuple args (all_args args)
  | SequenceGetExpression obj i d chk =>
      H_get obj i d chk (ColumnExpression_ind' obj)
        (ColumnExpression_ind' i) (ColumnExpression_ind' d)
  end.
End ColumnExpression_induction.

Lemma eval_expression_eq (expression : ColumnExpression) :
  eval_expression expression =
  match expression with
  | ColumnReferenceExpr c =>
      n ← table_number (_table c);
      mret (table_label n +:+ "." +:+ _name c)
  | ColumnUnaryOpExpression op e =>
      uexpr ← eval_expression e;
      mret ("(" +:+ operator_symbol op +:+ uexpr +:+ ")")
  | ColumnBinaryOpExpression op l r =>
      lexpr ← eval_expression l;
      rexpr ← eval_expression r;
      mret ("(" +:+ lexpr +:+ " " +:+ operator_symbol op +:+ " " +:+
            rexpr +:+ ")")
  | ColumnConstExpression v => eval_const v
  | ReducerExpression reducer args
  | ReducerIxExpression reducer args =>
      args ← _eval_args_kwargs args [];
      mret ("pathway.reducers." +:+ lstrip_underscore reducer +:+
            "(" +:+ args +:+ ")")
  | ApplyExpression f args kwargs =>
      args ← _eval_args_kwargs args kwargs;
      mret ("pathway.apply(" +:+ f +:+ ", " +:+ args +:+ ")")
  | AsyncApplyExpression f args kwargs =>
      args ← _eval_args_kwargs args kwargs;
      mret ("pathway.apply_async(" +:+ f +:+ ", " +:+ args +:+ ")")
  | NumbaApplyExpression f args kwargs =>
      args ← _eval_args_kwargs args kwargs;
      mret ("pathway.numba_apply(" +:+ f +:+ ", " +:+ args +:+ ")")
  | PointerExpression table args optional =>
      a ← eval_args args;
      k ← (if optional
           then s ← eval_const (PyBool true); mret ["optional=" +:+ s]
           else mret []);
      n ← table_number table;
      mret (table_label n +:+ ".pointer_from(" +:+ join_comma (a ++ k)
            +:+ ")")
  | ColumnIxExpression column keys optional =>
      key ← eval_expression keys;
      n ← table_number (_table column);
      mret (table_label n +:+ ".ix(" +:+
            join_comma (if optional then [key; "optional=True"] else [key])
            +:+ ")." +:+ _name column)
  | ColumnCallExpression col args =>
      args ← _eval_args_kwargs args [];
      c ← eval_expression col;
      mret (c +:+ "(" +:+ args +:+ ")")
  | CastExpression rt e =>
      uexpr ← eval_expression e;
      mret ("pathway.cast(" +:+ _type_name rt +:+ ", " +:+ uexpr +:+ ")")
  | DeclareTypeExpression rt e =>
      uexpr ← eval_expression e;
      mret ("pathway.declare_type(" +:+ _type_name rt +:+ ", " +:+
            uexpr +:+ ")")
  | CoalesceExpression args =>
      args ← _eval_args_kwargs args [];
      mret ("pathway.coalesce(" +:+ args +:+ ")")
  | RequireExpression val args =>
      args ← _eval_args_kwargs (val :: args) [];
      mret ("pathway.require(" +:+ args +:+ ")")
  | IfElseExpression i t e =>
      args ← _eval_args_kwargs [i; t; e] [];
      mret ("pathway.if_else(" +:+ args +:+ ")")
  | MethodCallExpression name obj args =>
      object_ ← eval_expression obj;
      args ← _eval_args_kwargs args [];
      mret ("(" +:+ object_ +:+ ")." +:+ name +:+ "(" +:+ args +:+ ")")
  | MakeTupleExpression args =>
      args ← _eval_args_kwargs args [];
      mret ("pathway.make_tuple(" +:+ args +:+ ")")
  | SequenceGetExpression obj index dflt check_if_exists =>
      object ← eval_expression obj;
      if check_if_exists
      then args_formatted ← _eval_args_kwargs [index; dflt] [];
           mret ("(" +:+ object +:+ ").get(" +:+ args_formatted +:+ ")")
      else args_formatted ← _eval_args_kwargs [index] [];
           mret ("(" +:+ object +:+ ")[" +:+ args_formatted +:+ "]")
  end.
Proof. by destruct expression. Qed.

(** [s'] knows every table [s] knows, under the same number. *)
Definition extends (s s' : ExpressionFormatter) : Prop :=
  ∀ t n, numbers_get (table_numbers s) t = Some n →
         numbers_get (table_numbers s') t = Some n.

(** A method whose result is settled by the numbers it has assigned:
    running it again in any later state gives the same result and
    changes nothing. *)
Definition stable {A} (c : F A) : Prop :=
  ∀ s a s', c s = (a, s') →
    extends s s' ∧ ∀ s2, extends s' s2 → c s2 = (a, s2).

Create HintDb fmt.

Lemma extends_refl s : extends s s.
Proof. by intros t n. Qed.

Lemma extends_trans s1 s2 s3 : extends s1 s2 → extends s2 s3 → extends s1 s3.
Proof. intros H1 H2 t n Hn. by apply H2, H1. Qed.

Lemma numbers_get_app d d' t :
  numbers_get (d ++ d') t =
  match numbers_get d t with
  | Some n => Some n
  | None => numbers_get d' t
  end.
Proof.
  induction d as [|[t' n'] d IH]; simpl; [done|].
  by destruct (decide (t' = t)).
Qed.

Lemma stable_ret {A} (a : A) : stable (mret a : F A).
Proof.
  intros s a' s' [= <- <-]. split; [apply extends_refl|done].
Qed.

Lemma stable_bind {A B} (m : F A) (f : A → F B) :
  stable m → (∀ a, stable (f a)) → stable (m ≫= f).
Proof.
  intros Hm Hf s b s'. unfold mbind, F_bind.
  destruct (m s) as [a s1] eqn:Hms. intros Hfs.
  destruct (Hm _ _ _ Hms) as [He1 Hm2].
  destruct (Hf a _ _ _ Hfs) as [He2 Hf2].
  split; [by eapply extends_trans|].
  intros s2 He. rewrite Hm2 by by eapply extends_trans. by apply Hf2.
Qed.

Lemma stable_table_number t : stable (table_number t).
Proof.
  intros s n s'. unfold table_number.
  destruct (numbers_get (table_numbers s) t) as [k|] eqn:Hg.
  - intros [= <- <-]. split; [apply extends_refl|].
    intros s2 He. by rewrite (He _ _ Hg).
  - intros [= <- <-]. split.
    + intros t' n' Hn'. simpl. by rewrite numbers_get_app, Hn'.
    + intros s2 He. rewrite (He t (table_counter s)); [done|].
      simpl. rewrite numbers_get_app, Hg. simpl. by rewrite decide_True.
Qed.

Lemma stable_eval_const v : stable (eval_const v).
Proof. apply stable_ret. Qed.

#[local] Hint Resolve stable_ret stable_table_number stable_eval_const : fmt.

Lemma stable_eval_args args :
  Forall (λ e, stable (eval_expression e)) args → stable (eval_args args).
Proof.
  induction 1 as [|e args He _ IH]; simpl; [apply stable_ret|].
  apply stable_bind; [done|]. intros s.
  apply stable_bind; [done|]. intros ss. apply stable_ret.
Qed.

Lemma stable_eval_kwargs kwargs :
  Forall (λ kv, stable (eval_expression kv.2)) kwargs →
  stable (eval_kwargs kwargs).
Proof.
  induction 1 as [|[k e] kwargs He _ IH]; simpl; [apply stable_ret|].
  apply stable_bind; [done|]. intros s.
  apply stable_bind; [done|]. intros ss. apply stable_ret.
Qed.

Lemma stable_eval_args_kwargs args kwargs :
  Forall (λ e, stable (eval_expression e)) args →
  Forall (λ kv, stable (eval_expression kv.2)) kwargs →
  stable (_eval_args_kwargs args kwargs).
Proof.
  intros Ha Hk. unfold _eval_args_kwargs.
  apply stable_bind; [by apply stable_eval_args|]. intros a.
  apply stable_bind; [by apply stable_eval_kwargs|]. intros k.
  apply stable_ret.
Qed.

#[local] Hint Resolve stable_eval_args stable_eval_kwargs
  stable_eval_args_kwargs : fmt.
#[local] Hint Constructors Forall : fmt.

Ltac stable_solve :=
  first
    [ solve [eauto 6 with fmt]
    | apply stable_bind; [stable_solve|intros ?; stable_solve]
    | match goal with
      | |- stable (if ?b then _ else _) => destruct b; stable_solve
      end ].

Lemma stable_eval_expression e : stable (eval_expression e).
Proof.
  induction e using ColumnExpression_ind'; rewrite eval_expression_eq;
    stable_solve.
Qed.

(** The tables an expression makes the formatter look up, in the order
    of the lookups. *)
Fixpoint tables_of (expression : ColumnExpression) : list TableRef :=
  let of_args := λ args, concat (tables_of <$> args) in
  let of_kwargs := λ kwargs : list (string * ColumnExpression),
    concat ((λ kv, let '(_, v) := kv in tables_of v) <$> kwargs) in
  match expression with
  | ColumnReferenceExpr c => [_table c]
  | ColumnUnaryOpExpression _ e => tables_of e
  | ColumnBinaryOpExpression _ l r => tables_of l ++ tables_of r
  | ColumnConstExpression _ => []
  | ReducerExpression _ args | ReducerIxExpression _ args => of_args args
  | ApplyExpression _ args kwargs
  | AsyncApplyExpression _ args kwargs
  | NumbaApplyExpression _ args kwargs => of_args args ++ of_kwargs kwargs
  | PointerExpression table args _ => of_args args ++ [table]
  | ColumnIxExpression column keys _ => tables_of keys ++ [_table column]
  | ColumnCallExpression col args => of_args args ++ tables_of col
  | CastExpression _ e | DeclareTypeExpression _ e => tables_of e
  | CoalesceExpression args => of_args args
  | RequireExpression val args => tables_of val ++ of_args args
  | IfElseExpression i t e => tables_of i ++ tables_of t ++ tables_of e
  | MethodCallExpression _ obj args => tables_of obj ++ of_args args
  | MakeTupleExpression args => of_args args
  | SequenceGetExpression obj index dflt check_if_exists =>
      tables_of obj ++ tables_of index ++
      (if check_if_exists then tables_of dflt else [])
  end.

Definition tables_of_args (args : list ColumnExpression) : list TableRef :=
  concat (tables_of <$> args).

Definition tables_of_kwargs (kwargs : list (string * ColumnExpression))
  : list TableRef :=
  concat ((λ kv, let '(_, v) := kv in tables_of v) <$> kwargs).

(** The distinct tables, each at its first encounter. *)
Definition first_encounters (ts : list TableRef) : list TableRef :=
  foldl (λ acc t, if bool_decide (t ∈ acc) then acc else acc ++ [t]) [] ts.

Definition distinct_tables (expression : ColumnExpression) : list TableRef :=
  first_encounters (tables_of expression).

(** Numbers 1, 2, ... along a list of tables. *)
Definition numbered (ts : list TableRef) : list (TableRef * nat) :=
  zip ts (seq 1 (length ts)).

(** The state after one lookup. *)
Definition touch (s : ExpressionFormatter) (t : TableRef)
  : ExpressionFormatter := (table_number t s).2.

(** A method that looks up exactly the tables [ts], in this order. *)
Definition tracks {A} (c : F A) (ts : list TableRef) : Prop :=
  ∀ s, (c s).2 = foldl touch s ts.

Lemma tracks_ret {A} (a : A) : tracks (mret a : F A) [].
Proof. done. Qed.

Lemma tracks_bind {A B} (m : F A) (f : A → F B) ts1 ts2 :
  tracks m ts1 → (∀ a, tracks (f a) ts2) → tracks (m ≫= f) (ts1 ++ ts2).
Proof.
  intros Hm Hf s. unfold mbind, F_bind. rewrite foldl_app, <-Hm.
  destruct (m s) as [a s1]. apply Hf.
Qed.

Lemma tracks_table_number t : tracks (table_number t) [t].
Proof. done. Qed.

Lemma tracks_eq {A} (c : F A) ts ts' : tracks c ts → ts = ts' → tracks c ts'.
Proof. by intros H <-. Qed.

Lemma tracks_eval_args args :
  Forall (λ e, tracks (eval_expression e) (tables_of e)) args →
  tracks (eval_args args) (tables_of_args args).
Proof.
  unfold tables_of_args.
  induction 1 as [|e args He _ IH]; csimpl; [apply tracks_ret|].
  apply tracks_bind; [done|]. intros s.
  eapply tracks_eq.
  - apply tracks_bind; [exact IH|]. intros ss. apply tracks_ret.
  - apply app_nil_r.
Qed.

Lemma tracks_eval_kwargs kwargs :
  Forall (λ kv, tracks (eval_expression kv.2) (tables_of kv.2)) kwargs →
  tracks (eval_kwargs kwargs) (tables_of_kwargs kwargs).
Proof.
  unfold tables_of_kwargs.
  induction 1 as [|[k e] kwargs He _ IH]; csimpl; [apply tracks_ret|].
  apply tracks_bind; [done|]. intros s.
  eapply tracks_eq.
  - apply tracks_bind; [exact IH|]. intros ss. apply tracks_ret.
  - apply app_nil_r.
Qed.

Lemma tracks_eval_args_kwargs args kwargs :
  Forall (λ e, tracks (eval_expression e) (tables_of e)) args →
  Forall (λ kv, tracks (eval_expression kv.2) (tables_of kv.2)) kwargs →
  tracks (_eval_args_kwargs args kwargs)
         (tables_of_args args ++ tables_of_kwargs kwargs).
Proof.
  intros Ha Hk. unfold _eval_args_kwargs.
  apply tracks_bind; [by apply tracks_eval_args|]. intros a.
  eapply tracks_eq.
  - apply tracks_bind; [by apply tracks_eval_kwargs|]. intros k.
    apply tracks_ret.
  - apply app_nil_r.
Qed.

#[local] Hint Resolve tracks_ret tracks_table_number tracks_eval_args
  tracks_eval_kwargs tracks_eval_args_kwargs : fmt.

Ltac tracks_solve :=
  first
    [ solve [eauto 6 with fmt]
    | eapply tracks_bind; [tracks_solve|intros ?; tracks_solve]
    | match goal with
      | |- tracks (if ?b then _ else _) _ => destruct b; tracks_solve
      end ].

Lemma tracks_eval_expression e : tracks (eval_expression e) (tables_of e).
Proof.
  induction e using ColumnExpression_ind'; rewrite eval_expression_eq;
    cbn [tables_of];
    try match goal with b : bool |- _ => destruct b end;
    (eapply tracks_eq;
       [tracks_solve
       |unfold tables_of_args, tables_of_kwargs; csimpl;
        rewrite ?app_nil_r, <-?app_assoc; try done]).
Qed.

(** The formatter that has seen exactly the tables [acc]. *)
Definition formatter_after (acc : list TableRef) : ExpressionFormatter :=
  {| table_counter := S (length acc); table_numbers := numbered acc |}.

Lemma numbered_snoc acc t :
  numbered (acc ++ [t]) = numbered acc ++ [(t, S (length acc))].
Proof.
  unfold numbered. rewrite length_app. simpl.
  rewrite seq_app. simpl.
  rewrite zip_with_app by by rewrite length_seq. done.
Qed.

Lemma numbers_get_zip_None ts ns t :
  t ∉ ts → numbers_get (zip ts ns) t = None.
Proof.
  revert ns. induction ts as [|t' ts IH]; intros [|n ns] Hn; simpl; try done.
  apply not_elem_of_cons in Hn as [Hne Hn].
  rewrite decide_False by done. by apply IH.
Qed.

Lemma numbers_get_zip_Some ts a i t :
  NoDup ts → ts !! i = Some t →
  numbers_get (zip ts (seq a (length ts))) t = Some (a + i).
Proof.
  intros Hnd. revert a i.
  induction Hnd as [|t' ts Hnotin Hnd IH]; intros a i Hi; [done|].
  simpl. destruct i as [|i]; simpl in Hi.
  - injection Hi as ->. rewrite decide_True by done. f_equal. lia.
  - rewrite decide_False.
    + rewrite (IH (S a) i Hi). f_equal. lia.
    + intros ->. apply Hnotin. by eapply list_elem_of_lookup_2.
Qed.

Lemma touch_formatter_after acc t :
  touch (formatter_after acc) t =
  formatter_after (if bool_decide (t ∈ acc) then acc else acc ++ [t]).
Proof.
  unfold touch, table_number. simpl.
  case_bool_decide as Hin.
  - destruct (list_elem_of_lookup_1 _ _ Hin) as [i Hi].
    destruct (numbers_get (numbered acc) t) eqn:Hg; [done|].
    exfalso. clear -Hin Hg. unfold numbered in Hg.
    revert Hg. generalize 1.
    induction acc as [|t' acc IH]; intros a; simpl.
    + by apply elem_of_nil in Hin.
    + destruct (decide (t' = t)); [done|].
      apply IH. apply elem_of_cons in Hin as [->|Hin]; done.
  - unfold numbered at 1. rewrite numbers_get_zip_None by done. simpl.
    unfold formatter_after. rewrite numbered_snoc, length_app. simpl.
    f_equal. lia.
Qed.

Lemma foldl_touch_formatter_after ts acc :
  foldl touch (formatter_after acc) ts =
  formatter_after
    (foldl (λ acc t, if bool_decide (t ∈ acc) then acc else acc ++ [t])
           acc ts).
Proof.
  revert acc. induction ts as [|t ts IH]; intros acc; simpl; [done|].
  by rewrite touch_formatter_after, IH.
Qed.

Lemma first_encounters_NoDup ts : NoDup (first_encounters ts).
Proof.
  unfold first_encounters.
  enough (∀ acc, NoDup acc →
            NoDup (foldl (λ acc t, if bool_decide (t ∈ acc) then acc
                                   else acc ++ [t]) acc ts))
    as H by (apply H, NoDup_nil_2).
  induction ts as [|t ts IH]; intros acc Hacc; simpl; [done|].
  apply IH. case_bool_decide as Hin; [done|].
  apply NoDup_app. split; [done|]. split; [|apply NoDup_singleton].
  by intros x Hx ->%list_elem_of_singleton.
Qed.

(** *** The text that is printed *)

(** The text of an expression in which table [t] is called number
    [num t]: a table is written [<tableN>] with [N] its number, and the
    arguments of a node are separated by a comma and a space. *)
Definition commas (parts : list string) : string := String.concat ", " parts.

Fixpoint render (num : TableRef → nat) (expression : ColumnExpression)
  : string :=
  let table := λ t, "<table" +:+ pretty (num t) +:+ ">" in
  let of_args := λ args, render num <$> args in
  let of_kwargs := λ kwargs : list (string * ColumnExpression),
    (λ kv, let '(key, value) := kv in key +:+ "=" +:+ render num value)
      <$> kwargs in
  match expression with
  | ColumnReferenceExpr c => table (_table c) +:+ "." +:+ _name c
  | ColumnUnaryOpExpression op e =>
      "(" +:+ operator_symbol op +:+ render num e +:+ ")"
  | ColumnBinaryOpExpression op l r =>
      "(" +:+ render num l +:+ " " +:+ operator_symbol op +:+ " " +:+
      render num r +:+ ")"
  | ColumnConstExpression v => py_repr v
  | ReducerExpression reducer args | ReducerIxExpression reducer args =>
      "pathway.reducers." +:+ lstrip_underscore reducer +:+
      "(" +:+ commas (of_args args) +:+ ")"
  | ApplyExpression f args kwargs =>
      "pathway.apply(" +:+ f +:+ ", " +:+
      commas (of_args args ++ of_kwargs kwargs) +:+ ")"
  | AsyncApplyExpression f args kwargs =>
      "pathway.apply_async(" +:+ f +:+ ", " +:+
      commas (of_args args ++ of_kwargs kwargs) +:+ ")"
  | NumbaApplyExpression f args kwargs =>
      "pathway.numba_apply(" +:+ f +:+ ", " +:+
      commas (of_args args ++ of_kwargs kwargs) +:+ ")"
  | PointerExpression t args optional =>
      table t +:+ ".pointer_from(" +:+
      commas (of_args args ++ if optional then ["optional=True"] else [])
      +:+ ")"
  | ColumnIxExpression column keys optional =>
      table (_table column) +:+ ".ix(" +:+
      commas (render num keys :: if optional then ["optional=True"] else [])
      +:+ ")." +:+ _name column
  | ColumnCallExpression col args =>
      render num col +:+ "(" +:+ commas (of_args args) +:+ ")"
  | CastExpression rt e =>
      "pathway.cast(" +:+ _type_name rt +:+ ", " +:+ render num e +:+ ")"
  | DeclareTypeExpression rt e =>
      "pathway.declare_type(" +:+ _type_name rt +:+ ", " +:+
      render num e +:+ ")"
  | CoalesceExpression args =>
      "pathway.coalesce(" +:+ commas (of_args args) +:+ ")"
  | RequireExpression val args =>
      "pathway.require(" +:+ commas (render num val :: of_args args) +:+ ")"
  | IfElseExpression i t e =>
      "pathway.if_else(" +:+
      commas [render num i; render num t; render num e] +:+ ")"
  | MethodCallExpression name obj args =>
      "(" +:+ render num obj +:+ ")." +:+ name +:+
      "(" +:+ commas (of_args args) +:+ ")"
  | MakeTupleExpression args =>
      "pathway.make_tuple(" +:+ commas (of_args args) +:+ ")"
  | SequenceGetExpression obj index dflt check_if_exists =>
      if check_if_exists
      then "(" +:+ render num obj +:+ ").get(" +:+
           commas [render num index; render num dflt] +:+ ")"
      else "(" +:+ render num obj +:+ ")[" +:+
           commas [render num index] +:+ "]"
  end.

Definition render_args (num : TableRef → nat)
    (args : list ColumnExpression) : list string :=
  render num <$> args.

Definition render_kwargs (num : TableRef → nat)
    (kwargs : list (string * ColumnExpression)) : list string :=
  (λ kv, let '(key, value) := kv in key +:+ "=" +:+ render num value)
    <$> kwargs.

(** The place of a table in a list, counted from 0. *)
Fixpoint position (ts : list TableRef) (t : TableRef) : nat :=
  match ts with
  | [] => 0
  | t' :: ts' => if decide (t' = t) then 0 else S (position ts' t)
  end.

(** The number of a table that is met in the order [ts]. *)
Definition number_in (ts : list TableRef) (t : TableRef) : nat :=
  S (position ts t).

(** [num] gives every table the formatter knows the number the formatter
    has for it. *)
Definition agrees (num : TableRef → nat) (s : ExpressionFormatter) : Prop :=
  ∀ t n, numbers_get (table_numbers s) t = Some n → num t = n.

(** A method whose result is the pure function [f] of the numbers the
    formatter ends up with. *)
Definition renders {A} (c : F A) (f : (TableRef → nat) → A) : Prop :=
  ∀ s a s', c s = (a, s') → ∀ num, agrees num s' → a = f num.

Lemma agrees_extends num s s' : extends s s' → agrees num s' → agrees num s.
Proof. intros He Ha t n Hn. by apply Ha, He. Qed.

Lemma renders_ext {A} (c : F A) f h :
  renders c f → (∀ num, h num = f num) → renders c h.
Proof. intros Hc Hf s a s' Hs num Hnum. rewrite Hf. by eapply Hc. Qed.

Lemma renders_ret {A} (a : A) : renders (mret a : F A) (λ _, a).
Proof. by intros s a' s' [= <- <-]. Qed.

Lemma renders_bind {A B} (m : F A) (k : A → F B) f g h :
  renders m f → (∀ a, stable (k a)) → (∀ a, renders (k a) (g a)) →
  (∀ num, h num = g (f num) num) →
  renders (m ≫= k) h.
Proof.
  intros Hm Hs Hk Hh s b s'. unfold mbind, F_bind.
  destruct (m s) as [a s1] eqn:Hms. intros Hks num Hnum.
  destruct (Hs a _ _ _ Hks) as [He _].
  rewrite Hh, <- (Hm _ _ _ Hms num (agrees_extends _ _ _ He Hnum)).
  by eapply Hk.
Qed.

Lemma renders_table_number t : renders (table_number t) (λ num, num t).
Proof.
  intros s n s'. unfold table_number.
  destruct (numbers_get (table_numbers s) t) as [k|] eqn:Hg.
  - intros [= <- <-] num Hnum. symmetry. by apply Hnum.
  - intros [= <- <-] num Hnum. symmetry. apply Hnum. simpl.
    rewrite numbers_get_app, Hg. simpl. by rewrite decide_True.
Qed.

Lemma renders_eval_const v : renders (eval_const v) (λ _, py_repr v).
Proof. apply renders_ret. Qed.

Lemma stable_eval_args_all args : stable (eval_args args).
Proof.
  apply stable_eval_args, Forall_forall. intros e _.
  apply stable_eval_expression.
Qed.

Lemma stable_eval_kwargs_all kwargs : stable (eval_kwargs kwargs).
Proof.
  apply stable_eval_kwargs, Forall_forall. intros e _.
  apply stable_eval_expression.
Qed.

Lemma stable_eval_args_kwargs_all args kwargs :
  stable (_eval_args_kwargs args kwargs).
Proof.
  apply stable_eval_args_kwargs; apply Forall_forall; intros e _;
    apply stable_eval_expression.
Qed.

#[local] Hint Resolve stable_eval_expression stable_eval_args_all
  stable_eval_kwargs_all stable_eval_args_kwargs_all : fmt.
#[local] Hint Resolve renders_ret renders_table_number renders_eval_const
  : fmt.

(** Runs through a chain of binds: each step is rendered by a lemma or a
    hypothesis, and the function of the whole is read off at the end. *)
Ltac renders_solve :=
  first
    [ eapply renders_bind;
        [first [solve [eauto 6 with fmt]|renders_solve]
        |intros ?; stable_solve
        |intros ?; cbn beta; renders_solve
        |intros ?; reflexivity]
    | eapply renders_ext; [solve [eauto 6 with fmt]|intros ?; reflexivity] ].

Lemma renders_eval_args args :
  Forall (λ e, renders (eval_expression e) (λ num, render num e)) args →
  renders (eval_args args) (λ num, render_args num args).
Proof.
  induction 1 as [|e args He _ IH]; simpl; [apply renders_ret|].
  eapply renders_ext; [renders_solve|done].
Qed.

Lemma renders_eval_kwargs kwargs :
  Forall (λ kv, renders (eval_expression kv.2) (λ num, render num kv.2))
         kwargs →
  renders (eval_kwargs kwargs) (λ num, render_kwargs num kwargs).
Proof.
  induction 1 as [|[k e] kwargs He _ IH]; simpl; [apply renders_ret|].
  eapply renders_ext; [renders_solve|done].
Qed.

Lemma renders_eval_args_kwargs args kwargs :
  Forall (λ e, renders (eval_expression e) (λ num, render num e)) args →
  Forall (λ kv, renders (eval_expression kv.2) (λ num, render num kv.2))
         kwargs →
  renders (_eval_args_kwargs args kwargs)
          (λ num, commas (render_args num args ++ render_kwargs num kwargs)).
Proof.
  intros Ha%renders_eval_args Hk%renders_eval_kwargs.
  unfold _eval_args_kwargs.
  eapply renders_ext; [renders_solve|done].
Qed.

#[local] Hint Resolve renders_eval_args renders_eval_kwargs
  renders_eval_args_kwargs : fmt.

(** Whatever the formatter knew before, the text it returns is the
    rendering of the expression under the numbers it ends up with. *)
Lemma renders_eval_expression e :
  renders (eval_expression e) (λ num, render num e).
Proof.
  induction e using ColumnExpression_ind'; rewrite eval_expression_eq;
    try match goal with b : bool |- _ => destruct b end;
    (eapply renders_ext;
       [renders_solve
       |intros num; cbn [render]; fold (render_args num);
        unfold render_kwargs, render_args; csimpl;
        rewrite ?app_nil_r; reflexivity]).
Qed.

Lemma numbers_get_zip_position ts a t n :
  numbers_get (zip ts (seq a (length ts))) t = Some n →
  n = a + position ts t.
Proof.
  revert a. induction ts as [|t' ts IH]; intros a; simpl; [done|].
  destruct (decide (t' = t)).
  - intros [= <-]. lia.
  - intros Hn%IH. lia.
Qed.

Lemma agrees_formatter_after acc :
  agrees (number_in acc) (formatter_after acc).
Proof.
  intros t n Hn. apply numbers_get_zip_position in Hn.
  unfold number_in. lia.
Qed.

Lemma position_lookup ts i t :
  NoDup ts → ts !! i = Some t → position ts t = i.
Proof.
  intros Hnd. revert i.
  induction Hnd as [|t' ts Hnotin Hnd IH]; intros i Hi; [done|].
  simpl. destruct i as [|i]; simpl in Hi.
  - injection Hi as ->. by rewrite decide_True.
  - rewrite decide_False.
    + by rewrite (IH i Hi).
    + intros ->. apply Hnotin. by eapply list_elem_of_lookup_2.
Qed.

(** The tables met when [ts] are looked up after [acc]. *)
Definition encounters_after (acc ts : list TableRef) : list TableRef :=
  foldl (λ acc t, if bool_decide (t ∈ acc) then acc else acc ++ [t]) acc ts.

(** Formatting in a formatter that has met the tables [acc]. *)
Lemma eval_expression_after acc e :
  eval_expression e (formatter_after acc) =
  (render (number_in (encounters_after acc (tables_of e))) e,
   formatter_after (encounters_after acc (tables_of e))).
Proof.
  destruct (eval_expression e (formatter_after acc)) as [out s'] eqn:He.
  assert (Hs : s' = formatter_after (encounters_after acc (tables_of e))).
  { change s' with (out, s').2. rewrite <- He.
    rewrite tracks_eval_expression. apply foldl_touch_formatter_after. }
  subst s'. f_equal.
  eapply (renders_eval_expression e); [exact He|].
  apply agrees_formatter_after.
Qed.

Lemma string_app_assoc (a b c : string) :
  (a +:+ b) +:+ c = a +:+ (b +:+ c).
Proof.
  induction a as [|x a IH]; [done|].
  change (String x ((a +:+ b) +:+ c) = String x (a +:+ (b +:+ c))).
  by rewrite IH.
Qed.

(** C9.  Formatting an expression a second time with the same formatter
    gives the same text and leaves the table numbers as they are.  In a
    new formatter the text is the rendering of the expression in which
    each table is written [<tableN>], [N] being 1, 2, ... for the
    distinct tables in the order in which the formatter first meets them
    (the [i]-th of them, counting from 0, gets [i + 1]), and the formatter
    ends up knowing these tables under these numbers.  The numbers belong
    to the formatter: an expression formatted after another one with the
    same formatter continues the numbering of the first, while
    [get_expression_info], which makes a formatter of its own, always
    starts again at 1. *)
Theorem formatting_is_stable (expression : ColumnExpression) :
  (∀ f out f',
     eval_expression expression f = (out, f') →
     eval_expression expression f' = (out, f')) ∧
  eval_expression expression ExpressionFormatter_init =
    (render (number_in (distinct_tables expression)) expression,
     {| table_counter := S (length (distinct_tables expression));
        table_numbers :=
          zip (distinct_tables expression)
              (seq 1 (length (distinct_tables expression))) |}) ∧
  NoDup (distinct_tables expression) ∧
  (∀ t, t ∈ distinct_tables expression ↔ t ∈ tables_of expression) ∧
  (∀ i t, distinct_tables expression !! i = Some t →
          number_in (distinct_tables expression) t = S i) ∧
  (∀ earlier,
     let met := first_encounters (tables_of earlier ++ tables_of expression)
     in (_ ← eval_expression earlier; eval_expression expression)
          ExpressionFormatter_init
        = (render (number_in met) expression, formatter_after met)) ∧
  (∀ table_trace expression_trace text,
     get_expression_info table_trace expression_trace expression = Ok text →
     ∃ rest,
       text = render (number_in (distinct_tables expression)) expression
              +:+ ",
" +:+ rest).
Proof.
  assert (Hinit : eval_expression expression ExpressionFormatter_init =
                  (render (number_in (distinct_tables expression)) expression,
                   formatter_after (distinct_tables expression)))
    by apply (eval_expression_after []).
  split; [|split; [|split; [|split; [|split; [|split]]]]].
  - intros f out f' Hf.
    destruct (stable_eval_expression expression _ _ _ Hf) as [_ Hs].
    apply Hs, extends_refl.
  - exact Hinit.
  - apply first_encounters_NoDup.
  - intros t. unfold distinct_tables, first_encounters.
    enough (∀ acc, t ∈ encounters_after acc (tables_of expression) ↔
                   t ∈ acc ∨ t ∈ tables_of expression) as H.
    { unfold encounters_after in H. rewrite H, elem_of_nil. tauto. }
    induction (tables_of expression) as [|t' ts IH]; intros acc; simpl.
    + rewrite elem_of_nil. tauto.
    + fold (encounters_after
              (if bool_decide (t' ∈ acc) then acc else acc ++ [t']) ts).
      rewrite IH, elem_of_cons. case_bool_decide as Hin.
      * split; [tauto|]. intros [?|[->|?]]; tauto.
      * rewrite elem_of_app, list_elem_of_singleton. tauto.
  - intros i t Hi. unfold number_in. f_equal.
    apply position_lookup; [apply first_encounters_NoDup|done].
  - intros earlier met. unfold mbind, F_bind.
    change ExpressionFormatter_init with (formatter_after []).
    rewrite (eval_expression_after [] earlier), eval_expression_after.
    unfold met, first_encounters, encounters_after.
    by rewrite foldl_app.
  - intros table_trace expression_trace text.
    unfold get_expression_info. rewrite Hinit.
    destruct (print_table_infos _ _) as [tabnames|err]; [|done].
    intros [= <-]. eexists. unfold nl.
    rewrite string_app_assoc. reflexivity.
Qed.

(** ** Examples of formatting *)

Definition plus : Operator := {| _symbol := Some "+"; op_name := "add" |}.

Definition col (t : nat) (name : string) : ColumnExpression :=
  ColumnReferenceExpr {| _table := thisclass.Table t; _name := name |}.

Example format_binary :
  (eval_expression (ColumnBinaryOpExpression plus (col 7 "a") (col 3 "b"))
     ExpressionFormatter_init).1 = "(<table1>.a + <table2>.b)".
Proof. reflexivity. Qed.

(** In [eval_pointer] the arguments are rendered before the table of the
    pointer is looked up. *)
Example format_pointer :
  (eval_expression (PointerExpression (thisclass.Table 3) [col 7 "a"] true)
     ExpressionFormatter_init).1
  = "<table2>.pointer_from(<table1>.a, optional=True)".
Proof. reflexivity. Qed.

(** One formatter keeps its numbers from one expression to the next; a
    new formatter starts again at 1. *)
Example format_two_expressions :
  (_ ← eval_expression (col 7 "a"); eval_expression (col 3 "b"))
    ExpressionFormatter_init
  = ("<table2>.b", formatter_after [thisclass.Table 7; thisclass.Table 3]) ∧
  eval_expression (col 3 "b") ExpressionFormatter_init
  = ("<table1>.b", formatter_after [thisclass.Table 3]).
Proof. split; reflexivity. Qed.

Lemma formatting_is_stable_witness :
  eval_expression
    (ColumnBinaryOpExpression plus
       (ColumnBinaryOpExpression plus (col 7 "a") (col 3 "b")) (col 7 "c"))
    ExpressionFormatter_init
  = ("((<table1>.a + <table2>.b) + <table1>.c)",
     {| table_counter := 3;
        table_numbers := [(thisclass.Table 7, 1); (thisclass.Table 3, 2)] |}).
Proof.
  exact (proj1 (proj2 (formatting_is_stable
    (ColumnBinaryOpExpression plus
       (ColumnBinaryOpExpression plus (col 7 "a") (col 3 "b"))
       (col 7 "c"))))).
Defined.

(** ** Insertion-ordered sets and chained dicts *)

Definition stable_add (acc : list string) (x : string) : list string :=
  if bool_decide (x ∈ acc) then acc else acc ++ [x].

Lemma StableSet_foldl xs : StableSet xs = foldl stable_add [] xs.
Proof. done. Qed.

Lemma elem_of_stable_foldl xs acc x :
  x ∈ foldl stable_add acc xs ↔ x ∈ acc ∨ x ∈ xs.
Proof.
  revert acc. induction xs as [|y xs IH]; intros acc; simpl.
  - rewrite elem_of_nil. tauto.
  - rewrite IH, elem_of_cons. unfold stable_add.
    case_bool_decide as Hy.
    + split; [tauto|]. intros [?|[->|?]]; tauto.
    + rewrite elem_of_app, list_elem_of_singleton. tauto.
Qed.

Lemma elem_of_StableSet xs x : x ∈ StableSet xs ↔ x ∈ xs.
Proof.
  rewrite StableSet_foldl, elem_of_stable_foldl, elem_of_nil. tauto.
Qed.

Lemma NoDup_stable_foldl xs acc :
  NoDup acc → NoDup (foldl stable_add acc xs).
Proof.
  revert acc. induction xs as [|y xs IH]; intros acc Hacc; simpl; [done|].
  apply IH. unfold stable_add. case_bool_decide as Hy; [done|].
  apply NoDup_app. split; [done|]. split; [|apply NoDup_singleton].
  by intros x Hx ->%list_elem_of_singleton.
Qed.

Lemma NoDup_StableSet xs : NoDup (StableSet xs).
Proof. apply NoDup_stable_foldl, NoDup_nil_2. Qed.

Lemma stable_foldl_NoDup xs acc :
  NoDup (acc ++ xs) → foldl stable_add acc xs = acc ++ xs.
Proof.
  revert acc. induction xs as [|y xs IH]; intros acc Hnd; simpl.
  - by rewrite app_nil_r.
  - replace (acc ++ y :: xs) with ((acc ++ [y]) ++ xs) in *
      by by rewrite <-app_assoc.
    rewrite <-IH by done. f_equal. unfold stable_add.
    rewrite bool_decide_eq_false_2; [done|].
    apply NoDup_app in Hnd as [Hnd _]. apply NoDup_app in Hnd as (_ & Hnd & _).
    intros Hy. apply (Hnd y Hy). by apply list_elem_of_singleton.
Qed.

Lemma StableSet_NoDup xs : NoDup xs → StableSet xs = xs.
Proof. intros H. by rewrite StableSet_foldl, stable_foldl_NoDup. Qed.

Lemma filter_stable_foldl (P : string → Prop) `{∀ x, Decision (P x)} xs acc :
  filter P (foldl stable_add acc xs) =
  foldl stable_add (filter P acc) (filter P xs).
Proof.
  revert acc. induction xs as [|y xs IH]; intros acc; simpl; [done|].
  rewrite IH, filter_cons. unfold stable_add at 2.
  destruct (decide (P y)) as [Hy|Hy]; simpl.
  - f_equal. unfold stable_add.
    case_bool_decide as Hin.
    + rewrite bool_decide_eq_true_2; [done|]. by apply list_elem_of_filter.
    + rewrite bool_decide_eq_false_2.
      * by rewrite filter_app, filter_cons, decide_True.
      * by intros [_ ?]%list_elem_of_filter.
  - f_equal. case_bool_decide as Hin; [done|].
    by rewrite filter_app, filter_cons, decide_False, app_nil_r.
Qed.

Lemma filter_StableSet (P : string → Prop) `{∀ x, Decision (P x)} xs :
  filter P (StableSet xs) = StableSet (filter P xs).
Proof. rewrite !StableSet_foldl. by rewrite filter_stable_foldl. Qed.

Lemma length_StableSet_le xs : (length (StableSet xs) ≤ length xs)%nat.
Proof.
  apply submseteq_length, NoDup_submseteq; [apply NoDup_StableSet|].
  intros x. by rewrite elem_of_StableSet.
Qed.

(** A name that occurs in both halves costs at least one element. *)
Lemma length_StableSet_overlap l1 l2 x :
  x ∈ l1 → x ∈ l2 →
  (length (StableSet (l1 ++ l2)) < length l1 + length l2)%nat.
Proof.
  intros H1 H2. apply list_elem_of_split in H2 as (l2a & l2b & ->).
  assert (length (StableSet (l1 ++ l2a ++ x :: l2b)) ≤
          length (l1 ++ l2a ++ l2b))%nat as Hle.
  { apply submseteq_length, NoDup_submseteq; [apply NoDup_StableSet|].
    intros y. rewrite elem_of_StableSet, !elem_of_app, elem_of_cons.
    intros [?|[?|[->|?]]]; tauto. }
  rewrite !length_app in *. simpl. lia.
Qed.

Lemma get_app {V} (d1 d2 : pydict V) k :
  PyDict.get (d1 ++ d2) k =
  match PyDict.get d1 k with
  | Some v => Some v
  | None => PyDict.get d2 k
  end.
Proof.
  induction d1 as [|[k' v'] d1 IH]; simpl; [done|].
  by destruct (decide (k' = k)).
Qed.

Lemma keys_app {V} (d1 d2 : pydict V) :
  PyDict.keys (d1 ++ d2) = PyDict.keys d1 ++ PyDict.keys d2.
Proof. unfold PyDict.keys. apply fmap_app. Qed.

Lemma elem_of_keys {V} (d : pydict V) k v : (k, v) ∈ d → k ∈ PyDict.keys d.
Proof. intros H. apply list_elem_of_fmap. by exists (k, v). Qed.

Lemma omap_keys {V} (g : string → option V) (d : pydict V) :
  (∀ k v, (k, v) ∈ d → g k = Some v) →
  omap (λ k, (λ v, (k, v)) <$> g k) (PyDict.keys d) = d.
Proof.
  unfold PyDict.keys. induction d as [|[k v] d IH]; intros Hg; [done|].
  csimpl. rewrite (Hg k v) by (apply elem_of_cons; by left). csimpl.
  f_equal. apply IH. intros k' v' Hin. apply Hg, elem_of_cons. by right.
Qed.

Lemma length_omap_le {A B} (f : A → option B) (l : list A) :
  (length (omap f l) ≤ length l)%nat.
Proof.
  induction l as [|x l IH]; csimpl; [done|].
  destruct (f x); simpl; lia.
Qed.

(** The chained dict of two dicts without a common key: the second,
    then the first. *)
Lemma dict_of_ChainMap_disjoint {V} (a b : pydict V) :
  PyDict.wf a → PyDict.wf b →
  (∀ k, k ∈ PyDict.keys a → k ∉ PyDict.keys b) →
  dict_of_ChainMap [a; b] = b ++ a.
Proof.
  intros Ha Hb Hdisj. unfold dict_of_ChainMap.
  cbn [reverse rev_append fmap list_fmap concat]. rewrite app_nil_r.
  rewrite StableSet_NoDup.
  2: { apply NoDup_app. split; [done|]. split; [|done].
       intros k Hkb Hka. by apply (Hdisj k). }
  rewrite omap_app. f_equal.
  - apply omap_keys. intros k v Hin. cbn [chain_get].
    assert (PyDict.get a k = None) as ->.
    { apply get_None. intros Hka. apply (Hdisj k Hka).
      by eapply elem_of_keys. }
    by rewrite (get_elem_of_wf b k v).
  - apply omap_keys. intros k v Hin. cbn [chain_get].
    by rewrite (get_elem_of_wf a k v).
Qed.

(** With a common key the chained dict is shorter than the two dicts
    together. *)
Lemma length_dict_of_ChainMap_overlap {V} (a b : pydict V) k :
  k ∈ PyDict.keys a → k ∈ PyDict.keys b →
  (length (dict_of_ChainMap [a; b]) < length a + length b)%nat.
Proof.
  intros Ha Hb. unfold dict_of_ChainMap.
  cbn [reverse rev_append fmap list_fmap concat]. rewrite app_nil_r.
  eapply Nat.le_lt_trans; [apply length_omap_le|].
  pose proof (length_StableSet_overlap _ _ k Hb Ha) as Hlt.
  unfold PyDict.keys in *. rewrite !length_fmap in Hlt. lia.
Qed.

Lemma schema_add_overlap_raises (A B : Schema) :
  (∃ n, n ∈ PyDict.keys (get_type_hints A) ∧
        n ∈ PyDict.keys (get_type_hints B)) ∨
  (∃ n, n ∈ PyDict.keys (_cls_fields A) ∧ n ∈ PyDict.keys (_cls_fields B)) →
  schema_add [A; B] = Raise AssertionError.
Proof.
  intros Hov. unfold schema_add.
  cbn [fmap list_fmap sum_list_with_len foldr].
  case_bool_decide as Ha; cbn [negb]; [|done].
  case_bool_decide as Hf; cbn [negb]; [|done].
  exfalso. destruct Hov as [(n & HA & HB)|(n & HA & HB)].
  - pose proof (length_dict_of_ChainMap_overlap _ _ n HA HB). lia.
  - pose proof (length_dict_of_ChainMap_overlap _ _ n HA HB). lia.
Qed.

(** ** The union of two schemas *)

(** The entry the loop stores for [attr], when it does not raise. *)
Definition column_of (annotations : pydict DType)
    (fields : pydict FieldValue) (attr : string)
  : string * ColumnDefinition :=
  match column_for annotations fields attr with
  | Ok kc => kc
  | Raise _ => (attr, ColumnDefinition_of_dtype Any)
  end.

Lemma create_columns_loop_Ok_iff annotations fields names columns res :
  create_columns_loop annotations fields names columns = Ok res ↔
  Forall (λ n, ∃ kc, column_for annotations fields n = Ok kc) names ∧
  res = foldl (λ d kc, PyDict.set d kc.1 kc.2) columns
              (column_of annotations fields <$> names).
Proof.
  revert columns. induction names as [|n names IH]; intros columns; csimpl.
  - split; [intros [= <-]; split; [constructor|done]|by intros [_ ->]].
  - pose proof (eq_refl (column_of annotations fields n)) as Hco.
    unfold column_of at 1 in Hco.
    destruct (column_for annotations fields n) as [kc|e] eqn:Hc; simpl.
    + rewrite <-Hco, IH. split.
      * intros [Hall ->]. split; [constructor; eauto|done].
      * intros [Hall ->]. split; [by apply Forall_inv_tail in Hall|done].
    + split; [done|]. intros [Hall _]. apply Forall_inv in Hall as [kc Hkc].
      by rewrite Hc in Hkc.
Qed.

(** [column_for] reads the two dicts at [attr] only. *)
Lemma column_for_ext a f a' f' attr :
  PyDict.get a attr = PyDict.get a' attr →
  PyDict.get f attr = PyDict.get f' attr →
  column_for a f attr = column_for a' f' attr.
Proof. intros Ha Hf. unfold column_for. by rewrite Ha, Hf. Qed.

Lemma keys_fields_after_init a f :
  PyDict.keys (fields_after_init a f) = PyDict.keys f.
Proof.
  unfold fields_after_init, PyDict.keys. rewrite <-list_fmap_compose.
  apply list_fmap_ext. by intros _ [k v] _.
Qed.

Lemma get_fields_after_init a f attr :
  PyDict.get (fields_after_init a f) attr =
  field_after_init a attr <$> PyDict.get f attr.
Proof.
  unfold fields_after_init.
  induction f as [|[k v] f IH]; csimpl; [done|].
  destruct (decide (k = attr)) as [->|]; [done|apply IH].
Qed.

(** Building a class again from fields that an earlier, successful
    construction has filled in gives the same columns. *)
Lemma column_for_after_init a f attr kc :
  column_for a f attr = Ok kc →
  column_for a (fields_after_init a f) attr = Ok kc.
Proof.
  unfold column_for. rewrite get_fields_after_init.
  destruct (PyDict.get f attr) as [[c|ty]|]; simpl; [|done..].
  destruct (dtype c) as [d|] eqn:Hd; simpl; rewrite ?Hd; simpl; [done|].
  destruct (PyDict.get a attr) as [dt|]; simpl.
  - rewrite (bool_decide_eq_false_2 (Some dt ≠ Some dt))
      by (intros H; by apply H).
    by rewrite andb_false_r.
  - done.
Qed.

(** The mapping built by a sequence of stores. *)
Definition stores (m : gmap string ColumnDefinition)
    (kcs : list (string * ColumnDefinition)) : gmap string ColumnDefinition :=
  foldl (λ m kc, <[kc.1 := kc.2]> m) m kcs.

Lemma to_map_foldl_set (kcs : list (string * ColumnDefinition)) d :
  PyDict.to_map (foldl (λ d kc, PyDict.set d kc.1 kc.2) d kcs) =
  stores (PyDict.to_map d) kcs.
Proof.
  revert d. induction kcs as [|kc kcs IH]; intros d; simpl; [done|].
  by rewrite IH, to_map_set.
Qed.

Lemma elem_of_keys_foldl_set {V} (kvs : list (string * V)) d k :
  k ∈ PyDict.keys (foldl (λ d kv, PyDict.set d kv.1 kv.2) d kvs) ↔
  k ∈ PyDict.keys d ∨ k ∈ kvs.*1.
Proof.
  revert d. induction kvs as [|[k' v'] kvs IH]; intros d; csimpl.
  - rewrite elem_of_nil. tauto.
  - rewrite IH, keys_set, elem_of_cons.
    case_bool_decide as Hin.
    + split; [tauto|]. intros [?|[->|?]]; tauto.
    + rewrite elem_of_app, list_elem_of_singleton. tauto.
Qed.

Lemma lookup_stores_None m kcs k :
  m !! k = None → k ∉ kcs.*1 → stores m kcs !! k = None.
Proof.
  unfold stores. revert m.
  induction kcs as [|[k' c'] kcs IH]; intros m Hm Hk; csimpl; [done|].
  apply not_elem_of_cons in Hk as [Hne Hk].
  apply IH; [|done]. by rewrite lookup_insert_ne.
Qed.

Lemma stores_snoc m kcs kc :
  stores m (kcs ++ [kc]) = <[kc.1 := kc.2]> (stores m kcs).
Proof. unfold stores. by rewrite foldl_app. Qed.

(** Stores under two disjoint sets of keys can be told apart: the result
    is the union of what each set of stores builds on its own. *)
Lemma stores_interleaved (g : string → string * ColumnDefinition)
    (P : string → Prop) `{∀ n, Decision (P n)} (names : list string) :
  (∀ n n', n ∈ names → n' ∈ names → P n → ¬ P n' → (g n).1 ≠ (g n').1) →
  stores ∅ (g <$> names) =
  stores ∅ (g <$> filter P names) ∪
  stores ∅ (g <$> filter (λ n, ¬ P n) names).
Proof.
  induction names as [|n names IH] using rev_ind; intros Hdisj.
  - unfold stores. simpl. by rewrite map_empty_union.
  - rewrite !filter_app, !fmap_app, !filter_cons, !filter_nil.
    assert (Hnames : stores ∅ (g <$> names) =
              stores ∅ (g <$> filter P names) ∪
              stores ∅ (g <$> filter (λ n, ¬ P n) names)).
    { apply IH. intros a b Ha Hb. apply Hdisj; apply elem_of_app; by left. }
    destruct (decide (P n)) as [Hn|Hn].
    + rewrite decide_False by tauto. csimpl.
      rewrite app_nil_r, !stores_snoc, Hnames. apply insert_union_l.
    + rewrite decide_True by done. csimpl.
      rewrite app_nil_r, !stores_snoc, Hnames. apply insert_union_r.
      apply lookup_stores_None; [done|].
      intros Hin. apply list_elem_of_fmap in Hin as ([k c] & Hk & Hin).
      apply list_elem_of_fmap in Hin as (a & Hga & Ha).
      apply list_elem_of_filter in Ha as [HPa Ha].
      apply (Hdisj a n); [apply elem_of_app; by left| |done|done|].
      * apply elem_of_app. right. by apply list_elem_of_singleton.
      * rewrite <-Hga. simpl in Hk. by rewrite Hk.
Qed.

Lemma filter_all {A} (P : A → Prop) `{∀ x, Decision (P x)} (l : list A) :
  (∀ x, x ∈ l → P x) → filter P l = l.
Proof.
  induction l as [|x l IH]; intros Hl; [done|].
  rewrite filter_cons, decide_True by (apply Hl, elem_of_cons; by left).
  f_equal. apply IH. intros y Hy. apply Hl, elem_of_cons. by right.
Qed.

Lemma filter_none {A} (P : A → Prop) `{∀ x, Decision (P x)} (l : list A) :
  (∀ x, x ∈ l → ¬ P x) → filter P l = [].
Proof.
  intros Hl. apply filter_nil_Forall. by apply Forall_forall.
Qed.

(** The names a schema class binds: its annotations and its class
    attributes. *)
Definition attr_names (sc : Schema) : list string :=
  PyDict.keys (get_type_hints sc) ++ PyDict.keys (_cls_fields sc).

Lemma built_inv (sc : Schema) :
  built sc →
  ∃ a f,
    PyDict.wf a ∧ PyDict.wf f ∧
    get_type_hints sc = a ∧ _cls_fields sc = fields_after_init a f ∧
    Forall (λ n, ∃ kc, column_for a f n = Ok kc)
           (StableSet (PyDict.keys a ++ PyDict.keys f)) ∧
    __columns__ sc =
      foldl (λ d kc, PyDict.set d kc.1 kc.2) []
            (column_of a f <$> StableSet (PyDict.keys a ++ PyDict.keys f)).
Proof.
  intros (n & a & f & Ha & Hf & Hb). exists a, f.
  unfold _schema_builder, _create_column_definitions in Hb.
  destruct (create_columns_loop a f _ []) as [cols|e] eqn:Hc; [|done].
  apply create_columns_loop_Ok_iff in Hc as [Hall ->].
  simpl in Hb. injection Hb as <-. done.
Qed.

Lemma column_names_built a f n :
  n ∈ StableSet (PyDict.keys a ++ PyDict.keys f) →
  (column_of a f n).1 ∈
    PyDict.keys (foldl (λ d kc, PyDict.set d kc.1 kc.2) []
      (column_of a f <$> StableSet (PyDict.keys a ++ PyDict.keys f))).
Proof.
  intros Hn. apply elem_of_keys_foldl_set. right.
  apply list_elem_of_fmap. exists (column_of a f n). split; [done|].
  apply list_elem_of_fmap. by exists n.
Qed.

(** The columns of the union, as a mapping. *)
Lemma schema_add_columns (A B : Schema) :
  built A → built B →
  (∀ n, n ∈ attr_names A → n ∉ attr_names B) →
  (∀ n, n ∈ column_names A → n ∉ column_names B) →
  ∃ sc, schema_add [A; B] = Ok sc ∧
        PyDict.wf (__columns__ sc) ∧
        PyDict.to_map (__columns__ sc) =
          (PyDict.to_map (__columns__ A)) ∪ (PyDict.to_map (__columns__ B)).
Proof.
  intros (aA & fA & HwaA & HwfA & HgA & HfA & HokA & HcA)%built_inv
         (aB & fB & HwaB & HwfB & HgB & HfB & HokB & HcB)%built_inv
         Hattrs Hcols.
  unfold attr_names, column_names in *.
  fold (schema_keys A) (schema_keys B) in Hcols.
  rewrite !schema_keys_columns in Hcols.
  rewrite HgA, HgB, HfA, HfB, !keys_fields_after_init in Hattrs.
  set (namesA := StableSet (PyDict.keys aA ++ PyDict.keys fA)) in *.
  set (namesB := StableSet (PyDict.keys aB ++ PyDict.keys fB)) in *.
  set (aM := aB ++ aA).
  set (fM := fields_after_init aB fB ++ fields_after_init aA fA).
  set (P := λ n : string, n ∈ PyDict.keys aA ++ PyDict.keys fA).
  assert (HnotB : ∀ n, P n → (n ∉ PyDict.keys aB) ∧ (n ∉ PyDict.keys fB)).
  { intros n Hn. specialize (Hattrs n Hn). rewrite elem_of_app in Hattrs.
    tauto. }
  assert (HnotA : ∀ n, n ∈ PyDict.keys aB ++ PyDict.keys fB → ¬ P n).
  { intros n Hn HP. by apply (Hattrs n HP). }
  (* the two chained dicts *)
  assert (HaM : dict_of_ChainMap [aA; aB] = aM).
  { apply dict_of_ChainMap_disjoint; [done..|].
    intros k Hk. apply (HnotB k). apply elem_of_app. by left. }
  assert (HfM : dict_of_ChainMap
                  [fields_after_init aA fA; fields_after_init aB fB] = fM).
  { apply dict_of_ChainMap_disjoint.
    - unfold PyDict.wf. by rewrite keys_fields_after_init.
    - unfold PyDict.wf. by rewrite keys_fields_after_init.
    - intros k. rewrite !keys_fields_after_init. intros Hk.
      apply (HnotB k). apply elem_of_app. by right. }
  (* what the merged class holds under a name of A, of B *)
  assert (HgetA : ∀ n, P n →
            column_for aM fM n = column_for aA (fields_after_init aA fA) n).
  { intros n Hn. destruct (HnotB n Hn) as [Hna Hnf].
    apply column_for_ext; unfold aM, fM; rewrite get_app.
    - by rewrite (proj2 (get_None aB n) Hna).
    - rewrite (proj2 (get_None (fields_after_init aB fB) n)); [done|].
      by rewrite keys_fields_after_init. }
  assert (HgetB : ∀ n, n ∈ PyDict.keys aB ++ PyDict.keys fB →
            column_for aM fM n = column_for aB (fields_after_init aB fB) n).
  { intros n Hn. pose proof (HnotA n Hn) as HnP. unfold P in HnP.
    rewrite elem_of_app in HnP.
    apply column_for_ext; unfold aM, fM; rewrite get_app.
    - destruct (PyDict.get aB n); [done|]. apply get_None. tauto.
    - destruct (PyDict.get (fields_after_init aB fB) n); [done|].
      apply get_None. rewrite keys_fields_after_init. tauto. }
  assert (HofA : ∀ n, P n → column_for aM fM n = column_for aA fA n).
  { intros n Hn. rewrite HgetA by done.
    assert (n ∈ namesA) as Hin by by apply elem_of_StableSet.
    rewrite Forall_forall in HokA. destruct (HokA n Hin) as [kc Hkc].
    rewrite Hkc. by apply column_for_after_init. }
  assert (HofB : ∀ n, n ∈ PyDict.keys aB ++ PyDict.keys fB →
            column_for aM fM n = column_for aB fB n).
  { intros n Hn. rewrite HgetB by done.
    assert (n ∈ namesB) as Hin by by apply elem_of_StableSet.
    rewrite Forall_forall in HokB. destruct (HokB n Hin) as [kc Hkc].
    rewrite Hkc. by apply column_for_after_init. }
  set (namesM := StableSet (PyDict.keys aM ++ PyDict.keys fM)).
  assert (HkeysM : PyDict.keys aM ++ PyDict.keys fM =
            PyDict.keys aB ++ PyDict.keys aA ++
            PyDict.keys fB ++ PyDict.keys fA).
  { unfold aM, fM. rewrite !keys_app, !keys_fields_after_init.
    by rewrite <-app_assoc. }
  assert (HsplitM : ∀ n, n ∈ namesM →
            P n ∨ n ∈ PyDict.keys aB ++ PyDict.keys fB).
  { intros n. unfold namesM, P. rewrite elem_of_StableSet, HkeysM.
    rewrite !elem_of_app. tauto. }
  assert (HfilterA : filter P namesM = namesA).
  { unfold namesM, namesA. rewrite filter_StableSet, HkeysM. f_equal.
    rewrite !filter_app.
    rewrite (filter_none P (PyDict.keys aB)), (filter_none P (PyDict.keys fB)),
      (filter_all P (PyDict.keys aA)), (filter_all P (PyDict.keys fA)).
    - done.
    - intros x Hx. apply elem_of_app. by right.
    - intros x Hx. apply elem_of_app. by left.
    - intros x Hx. apply HnotA, elem_of_app. by right.
    - intros x Hx. apply HnotA, elem_of_app. by left. }
  assert (HfilterB : filter (λ n, ¬ P n) namesM = namesB).
  { unfold namesM, namesB. rewrite filter_StableSet, HkeysM. f_equal.
    rewrite !filter_app.
    rewrite (filter_all _ (PyDict.keys aB)), (filter_all _ (PyDict.keys fB)),
      (filter_none _ (PyDict.keys aA)), (filter_none _ (PyDict.keys fA)).
    - by rewrite app_nil_r.
    - intros x Hx HP. apply HP, elem_of_app. by right.
    - intros x Hx HP. apply HP, elem_of_app. by left.
    - intros x Hx. apply HnotA, elem_of_app. by right.
    - intros x Hx. apply HnotA, elem_of_app. by left. }
  assert (HcoA : ∀ n, n ∈ namesA → column_of aM fM n = column_of aA fA n).
  { intros n Hn. unfold namesA in Hn. rewrite elem_of_StableSet in Hn.
    unfold column_of. by rewrite (HofA n Hn). }
  assert (HcoB : ∀ n, n ∈ namesB → column_of aM fM n = column_of aB fB n).
  { intros n Hn. unfold namesB in Hn. rewrite elem_of_StableSet in Hn.
    unfold column_of. by rewrite (HofB n Hn). }
  (* the construction of the merged class succeeds *)
  assert (HokM : Forall (λ n, ∃ kc, column_for aM fM n = Ok kc) namesM).
  { apply Forall_forall. intros n Hn.
    destruct (HsplitM n Hn) as [HA|HB].
    - rewrite HofA by done. rewrite Forall_forall in HokA.
      apply HokA. by apply elem_of_StableSet.
    - rewrite HofB by done. rewrite Forall_forall in HokB.
      apply HokB. by apply elem_of_StableSet. }
  unfold schema_add. cbn [fmap list_fmap sum_list_with_len foldr].
  rewrite HgA, HgB, HfA, HfB, HaM, HfM.
  rewrite bool_decide_eq_true_2 by (unfold aM; rewrite length_app; lia).
  rewrite bool_decide_eq_true_2 by (unfold fM; rewrite length_app; lia).
  cbn [negb]. unfold _schema_builder, _create_column_definitions.
  fold namesM.
  rewrite (proj2 (create_columns_loop_Ok_iff aM fM namesM [] _)
             (conj HokM eq_refl)).
  cbn [rbind]. eexists. split; [reflexivity|]. cbn [__columns__].
  split; [apply wf_foldl_set, NoDup_nil_2|].
  rewrite HcA, HcB, !to_map_foldl_set.
  change (PyDict.to_map []) with (∅ : gmap string ColumnDefinition).
  rewrite (stores_interleaved (column_of aM fM) P namesM).
  - rewrite HfilterA, HfilterB. f_equal.
    + f_equal. apply Forall_fmap_ext, Forall_forall. exact HcoA.
    + f_equal. apply Forall_fmap_ext, Forall_forall. exact HcoB.
  - intros n n' Hn Hn' HP HnP Heq.
    assert (HinA : n ∈ namesA) by by apply elem_of_StableSet.
    assert (HinB : n' ∈ namesB).
    { apply elem_of_StableSet. destruct (HsplitM n' Hn'); [done|done]. }
    rewrite (HcoA n HinA), (HcoB n' HinB) in Heq.
    apply (Hcols (column_of aA fA n).1).
    + rewrite HcA. by apply column_names_built.
    + rewrite Heq, HcB. by apply column_names_built.
Qed.

(** C2, amended.  For schemas [A] and [B] that share no annotation or
    class-attribute name and no column name, [schema_add(A, B)] succeeds
    and yields a schema with exactly [len(A) + len(B)] columns whose
    [as_dict()] is the disjoint union of the two [as_dict()] mappings.  If
    an annotation name occurs in both schemas, or a class-attribute name
    occurs in both, [schema_add(A, B)] fails with an [AssertionError]. *)
Theorem schema_add_disjoint_union (A B : Schema) :
  built A → built B →
  ((∀ n, n ∈ attr_names A → n ∉ attr_names B) →
   (∀ n, n ∈ column_names A → n ∉ column_names B) →
   ∃ sc, schema_add [A; B] = Ok sc ∧
     length (column_names sc) =
       length (column_names A) + length (column_names B) ∧
     ∀ n, PyDict.get (as_dict sc) n =
          match PyDict.get (as_dict A) n with
          | Some d => Some d
          | None => PyDict.get (as_dict B) n
          end) ∧
  ((∃ n, n ∈ PyDict.keys (get_type_hints A) ∧
         n ∈ PyDict.keys (get_type_hints B)) ∨
   (∃ n, n ∈ PyDict.keys (_cls_fields A) ∧
         n ∈ PyDict.keys (_cls_fields B)) →
   schema_add [A; B] = Raise AssertionError).
Proof.
  intros HA HB. split; [|apply schema_add_overlap_raises].
  intros Hattrs Hcols.
  destruct (schema_add_columns A B HA HB Hattrs Hcols)
    as (sc & Hadd & Hwf & Hmap).
  destruct (built_columns A HA) as [HwA _].
  destruct (built_columns B HB) as [HwB _].
  exists sc. split; [done|]. split.
  - unfold column_names. fold (schema_keys sc) (schema_keys A) (schema_keys B).
    rewrite !schema_keys_columns. unfold PyDict.keys. rewrite !length_fmap.
    rewrite <-!length_to_map by done. rewrite Hmap.
    apply map_size_disj_union. apply map_disjoint_spec.
    intros i x y Hx Hy. rewrite get_to_map in Hx, Hy.
    apply (Hcols i); unfold column_names;
      [fold (schema_keys A)|fold (schema_keys B)];
      rewrite schema_keys_columns; apply get_is_Some; eauto.
  - intros n. unfold as_dict. rewrite !get_fmap, <-!get_to_map, Hmap.
    rewrite lookup_union.
    by destruct (PyDict.to_map (__columns__ A) !! n),
                (PyDict.to_map (__columns__ B) !! n).
Qed.

(** C2 as stated fails in both directions.  Two schemas that bind the
    same attribute [x] to columns named [a] and [b] have disjoint column
    names, and their union raises.  A schema with the annotation [a] and
    a schema with the un-annotated class attribute [a] both have the
    column [a], and their union succeeds, with that one column. *)
Lemma schema_add_column_names_counterexample :
  (∃ A B,
     _schema_builder "A" [("x", int_)]
       [("x", FColumn (column_definition false _no_default_value_marker
                         None (Some "a")))] = Ok A ∧
     _schema_builder "B" [("x", int_)]
       [("x", FColumn (column_definition false _no_default_value_marker
                         None (Some "b")))] = Ok B ∧
     column_names A = ["a"] ∧ column_names B = ["b"] ∧
     schema_add [A; B] = Raise AssertionError) ∧
  (∃ A B sc,
     schema_from_types None [("a", int_)] = Ok A ∧
     schema_builder
       [("a", column_definition false _no_default_value_marker
                (Some int_) None)] None = Ok B ∧
     column_names A = ["a"] ∧ column_names B = ["a"] ∧
     schema_add [A; B] = Ok sc ∧ column_names sc = ["a"]).
Proof.
  split.
  - do 2 eexists. split; [reflexivity|]. split; [reflexivity|].
    split; [reflexivity|]. split; reflexivity.
  - do 3 eexists. split; [reflexivity|]. split; [reflexivity|].
    split; [reflexivity|]. split; [reflexivity|]. split; reflexivity.
Qed.

(** The docstring of [Schema]: [NewSchema | t1.schema]. *)
Definition NewSchema : Schema :=
  {| __name__ := "NewSchema"; get_type_hints := [("foo", int_)];
     _cls_fields := [];
     __columns__ := [("foo", ColumnDefinition_of_dtype int_)] |}.

Definition t1_schema : Schema :=
  {| __name__ := "schema(...)";
     get_type_hints := [("age", int_); ("owner", str_); ("pet", str_)];
     _cls_fields := [];
     __columns__ := [ ("age", ColumnDefinition_of_dtype int_);
                      ("owner", ColumnDefinition_of_dtype str_);
                      ("pet", ColumnDefinition_of_dtype str_) ] |}.

Example SchemaSum_as_dict :
  as_dict <$> match schema_add [NewSchema; t1_schema] with
              | Ok sc => Some sc
              | Raise _ => None
              end
  = Some [ ("age", Some int_); ("owner", Some str_); ("pet", Some str_);
           ("foo", Some int_) ].
Proof. reflexivity. Qed.

Lemma NewSchema_built : built NewSchema.
Proof.
  exists "NewSchema", [("foo", int_)], [].
  split; [apply NoDup_singleton|]. split; [apply NoDup_nil_2|reflexivity].
Defined.

Lemma t1_schema_built : built t1_schema.
Proof.
  exists "schema(...)", [("age", int_); ("owner", str_); ("pet", str_)], [].
  split; [|split; [apply NoDup_nil_2|reflexivity]].
  apply (bool_decide_unpack _). reflexivity.
Defined.

Lemma schema_add_disjoint_union_witness :
  ∃ sc, schema_add [NewSchema; t1_schema] = Ok sc ∧
        length (column_names sc) = 4.
Proof.
  destruct (proj1 (schema_add_disjoint_union NewSchema t1_schema
                     NewSchema_built t1_schema_built))
    as (sc & Hsc & Hlen & _).
  - intros n Hn Hn'. unfold attr_names in Hn. cbn in Hn.
    apply list_elem_of_singleton in Hn as ->.
    apply (bool_decide_pack _) in Hn'. vm_compute in Hn'. exact Hn'.
  - intros n Hn Hn'. cbn in Hn.
    apply list_elem_of_singleton in Hn as ->.
    apply (bool_decide_pack _) in Hn'. vm_compute in Hn'. exact Hn'.
  - exists sc. split; [exact Hsc|exact Hlen].
Defined.
